(** * Prisma schema import: classification, relation pairing and entity building

    A shallow embedding of [PrismaSchemaUtilsService]
    (packages/amplication-server/src/core/prismaSchemaUtils/prismaSchemaUtils.service.ts)
    and the properties of it that the design document states.

    Conventions.  A method that can throw returns a [result]; one that also
    uses the logger returns what it logged as well ([M]).  Optional members of
    the AST are [option]s, and reading a property of [undefined] is a thrown
    [TypeError].  The functions the service imports are the fields of
    [Externals].  [cuid()] is a stream of tokens, one stream per run.  The
    schema builder edits a schema in place; here it carries the schema and the
    position of its subject.

    Layout: the declaration tree, outcomes, the collaborators, the classifier,
    the relation checks, the prepare functions, the remote-field helper, the
    builders of the conversion section and the walk that calls them, the schema
    builder and the four operations; then the vocabulary of the design
    document and the worked schemas; last the lemmas and theorems. *)

From Stdlib Require Import List String Ascii Bool Arith NArith ZArith Lia.
Import ListNotations.
Open Scope string_scope.
Open Scope list_scope.

Set Implicit Arguments.
Set Warnings "-register-all".

(* ------------------------------------------------------------------ *)
(** ** The declaration tree (the AST of @mrleebo/prisma-ast) *)

(** A value of an attribute argument.  A quoted literal such as the relation
    name in [@relation("owner")] is a JavaScript string that keeps its quotes;
    numbers and booleans are the other primitives; the remaining three are the
    objects [Func], [RelationArray] and [KeyValue]. *)
Inductive Value : Type :=
| VString (s : string)
| VNumber (n : Z)
| VBoolean (b : bool)
| VFunc (name : string) (params : list Value)
| VArray (args : list string)
| VKeyValue (key : string) (value : Value).

Record AttributeArgument : Type := mkArg { arg_value : Value }.

(** [attr_args] is optional in the AST ([@id] has none). *)
Record Attribute : Type := mkAttribute {
  attr_kind : string;
  attr_name : string;
  attr_args : option (list AttributeArgument)
}.

(** [array], [optional] and [attributes] are optional members of a field. *)
Record Field : Type := mkField {
  field_name : string;
  fieldType : string;
  array : option bool;
  optional : option bool;
  attributes : option (list Attribute)
}.

(** A property of a model: a field, a block attribute, or something else
    (a comment, a line break). *)
Inductive Property : Type :=
| PField (f : Field)
| PAttribute (a : Attribute)
| POther.

Record Model : Type := mkModel {
  model_name : string;
  properties : list Property
}.

Record Enumerator : Type := mkEnumerator { enumerator_name : string }.

(** An entry of the [enumerators] of an enum block: the parser keeps there,
    in source order, the enumerators and also the comments, the line breaks and
    the block attributes written inside the block. *)
Inductive EnumEntry : Type :=
| EEnumerator (e : Enumerator)
| EAttribute (a : Attribute)
| EComment (text : string)
| EBreak.

Record Enum : Type := mkEnum {
  enum_name : string;
  enumerators : list EnumEntry
}.

(** [enumerator.name] on an entry of [enumerators]: an enumerator and an
    attribute have a [name], a comment and a line break have none and the
    read gives [undefined]. *)
Definition entryName (entry : EnumEntry) : option string :=
  match entry with
  | EEnumerator e => Some (enumerator_name e)
  | EAttribute a => Some (attr_name a)
  | EComment _ => None
  | EBreak => None
  end.

(** A top-level block; [BOther] stands for the blocks whose [type] is neither
    MODEL_TYPE_NAME nor ENUM_TYPE_NAME (datasource, generator, ...). *)
Inductive Block : Type :=
| BModel (m : Model)
| BEnum (e : Enum)
| BOther.

Record Schema : Type := mkSchema { list_ : list Block }.

(** Modelled from the spec: the declaration of [EnumDataType]
    (../../enums/EnumDataType) is not among the sources.  These are the twelve
    categories the design document lists for the classifier; the service names
    no other member. *)
Inductive EnumDataType : Type :=
| Id | Lookup | OptionSet | MultiSelectOptionSet | CreatedAt | UpdatedAt
| SingleLineText | WholeNumber | DecimalNumber | Boolean | DateTime | Json.

Definition EnumDataType_eqb (a b : EnumDataType) : bool :=
  match a, b with
  | Id, Id | Lookup, Lookup | OptionSet, OptionSet
  | MultiSelectOptionSet, MultiSelectOptionSet | CreatedAt, CreatedAt
  | UpdatedAt, UpdatedAt | SingleLineText, SingleLineText
  | WholeNumber, WholeNumber | DecimalNumber, DecimalNumber
  | Boolean, Boolean | DateTime, DateTime | Json, Json => true
  | _, _ => false
  end.

(** Modelled from the spec: ./constants is not among the sources.  The
    primary-key attribute is [@id] and the canonical primary-key identifier is
    [id], as the comment of [handleIdField] also has them; a top-level block
    that is a Record-Type has type [model]. *)
Definition ID_ATTRIBUTE_NAME : string := "id".
Definition ID_FIELD_NAME : string := "id".
Definition MODEL_TYPE_NAME : string := "model".

(** The double quote character, and a name between double quotes. *)
Definition dquote : string := String (Ascii.ascii_of_nat 34) EmptyString.
Definition quoted (s : string) : string := dquote ++ s ++ dquote.

(* ------------------------------------------------------------------ *)
(** ** Outcomes: exceptions and the logger *)

Inductive exn : Type :=
| TypeError (what : string)
| Error (message : string).

Inductive result (A : Type) : Type :=
| Ok (a : A)
| Throw (e : exn).
Arguments Ok {A} a.
Arguments Throw {A} e.

(** [logger.info(message, context)] and [logger.error(message)]. *)
Inductive LogEntry : Type :=
| LogInfo (message : string) (context : list (string * string))
| LogError (message : string).

(** A method that uses the logger: what it logged, and how it ended. *)
Definition M (A : Type) : Type := (list LogEntry * result A)%type.

Definition ret {A} (a : A) : M A := ([], Ok a).
Definition throw {A} (e : exn) : M A := ([], Throw e).
Definition log (entry : LogEntry) : M unit := ([entry], Ok tt).
Definition lift {A} (r : result A) : M A := ([], r).

Definition bind {A B} (m : M A) (k : A -> M B) : M B :=
  match m with
  | (l1, Ok a) => let (l2, r) := k a in (l1 ++ l2, r)
  | (l1, Throw e) => (l1, Throw e)
  end.

Definition rbind {A B} (r : result A) (k : A -> result B) : result B :=
  match r with
  | Ok a => k a
  | Throw e => Throw e
  end.

Declare Scope m_scope.
Delimit Scope m_scope with m.
Notation "x <- c1 ;; c2" := (bind c1 (fun x => c2))
  (at level 61, c1 at next level, right associativity) : m_scope.
Notation "c1 ;;; c2" := (bind c1 (fun _ => c2))
  (at level 61, right associativity) : m_scope.

(** [Array.prototype.some], [filter] and [find] with a callback that may throw. *)
Fixpoint someR {A} (p : A -> result bool) (l : list A) : result bool :=
  match l with
  | [] => Ok false
  | x :: rest =>
      match p x with
      | Ok true => Ok true
      | Ok false => someR p rest
      | Throw e => Throw e
      end
  end.

Fixpoint filterR {A} (p : A -> result bool) (l : list A) : result (list A) :=
  match l with
  | [] => Ok []
  | x :: rest =>
      match p x with
      | Ok b =>
          match filterR p rest with
          | Ok r => Ok (if b then x :: r else r)
          | Throw e => Throw e
          end
      | Throw e => Throw e
      end
  end.

Fixpoint findR {A} (p : A -> result bool) (l : list A) : result (option A) :=
  match l with
  | [] => Ok None
  | x :: rest =>
      match p x with
      | Ok true => Ok (Some x)
      | Ok false => findR p rest
      | Throw e => Throw e
      end
  end.

(* ------------------------------------------------------------------ *)
(** ** Reading the tree *)

(** [schema.list.filter((item) => item.type === MODEL_TYPE_NAME)] *)
Fixpoint modelsOf (l : list Block) : list Model :=
  match l with
  | [] => []
  | BModel m :: rest => m :: modelsOf rest
  | _ :: rest => modelsOf rest
  end.

(** [schema.list.filter((item) => item.type === ENUM_TYPE_NAME)] *)
Fixpoint enumsOf (l : list Block) : list Enum :=
  match l with
  | [] => []
  | BEnum e :: rest => e :: enumsOf rest
  | _ :: rest => enumsOf rest
  end.

(** [model.properties.filter((property) => property.type === FIELD_TYPE_NAME)] *)
Fixpoint fieldsOf (l : list Property) : list Field :=
  match l with
  | [] => []
  | PField f :: rest => f :: fieldsOf rest
  | _ :: rest => fieldsOf rest
  end.

(** [model.properties.filter((prop) => prop.type === "attribute")] *)
Fixpoint blockAttributesOf (l : list Property) : list Attribute :=
  match l with
  | [] => []
  | PAttribute a :: rest => a :: blockAttributesOf rest
  | _ :: rest => blockAttributesOf rest
  end.

(** [field.attributes?.some((attr) => attr.name === name)]; an absent list
    gives [undefined], which every use reads as false. *)
Definition hasAttribute (name : string) (field : Field) : bool :=
  match attributes field with
  | None => false
  | Some attrs => existsb (fun attr => attr_name attr =? name) attrs
  end.

(** [field.attributes?.find((attr) => attr.name === name)] *)
Definition findAttribute (name : string) (field : Field) : option Attribute :=
  match attributes field with
  | None => None
  | Some attrs => find (fun attr => attr_name attr =? name) attrs
  end.

(** [field.array || false] and [field.optional || false] *)
Definition orFalse (flag : option bool) : bool :=
  match flag with
  | Some b => b
  | None => false
  end.

(** [(arg.value as Func).name]: only a [Func] has a [name]. *)
Definition funcName (v : Value) : option string :=
  match v with
  | VFunc name _ => Some name
  | _ => None
  end.

(** [(arg.value as Func).name === "now"] *)
Definition isNowArg (arg : AttributeArgument) : bool :=
  match funcName (arg_value arg) with
  | Some name => name =? "now"
  | None => false
  end.

(** [typeof arg.value === "string"] *)
Definition isStringValue (v : Value) : bool :=
  match v with
  | VString _ => true
  | _ => false
  end.

(** Truthiness of a string: the empty string is falsy. *)
Definition truthy (s : string) : bool :=
  match s with
  | EmptyString => false
  | String _ _ => true
  end.

(* ------------------------------------------------------------------ *)
(** ** External collaborators

    Functions the service imports and that are not part of it: the naming
    utilities of ./schema-utils, [pluralize], the reserved names, the id-type
    tables, JavaScript's own string operations, and the schema parser. *)

Record Externals : Type := mkExternals {
  formatModelName : string -> string;
  formatFieldName : string -> string;
  formatDisplayName : string -> string;
  pluralize : string -> string;
  isPlural : string -> bool;
  isReservedName : string -> bool;
  toLowerCase : string -> string;
  trim : string -> string;
  filterOutAmplicationAttributes : list string -> list string;
  idTypePropertyMap : string -> option string;
  idTypePropertyMapByFieldType : string -> option string;
  (** how a template literal or [join] renders a value *)
  valueToString : Value -> string;
  (** [createPrismaSchemaBuilder(inputSchema)]: the parsed schema *)
  getSchema : string -> result Schema
}.

(* ------------------------------------------------------------------ *)
(** ** resolveFieldDataType *)

Section Classifier.
Variable ext : Externals.
Variable schema : Schema.
Variable field : Field.

Definition idType (_ : unit) : result (option EnumDataType) :=
  let fieldIdType := hasAttribute ID_ATTRIBUTE_NAME field in
  if fieldIdType then Ok (Some Id) else Ok None.

Definition lookupRelationType (_ : unit) : result (option EnumDataType) :=
  let fieldLookupType := hasAttribute "relation" field in
  if fieldLookupType then Ok (Some Lookup) else Ok None.

Definition lookupModelType (_ : unit) : result (option EnumDataType) :=
  let modelList := modelsOf (list_ schema) in
  let fieldModelType :=
    find (fun model =>
            formatModelName ext (model_name model)
            =? formatModelName ext (fieldType field)) modelList in
  match fieldModelType with
  | Some _ => Ok (Some Lookup)
  | None => Ok None
  end.

(** [attribute?.args?.some((arg) => (arg.value as Func).name === "now")] *)
Definition nowArg (attribute : option Attribute) : bool :=
  match attribute with
  | None => false
  | Some a =>
      match attr_args a with
      | None => false
      | Some args => existsb isNowArg args
      end
  end.

Definition createAtType (_ : unit) : result (option EnumDataType) :=
  let createdAtDefaultAttribute := findAttribute "default" field in
  let createdAtNowArg := nowArg createdAtDefaultAttribute in
  match createdAtDefaultAttribute with
  | Some _ => if createdAtNowArg then Ok (Some CreatedAt) else Ok None
  | None => Ok None
  end.

Definition updatedAtType (_ : unit) : result (option EnumDataType) :=
  let updatedAtAttribute := hasAttribute "updatedAt" field in
  let updatedAtDefaultAttribute := findAttribute "default" field in
  let updatedAtNowArg := nowArg updatedAtDefaultAttribute in
  if updatedAtAttribute
     || (match updatedAtDefaultAttribute with
         | Some _ => updatedAtNowArg
         | None => false
         end)
  then Ok (Some UpdatedAt) else Ok None.

Definition optionSetType (_ : unit) : result (option EnumDataType) :=
  let enumList := enumsOf (list_ schema) in
  let fieldOptionSetType :=
    find (fun enumItem => enum_name enumItem =? fieldType field) enumList in
  match fieldOptionSetType with
  | Some _ => Ok (Some OptionSet)
  | None => Ok None
  end.

Definition multiSelectOptionSetType (_ : unit) : result (option EnumDataType) :=
  let enumList := enumsOf (list_ schema) in
  let isMultiSelect := orFalse (array field) in
  let fieldOptionSetType :=
    find (fun enumItem => (enum_name enumItem =? fieldType field) && isMultiSelect)
         enumList in
  match fieldOptionSetType with
  | Some _ => Ok (Some MultiSelectOptionSet)
  | None => Ok None
  end.

(** The members of [ScalarType] (prisma-schema-dsl-types) are the type tags
    themselves. *)
Definition scalarType (_ : unit) : result (option EnumDataType) :=
  let t := fieldType field in
  if t =? "String" then Ok (Some SingleLineText)
  else if t =? "Int" then Ok (Some WholeNumber)
  else if t =? "Float" then Ok (Some DecimalNumber)
  else if t =? "Boolean" then Ok (Some Boolean)
  else if t =? "DateTime" then Ok (Some DateTime)
  else if t =? "Json" then Ok (Some Json)
  else Ok None.

Definition unsupported (_ : unit) : result (option EnumDataType) :=
  Throw (Error ("Unsupported data type: " ++ fieldType field)).

Definition fieldDataTypCases : list (unit -> result (option EnumDataType)) :=
  [ idType;
    lookupRelationType;
    lookupModelType;
    optionSetType;
    multiSelectOptionSetType;
    createAtType;
    updatedAtType;
    scalarType;
    unsupported ].

(** The loop over the cases: the first truthy result is returned; a loop
    that ends without one returns [undefined] ([Ok None]). *)
Fixpoint firstResult (cases : list (unit -> result (option EnumDataType)))
  : result (option EnumDataType) :=
  match cases with
  | [] => Ok None
  | fieldDataTypCase :: rest =>
      match fieldDataTypCase tt with
      | Ok (Some r) => Ok (Some r)
      | Ok None => firstResult rest
      | Throw e => Throw e
      end
  end.

Definition resolveFieldDataType : result (option EnumDataType) :=
  firstResult fieldDataTypCases.

(** [this.resolveFieldDataType(schema, field) === dataType] *)
Definition isDataType (dataType : EnumDataType) : result bool :=
  rbind resolveFieldDataType (fun r =>
    Ok (match r with
        | Some d => EnumDataType_eqb d dataType
        | None => false
        end)).

End Classifier.

(* ------------------------------------------------------------------ *)
(** ** Relation checks: isNotAnnotatedRelationField, isFkFieldOfARelation *)

(** Reading [.some], [.find] or [.args] of [undefined]. *)
Definition undefinedRead (what : string) : exn :=
  TypeError ("Cannot read properties of undefined (reading '" ++ what ++ "')").

(** [attr.name === "relation" && attr.args.some((arg) => typeof arg.value === "string")] *)
Definition relationWithStringArg (attr : Attribute) : result bool :=
  if attr_name attr =? "relation" then
    match attr_args attr with
    | None => Throw (undefinedRead "some")
    | Some args => Ok (existsb (fun arg => isStringValue (arg_value arg)) args)
    end
  else Ok false.

Definition isNotAnnotatedRelationField (ext : Externals) (schema : Schema)
  (field : Field) : result bool :=
  let modelList := modelsOf (list_ schema) in
  let relationAttribute := hasAttribute "relation" field in
  rbind (match attributes field with
         | None => Ok false
         | Some attrs => someR relationWithStringArg attrs
         end)
    (fun hasRelationAttributeWithRelationName =>
       let fieldModelType :=
         find (fun modelItem =>
                 formatModelName ext (model_name modelItem)
                 =? formatFieldName ext (fieldType field)) modelList in
       match fieldModelType with
       | Some _ =>
           if negb relationAttribute || hasRelationAttributeWithRelationName
           then Ok true else Ok false
       | None => Ok false
       end).

(** [(arg.value as KeyValue).key === "fields" &&
     ((arg.value as KeyValue).value as RelationArray).args.find((argName) => argName === name)],
    read as a condition: the string [find] returns is truthy unless empty. *)
Definition fieldsArgLists (name : string) (arg : AttributeArgument) : result bool :=
  match arg_value arg with
  | VKeyValue key value =>
      if key =? "fields" then
        match value with
        | VArray args =>
            match find (fun argName => argName =? name) args with
            | Some found => Ok (truthy found)
            | None => Ok false
            end
        | _ => Throw (undefinedRead "find")
        end
      else Ok false
  | _ => Ok false
  end.

(** [attr.name === "relation" && attr.args.some(...)] *)
Definition relationListsFk (name : string) (attr : Attribute) : result bool :=
  if attr_name attr =? "relation" then
    match attr_args attr with
    | None => Throw (undefinedRead "some")
    | Some args => someR (fieldsArgLists name) args
    end
  else Ok false.

(** The callback of [modelFields.filter]. *)
Definition referencesAsFk (name : string) (modelField : Field) : result bool :=
  match attributes modelField with
  | None => Ok false
  | Some attrs => someR (relationListsFk name) attrs
  end.

Definition moreThanOneRelationMessage (field : Field) (model : Model) : string :=
  "Field " ++ field_name field ++ " on model " ++ model_name model
  ++ " has more than one relation field".

Definition isFkFieldOfARelation (schema : Schema) (model : Model) (field : Field)
  : M bool :=
  let modelFields := fieldsOf (properties model) in
  (relationFiledWithReference <-
     lift (filterR (referencesAsFk (field_name field)) modelFields) ;;
   (if Nat.ltb 1 (List.length relationFiledWithReference)
    then (log (LogError (moreThanOneRelationMessage field model)) ;;;
          log (LogError (moreThanOneRelationMessage field model)))
    else ret tt) ;;;
   ret (Nat.eqb (List.length relationFiledWithReference) 1))%m.

(* ------------------------------------------------------------------ *)
(** ** Prepare functions: prepareAttributes, prepareEntity,
       createOneEntityFieldCommonProperties *)

(** One element of [args] as [args.join(", ")] renders it: an array in
    brackets, a key-value pair as [key: value], any other object as
    [undefined] (the empty string in a join), a primitive as itself. *)
Definition renderArg (ext : Externals) (arg : AttributeArgument) : string :=
  match arg_value arg with
  | VArray args => "[" ++ String.concat ", " args ++ "]"
  | VKeyValue key value => key ++ ": " ++ valueToString ext value
  | VFunc _ _ => EmptyString
  | VString s => s
  | v => valueToString ext v
  end.

Definition sigil (attribute : Attribute) : string :=
  if attr_kind attribute =? MODEL_TYPE_NAME then "@@" else "@".

Definition prepareAttribute (ext : Externals) (attribute : Attribute) : string :=
  match attr_args attribute with
  | None => sigil attribute ++ attr_name attribute
  | Some args =>
      sigil attribute ++ attr_name attribute
      ++ "(" ++ String.concat ", " (map (renderArg ext) args) ++ ")"
  end.

Definition prepareAttributes (ext : Externals) (attributes : option (list Attribute))
  : list string :=
  match attributes with
  | None => []
  | Some attrs => map (prepareAttribute ext) attrs
  end.

(** A [{label, value}] option of an option set; both members are read from
    the [name] of an entry and are [undefined] when the entry has none. *)
Record OptionItem : Type := mkOption { label : option string; value : option string }.

(** The [properties] object of a field, by the shapes the service builds
    (the types of @amplication/code-gen-types it casts them to); [fkHolder] of
    a Lookup is always [null] and is left out. *)
Inductive Properties : Type :=
| NoProperties
| SingleLineTextProps (maxLength : N)
| WholeNumberProps (minimumValue maximumValue : N)
| DecimalNumberProps (minimumValue maximumValue precision : N)
| DateTimeProps (timeZone : string) (dateOnly : bool)
| IdProps (idType : option string)
| OptionSetProps (options : list OptionItem)
| LookupProps (relatedEntityId : string) (allowMultipleSelection : bool).

(** [CreateBulkFieldsInput] *)
Record EntityField : Type := mkEntityField {
  ef_name : string;
  ef_displayName : string;
  ef_dataType : EnumDataType;
  ef_required : bool;
  ef_unique : option bool;
  ef_searchable : bool;
  ef_description : string;
  ef_properties : Properties;
  ef_customAttributes : string;
  ef_relatedFieldName : option string;
  ef_relatedFieldDisplayName : option string;
  ef_relatedFieldAllowMultipleSelection : option bool
}.

(** [CreateBulkEntitiesInput] *)
Record Entity : Type := mkEntity {
  e_id : string;
  e_name : string;
  e_displayName : string;
  e_pluralDisplayName : string;
  e_description : string;
  e_customAttributes : string;
  e_fields : list EntityField
}.

(** [id] is the token [cuid()] returns for this call. *)
Definition prepareEntity (ext : Externals) (id : string) (model : Model) : Entity :=
  let modelDisplayName := formatDisplayName ext (model_name model) in
  let modelAttributes := blockAttributesOf (properties model) in
  let entityPluralDisplayName := pluralize ext (model_name model) in
  let entityAttributes :=
    String.concat " " (prepareAttributes ext (Some modelAttributes)) in
  {| e_id := id;
     e_name := model_name model;
     e_displayName := modelDisplayName;
     e_pluralDisplayName := entityPluralDisplayName;
     e_description := EmptyString;
     e_customAttributes := entityAttributes;
     e_fields := [] |}.

Definition createOneEntityFieldCommonProperties (ext : Externals) (field : Field)
  (fieldDataType : EnumDataType) : EntityField :=
  let fieldDisplayName := formatDisplayName ext (field_name field) in
  let isUniqueField :=
    match attributes field with
    | None => None
    | Some attrs => Some (existsb (fun attr => attr_name attr =? "unique") attrs)
    end in
  let fieldAttributes :=
    String.concat " "
      (filter (fun attr => negb (attr =? "@default()"))
         (filterOutAmplicationAttributes ext
            (prepareAttributes ext (attributes field)))) in
  {| ef_name := field_name field;
     ef_displayName := fieldDisplayName;
     ef_dataType := fieldDataType;
     ef_required := orFalse (optional field);
     ef_unique := isUniqueField;
     ef_searchable := false;
     ef_description := EmptyString;
     ef_properties := NoProperties;
     ef_customAttributes := fieldAttributes;
     ef_relatedFieldName := None;
     ef_relatedFieldDisplayName := None;
     ef_relatedFieldAllowMultipleSelection := None |}.

(* ------------------------------------------------------------------ *)
(** ** Helpers: findRemoteRelatedModelAndField *)

(** The callback of the first [field.attributes?.find] assigns
    [relationAttributeName] and returns nothing, so [find] visits every
    attribute and the last assignment stands: a string when that attribute is
    a relation with a string argument, [false] or [undefined] otherwise
    (both [None] here). *)
Definition relationNameOf (attr : Attribute) : result (option string) :=
  if attr_name attr =? "relation" then
    match attr_args attr with
    | None => Throw (undefinedRead "find")
    | Some args =>
        match find (fun arg => isStringValue (arg_value arg)) args with
        | Some (mkArg (VString s)) => Ok (Some s)
        | _ => Ok None
        end
    end
  else Ok None.

Fixpoint relationAttributeNameLoop (attrs : list Attribute)
  (relationAttributeName : option string) : result (option string) :=
  match attrs with
  | [] => Ok relationAttributeName
  | attr :: rest =>
      match relationNameOf attr with
      | Ok name => relationAttributeNameLoop rest name
      | Throw e => Throw e
      end
  end.

(** [arg.value === relationAttributeName] *)
Definition argIsName (relationAttributeName : string) (arg : AttributeArgument) : bool :=
  match arg_value arg with
  | VString s => s =? relationAttributeName
  | _ => false
  end.

(** [attr.name === "relation" && attr.args.find((arg) => arg.value === relationAttributeName)] *)
Definition relationNamed (relationAttributeName : string) (attr : Attribute)
  : result bool :=
  if attr_name attr =? "relation" then
    match attr_args attr with
    | None => Throw (undefinedRead "find")
    | Some args => Ok (existsb (argIsName relationAttributeName) args)
    end
  else Ok false.

Definition carriesRelationNamed (relationAttributeName : string) (field : Field)
  : result bool :=
  match attributes field with
  | None => Ok false
  | Some attrs => someR (relationNamed relationAttributeName) attrs
  end.

Definition modelNotFoundMessage (field : Field) : string :=
  "Model " ++ fieldType field
  ++ " not found in the schema. Please check your schema.prisma file".

Definition multipleFieldsMessage (remoteModel model : Model) : string :=
  "Multiple fields found in model " ++ model_name remoteModel
  ++ " that reference " ++ model_name model.

Definition noFieldMessage (remoteModel model : Model) : string :=
  "No field found in model " ++ model_name remoteModel
  ++ " that reference " ++ model_name model.

(** The result object [{ remoteModel, remoteField }]; [remoteField] may be
    [undefined]. *)
Record RemoteModelAndField : Type := mkRemote {
  remoteModel : Model;
  remoteField : option Field
}.

(** The [else] branch: the fields of the remote model that reference the
    current model and carry no relation attribute; exactly one is accepted. *)
Definition backReferences (ext : Externals) (remoteModel model : Model) : list Field :=
  filter (fun remoteField =>
            let hasRelationAttribute := hasAttribute "relation" remoteField in
            (formatModelName ext (fieldType remoteField)
             =? formatModelName ext (model_name model))
            && negb hasRelationAttribute)
         (fieldsOf (properties remoteModel)).

Definition implicitRemoteField (ext : Externals) (remoteModel model : Model)
  : M RemoteModelAndField :=
  match backReferences ext remoteModel model with
  | [] => throw (Error (noFieldMessage remoteModel model))
  | [remoteField] => ret (mkRemote remoteModel (Some remoteField))
  | _ :: _ :: _ => throw (Error (multipleFieldsMessage remoteModel model))
  end.

(** [if (relationAttributeName)]: a non-empty string. *)
Definition namedRelation (relationAttributeName : option string) : option string :=
  match relationAttributeName with
  | Some name => if truthy name then Some name else None
  | None => None
  end.

Definition findRemoteRelatedModelAndField (ext : Externals) (schema : Schema)
  (model : Model) (field : Field) : M RemoteModelAndField :=
  (relationAttributeName <-
     lift (match attributes field with
           | None => Ok None
           | Some attrs => relationAttributeNameLoop attrs None
           end) ;;
   match find (fun item =>
                 formatModelName ext (model_name item)
                 =? formatModelName ext (fieldType field))
              (modelsOf (list_ schema)) with
   | None =>
       log (LogError (modelNotFoundMessage field)) ;;;
       throw (Error (modelNotFoundMessage field))
   | Some remoteModel =>
       let remoteModelFields := fieldsOf (properties remoteModel) in
       match namedRelation relationAttributeName with
       | Some name =>
           remoteField <-
             lift (findR (carriesRelationNamed name) remoteModelFields) ;;
           ret (mkRemote remoteModel remoteField)
       | None => implicitRemoteField ext remoteModel model
       end
   end)%m.

(* ------------------------------------------------------------------ *)
(** ** Conversion section: one builder per data type *)

Definition withProperties (entityField : EntityField) (properties : Properties)
  : EntityField :=
  {| ef_name := ef_name entityField;
     ef_displayName := ef_displayName entityField;
     ef_dataType := ef_dataType entityField;
     ef_required := ef_required entityField;
     ef_unique := ef_unique entityField;
     ef_searchable := ef_searchable entityField;
     ef_description := ef_description entityField;
     ef_properties := properties;
     ef_customAttributes := ef_customAttributes entityField;
     ef_relatedFieldName := ef_relatedFieldName entityField;
     ef_relatedFieldDisplayName := ef_relatedFieldDisplayName entityField;
     ef_relatedFieldAllowMultipleSelection :=
       ef_relatedFieldAllowMultipleSelection entityField |}.

Definition withRelatedField (entityField : EntityField) (name displayName : string)
  (allowMultipleSelection : bool) : EntityField :=
  {| ef_name := ef_name entityField;
     ef_displayName := ef_displayName entityField;
     ef_dataType := ef_dataType entityField;
     ef_required := ef_required entityField;
     ef_unique := ef_unique entityField;
     ef_searchable := ef_searchable entityField;
     ef_description := ef_description entityField;
     ef_properties := ef_properties entityField;
     ef_customAttributes := ef_customAttributes entityField;
     ef_relatedFieldName := Some name;
     ef_relatedFieldDisplayName := Some displayName;
     ef_relatedFieldAllowMultipleSelection := Some allowMultipleSelection |}.

(** [entity.fields.push(entityField)] on an entity of the list. *)
Definition pushTo (entity : Entity) (entityField : EntityField) : Entity :=
  {| e_id := e_id entity;
     e_name := e_name entity;
     e_displayName := e_displayName entity;
     e_pluralDisplayName := e_pluralDisplayName entity;
     e_description := e_description entity;
     e_customAttributes := e_customAttributes entity;
     e_fields := e_fields entity ++ [entityField] |}.

(** [preparedEntities.find((entity) => entity.name === name)] followed by a
    push to the entity found: the first entity of that name changes in place. *)
Fixpoint pushField (name : string) (entityField : EntityField)
  (preparedEntities : list Entity) : list Entity :=
  match preparedEntities with
  | [] => []
  | entity :: rest =>
      if e_name entity =? name
      then pushTo entity entityField :: rest
      else entity :: pushField name entityField rest
  end.

Definition findEntity (name : string) (preparedEntities : list Entity) : option Entity :=
  find (fun entity => e_name entity =? name) preparedEntities.

Definition entityNotFoundMessage (model : Model) : string :=
  "Entity " ++ model_name model ++ " not found".

(** The guard every builder starts with. *)
Definition requireEntity (model : Model) (preparedEntities : list Entity) : M unit :=
  match findEntity (model_name model) preparedEntities with
  | Some _ => ret tt
  | None =>
      (log (LogError (entityNotFoundMessage model)) ;;;
       throw (Error (entityNotFoundMessage model)))%m
  end.

Section Conversion.
Variable ext : Externals.
Variable schema : Schema.
Variable model : Model.
Variable field : Field.
Variable preparedEntities : list Entity.

(** The builders that add the common properties and nothing else. *)
Definition convertCommon (dataType : EnumDataType) : M (list Entity) :=
  (requireEntity model preparedEntities ;;;
   let entityField := createOneEntityFieldCommonProperties ext field dataType in
   ret (pushField (model_name model) entityField preparedEntities))%m.

(** The builders that also set [properties]. *)
Definition convertWith (dataType : EnumDataType) (properties : Properties)
  : M (list Entity) :=
  (requireEntity model preparedEntities ;;;
   let entityField := createOneEntityFieldCommonProperties ext field dataType in
   let entityField := withProperties entityField properties in
   ret (pushField (model_name model) entityField preparedEntities))%m.

Definition convertPrismaBooleanToEntityField : M (list Entity) :=
  convertCommon Boolean.

Definition convertPrismaCreatedAtToEntityField : M (list Entity) :=
  convertCommon CreatedAt.

Definition convertPrismaUpdatedAtToEntityField : M (list Entity) :=
  convertCommon UpdatedAt.

Definition convertPrismaDateTimeToEntityField : M (list Entity) :=
  convertWith DateTime (DateTimeProps "localTime" false).

Definition convertPrismaDecimalNumberToEntityField : M (list Entity) :=
  convertWith DecimalNumber (DecimalNumberProps 0 99999999999 8).

Definition convertPrismaWholeNumberToEntityField : M (list Entity) :=
  convertWith WholeNumber (WholeNumberProps 0 99999999999).

Definition convertPrismaSingleLineTextToEntityField : M (list Entity) :=
  convertWith SingleLineText (SingleLineTextProps 256).

Definition convertPrismaJsonToEntityField : M (list Entity) :=
  convertCommon Json.

(** [(defaultIdAttribute.args[0].value as Func).name || "cuid"] *)
Definition idTypeName (arg : AttributeArgument) : string :=
  match funcName (arg_value arg) with
  | Some name => if truthy name then name else "cuid"
  | None => "cuid"
  end.

Definition convertPrismaIdToEntityField : M (list Entity) :=
  (requireEntity model preparedEntities ;;;
   let entityField := createOneEntityFieldCommonProperties ext field Id in
   let defaultIdAttribute := findAttribute "default" field in
   entityField <-
     match defaultIdAttribute with
     | None =>
         ret (withProperties entityField
                (IdProps (idTypePropertyMapByFieldType ext (fieldType field))))
     | Some attribute =>
         match attr_args attribute with
         | None => ret entityField
         | Some [] => throw (undefinedRead "value")
         | Some (arg :: _) =>
             ret (withProperties entityField
                    (IdProps (idTypePropertyMap ext (idTypeName arg))))
         end
     end ;;
   ret (pushField (model_name model) entityField preparedEntities))%m.

Definition enumNotFoundMessage : string :=
  "Enum " ++ field_name field ++ " not found".

(** [enumOfTheField.enumerators.map(...)], over every entry of the array. *)
Definition enumOptions (enumOfTheField : Enum) : list OptionItem :=
  map (fun enumerator =>
         {| label := entryName enumerator;
            value := entryName enumerator |})
      (enumerators enumOfTheField).

Definition convertPrismaOptionSetToEntityField : M (list Entity) :=
  (requireEntity model preparedEntities ;;;
   let entityField := createOneEntityFieldCommonProperties ext field OptionSet in
   let enums := enumsOf (list_ schema) in
   match find (fun item =>
                 formatModelName ext (enum_name item)
                 =? formatModelName ext (fieldType field)) enums with
   | None =>
       log (LogError enumNotFoundMessage) ;;;
       throw (Error enumNotFoundMessage)
   | Some enumOfTheField =>
       let entityField :=
         withProperties entityField (OptionSetProps (enumOptions enumOfTheField)) in
       ret (pushField (model_name model) entityField preparedEntities)
   end)%m.

Definition convertPrismaMultiSelectOptionSetToEntityField : M (list Entity) :=
  (requireEntity model preparedEntities ;;;
   let entityField :=
     createOneEntityFieldCommonProperties ext field MultiSelectOptionSet in
   let enums := enumsOf (list_ schema) in
   match find (fun item => enum_name item =? field_name field) enums with
   | None =>
       log (LogError enumNotFoundMessage) ;;;
       throw (Error enumNotFoundMessage)
   | Some enumOfTheField =>
       let entityField :=
         withProperties entityField (OptionSetProps (enumOptions enumOfTheField)) in
       ret (pushField (model_name model) entityField preparedEntities)
   end)%m.

Definition convertPrismaLookupToEntityField : M (list Entity) :=
  (requireEntity model preparedEntities ;;;
   let entityField := createOneEntityFieldCommonProperties ext field Lookup in
   remoteModelAndField <- findRemoteRelatedModelAndField ext schema model field ;;
   match remoteField remoteModelAndField with
   | None => throw (undefinedRead "name")
   | Some remoteField =>
       let relatedField :=
         createOneEntityFieldCommonProperties ext remoteField Lookup in
       let entityField :=
         withRelatedField entityField (ef_name relatedField)
           (ef_displayName relatedField) (orFalse (array remoteField)) in
       match findEntity (model_name (remoteModel remoteModelAndField))
               preparedEntities with
       | None => throw (undefinedRead "id")
       | Some relatedEntity =>
           let entityField :=
             withProperties entityField
               (LookupProps (e_id relatedEntity) (orFalse (array field))) in
           ret (pushField (model_name model) entityField preparedEntities)
       end
   end)%m.

End Conversion.

(* ------------------------------------------------------------------ *)
(** ** convertPreparedSchemaForImportObjects *)

(** A [for ... of] loop whose body may log and throw. *)
Fixpoint forEachM {A B} (body : A -> B -> M A) (items : list B) (acc : A) : M A :=
  match items with
  | [] => ret acc
  | item :: rest => (acc' <- body acc item ;; forEachM body rest acc')%m
  end.

(** [modelList.map((model) => this.prepareEntity(model))]; [cuid n] is the
    token the [n]-th call of [cuid()] returns in this run. *)
Fixpoint prepareEntities (ext : Externals) (cuid : nat -> string) (n : nat)
  (modelList : list Model) : list Entity :=
  match modelList with
  | [] => []
  | model :: rest =>
      prepareEntity ext (cuid n) model :: prepareEntities ext cuid (S n) rest
  end.

Section Walk.
Variable ext : Externals.
Variable schema : Schema.
Variable model : Model.
Variable field : Field.

(** [if (this.is<DataType>Field(schema, field)) { this.convert...(...) }] *)
Definition whenDataType (dataType : EnumDataType)
  (convert : list Entity -> M (list Entity)) (preparedEntities : list Entity)
  : M (list Entity) :=
  (matches <- lift (isDataType ext schema field dataType) ;;
   if matches then convert preparedEntities else ret preparedEntities)%m.

Definition skipContext : list (string * string) :=
  [("fieldName", field_name field); ("modelName", model_name model)].

(** The body of the inner loop. *)
Definition convertField (preparedEntities : list Entity) : M (list Entity) :=
  (isFk <- isFkFieldOfARelation schema model field ;;
   if isFk then
     log (LogInfo "FK field of a relation. Skip field creation" skipContext) ;;;
     ret preparedEntities
   else
     isNotAnnotated <- lift (isNotAnnotatedRelationField ext schema field) ;;
     if isNotAnnotated then
       log (LogInfo "Not annotated relation field. Skip field creation" skipContext) ;;;
       ret preparedEntities
     else
       es <- whenDataType Boolean
               (convertPrismaBooleanToEntityField ext model field) preparedEntities ;;
       es <- whenDataType CreatedAt
               (convertPrismaCreatedAtToEntityField ext model field) es ;;
       es <- whenDataType UpdatedAt
               (convertPrismaUpdatedAtToEntityField ext model field) es ;;
       es <- whenDataType DateTime
               (convertPrismaDateTimeToEntityField ext model field) es ;;
       es <- whenDataType DecimalNumber
               (convertPrismaDecimalNumberToEntityField ext model field) es ;;
       es <- whenDataType WholeNumber
               (convertPrismaWholeNumberToEntityField ext model field) es ;;
       es <- whenDataType SingleLineText
               (convertPrismaSingleLineTextToEntityField ext model field) es ;;
       es <- whenDataType Json
               (convertPrismaJsonToEntityField ext model field) es ;;
       es <- whenDataType Id
               (convertPrismaIdToEntityField ext model field) es ;;
       es <- whenDataType OptionSet
               (convertPrismaOptionSetToEntityField ext schema model field) es ;;
       es <- whenDataType MultiSelectOptionSet
               (convertPrismaMultiSelectOptionSetToEntityField ext schema model field) es ;;
       whenDataType Lookup
         (convertPrismaLookupToEntityField ext schema model field) es)%m.

End Walk.

Definition convertModel (ext : Externals) (schema : Schema)
  (preparedEntities : list Entity) (model : Model) : M (list Entity) :=
  let modelFields := fieldsOf (properties model) in
  forEachM (fun es field => convertField ext schema model field es)
    modelFields preparedEntities.

Definition convertPreparedSchemaForImportObjects (ext : Externals)
  (cuid : nat -> string) (schema : Schema) : M (list Entity) :=
  let modelList := modelsOf (list_ schema) in
  let preparedEntities := prepareEntities ext cuid 0 modelList in
  forEachM (convertModel ext schema) modelList preparedEntities.

(* ------------------------------------------------------------------ *)
(** ** The schema builder (ConcretePrismaSchemaBuilder of @mrleebo/prisma-ast)

    The builder edits one schema in place.  [model(name)] and [field(name)]
    select the last block, or field, of that name and create it when there is
    none; [attribute] sets the arguments of the field's last attribute of that
    name, adding the attribute when there is none; [blockAttribute] adds an
    attribute to the model; [then] hands the selected object to a callback.
    The subject is kept as a position, so that an edit made through the builder
    is seen by every later read of the schema. *)

Inductive Subject : Type :=
| NoSubject
| ModelSubject (i : nat)
| FieldSubject (i j : nat).

Record Builder : Type := mkBuilder {
  b_schema : Schema;
  b_subject : Subject
}.

(** The position of the last element that satisfies [p], counted from [i]. *)
Fixpoint lastIndexFrom {A} (p : A -> bool) (l : list A) (i : nat) : option nat :=
  match l with
  | [] => None
  | x :: rest =>
      match lastIndexFrom p rest (S i) with
      | Some k => Some k
      | None => if p x then Some i else None
      end
  end.

Fixpoint updateAt {A} (i : nat) (f : A -> A) (l : list A) : list A :=
  match l, i with
  | [], _ => []
  | x :: rest, O => f x :: rest
  | x :: rest, S k => x :: updateAt k f rest
  end.

Definition isModelNamed (name : string) (block : Block) : bool :=
  match block with
  | BModel m => model_name m =? name
  | _ => false
  end.

Definition isFieldNamed (name : string) (property : Property) : bool :=
  match property with
  | PField f => field_name f =? name
  | _ => false
  end.

Definition onModel (f : Model -> Model) (block : Block) : Block :=
  match block with
  | BModel m => BModel (f m)
  | other => other
  end.

Definition onField (f : Field -> Field) (property : Property) : Property :=
  match property with
  | PField fd => PField (f fd)
  | other => other
  end.

Definition setProperties (props : list Property) (m : Model) : Model :=
  {| model_name := model_name m; properties := props |}.

Definition setModelName (name : string) (m : Model) : Model :=
  {| model_name := name; properties := properties m |}.

Definition setFieldName (name : string) (f : Field) : Field :=
  {| field_name := name; fieldType := fieldType f; array := array f;
     optional := optional f; attributes := attributes f |}.

Definition setFieldType (type : string) (f : Field) : Field :=
  {| field_name := field_name f; fieldType := type; array := array f;
     optional := optional f; attributes := attributes f |}.

Definition setAttributes (attrs : list Attribute) (f : Field) : Field :=
  {| field_name := field_name f; fieldType := fieldType f; array := array f;
     optional := optional f; attributes := Some attrs |}.

Definition modelAt (schema : Schema) (i : nat) : option Model :=
  match nth_error (list_ schema) i with
  | Some (BModel m) => Some m
  | _ => None
  end.

Definition fieldAt (schema : Schema) (i j : nat) : option Field :=
  match modelAt schema i with
  | Some m =>
      match nth_error (properties m) j with
      | Some (PField f) => Some f
      | _ => None
      end
  | None => None
  end.

Definition editModel (i : nat) (f : Model -> Model) (schema : Schema) : Schema :=
  mkSchema (updateAt i (onModel f) (list_ schema)).

Definition editField (i j : nat) (f : Field -> Field) (schema : Schema) : Schema :=
  editModel i (fun m => setProperties (updateAt j (onField f) (properties m)) m) schema.

Module BuilderOps.

Definition model (name : string) (b : Builder) : Builder :=
  let blocks := list_ (b_schema b) in
  match lastIndexFrom (isModelNamed name) blocks 0 with
  | Some i => mkBuilder (b_schema b) (ModelSubject i)
  | None =>
      mkBuilder (mkSchema (blocks ++ [BModel (mkModel name [])]))
        (ModelSubject (List.length blocks))
  end.

Definition field (name : string) (b : Builder) : Builder :=
  match b_subject b with
  | ModelSubject i =>
      match modelAt (b_schema b) i with
      | Some m =>
          match lastIndexFrom (isFieldNamed name) (properties m) 0 with
          | Some j => mkBuilder (b_schema b) (FieldSubject i j)
          | None =>
              let created := PField (mkField name "String" None None None) in
              mkBuilder
                (editModel i (fun m => setProperties (properties m ++ [created]) m)
                   (b_schema b))
                (FieldSubject i (List.length (properties m)))
          end
      | None => b
      end
  | _ => b
  end.

(** [attribute(name, args)] with a list of argument values. *)
Definition setAttribute (name : string) (args : list Value) (f : Field) : Field :=
  let attrs := match attributes f with Some l => l | None => [] end in
  let newArgs := Some (map mkArg args) in
  match lastIndexFrom (fun a => attr_name a =? name) attrs 0 with
  | Some k =>
      setAttributes
        (updateAt k (fun a => mkAttribute (attr_kind a) (attr_name a) newArgs) attrs) f
  | None => setAttributes (attrs ++ [mkAttribute "field" name newArgs]) f
  end.

Definition attribute (name : string) (args : list Value) (b : Builder) : Builder :=
  match b_subject b with
  | FieldSubject i j =>
      mkBuilder (editField i j (setAttribute name args) (b_schema b)) (b_subject b)
  | _ => b
  end.

(** The kind the builder gives a block attribute. *)
Definition BLOCK_ATTRIBUTE_KIND : string := "object".

(** [blockAttribute(name, arg)] with one string argument, which is quoted. *)
Definition blockAttribute (name : string) (arg : string) (b : Builder) : Builder :=
  let added :=
    PAttribute (mkAttribute BLOCK_ATTRIBUTE_KIND name
                  (Some [mkArg (VString (quoted arg))])) in
  match b_subject b with
  | ModelSubject i | FieldSubject i _ =>
      mkBuilder
        (editModel i (fun m => setProperties (properties m ++ [added]) m) (b_schema b))
        (b_subject b)
  | NoSubject => b
  end.

(** [then<Model>(callback)] and [then<Field>(callback)] *)
Definition thenModel (callback : Model -> Model) (b : Builder) : Builder :=
  match b_subject b with
  | ModelSubject i => mkBuilder (editModel i callback (b_schema b)) (b_subject b)
  | _ => b
  end.

Definition thenField (callback : Field -> Field) (b : Builder) : Builder :=
  match b_subject b with
  | FieldSubject i j => mkBuilder (editField i j callback (b_schema b)) (b_subject b)
  | _ => b
  end.

End BuilderOps.

(* ------------------------------------------------------------------ *)
(** ** Operations section: the four passes of processSchema *)

(** [name.includes("_")] *)
Fixpoint includesUnderscore (s : string) : bool :=
  match s with
  | EmptyString => false
  | String c rest => (Ascii.eqb c "_"%char) || includesUnderscore rest
  end.

(** [/^[A-Z]/.test(name)] *)
Definition startsWithCapital (s : string) : bool :=
  match s with
  | EmptyString => false
  | String c _ => Nat.leb 65 (nat_of_ascii c) && Nat.leb (nat_of_ascii c) 90
  end.

(** The positions of the properties [p] keeps: the snapshot a [filter] takes
    before the loop over it starts. *)
Fixpoint positionsFrom {A} (p : A -> bool) (l : list A) (i : nat) : list nat :=
  match l with
  | [] => []
  | x :: rest =>
      if p x then i :: positionsFrom p rest (S i) else positionsFrom p rest (S i)
  end.

Definition isField (property : Property) : bool :=
  match property with
  | PField _ => true
  | _ => false
  end.

Definition isModel (block : Block) : bool :=
  match block with
  | BModel _ => true
  | _ => false
  end.

Section Operations.
Variable ext : Externals.

Definition isInvalidModelName (name : string) : bool :=
  isPlural ext name
  || includesUnderscore name
  || negb (startsWithCapital name)
  || isReservedName ext (trim ext (toLowerCase ext name)).

Definition renameModel (builder : Builder) (i : nat) : Builder :=
  match modelAt (b_schema builder) i with
  | None => builder
  | Some model =>
      if isInvalidModelName (model_name model) then
        let builder :=
          BuilderOps.blockAttribute "map" (model_name model)
            (BuilderOps.model (model_name model) builder) in
        BuilderOps.thenModel
          (fun model => setModelName (formatModelName ext (model_name model)) model)
          (BuilderOps.model (model_name model) builder)
      else builder
  end.

Definition handleModelNamesRenaming (builder : Builder) : M Builder :=
  let models := positionsFrom isModel (list_ (b_schema builder)) 0 in
  ret (fold_left renameModel models builder).

Definition isInvalidFieldName (name : string) : bool :=
  includesUnderscore name || isReservedName ext (trim ext (toLowerCase ext name)).

(** [resolveFieldDataType(...) === OptionSet || resolveFieldDataType(...) === MultiSelectOptionSet] *)
Definition isEnumFieldType (schema : Schema) (field : Field) : result bool :=
  rbind (isDataType ext schema field OptionSet) (fun isOptionSet =>
    if isOptionSet then Ok true
    else isDataType ext schema field MultiSelectOptionSet).

Definition renameField (i : nat) (builder : Builder) (j : nat) : M Builder :=
  let schema := b_schema builder in
  match modelAt schema i, fieldAt schema i j with
  | Some model, Some field =>
      (isFkHolder <- isFkFieldOfARelation schema model field ;;
       enumFieldType <- lift (isEnumFieldType schema field) ;;
       if isInvalidFieldName (field_name field) && negb enumFieldType && negb isFkHolder
       then
         let builder :=
           BuilderOps.attribute "map" [VString (quoted (field_name field))]
             (BuilderOps.field (field_name field)
                (BuilderOps.model (model_name model) builder)) in
         ret (BuilderOps.thenField
                (fun field => setFieldName (formatFieldName ext (field_name field)) field)
                (BuilderOps.field (field_name field)
                   (BuilderOps.model (model_name model) builder)))
       else ret builder)%m
  | _, _ => ret builder
  end.

Definition isFieldWithoutId (property : Property) : bool :=
  match property with
  | PField f => negb (hasAttribute ID_ATTRIBUTE_NAME f)
  | _ => false
  end.

Definition renameFieldsOfModel (builder : Builder) (i : nat) : M Builder :=
  match modelAt (b_schema builder) i with
  | None => ret builder
  | Some model =>
      let fields := positionsFrom isFieldWithoutId (properties model) 0 in
      forEachM (renameField i) fields builder
  end.

Definition handleFieldNamesRenaming (builder : Builder) : M Builder :=
  let models := positionsFrom isModel (list_ (b_schema builder)) 0 in
  forEachM renameFieldsOfModel models builder.

(** [a || b || ...] over calls that may throw. *)
Fixpoint anyDataType (schema : Schema) (field : Field) (dataTypes : list EnumDataType)
  : result bool :=
  match dataTypes with
  | [] => Ok false
  | dataType :: rest =>
      rbind (isDataType ext schema field dataType) (fun matches =>
        if matches then Ok true else anyDataType schema field rest)
  end.

Definition renameFieldType (i : nat) (builder : Builder) (j : nat) : M Builder :=
  let schema := b_schema builder in
  match modelAt schema i, fieldAt schema i j with
  | Some model, Some field =>
      (enumFieldType <-
         lift (anyDataType schema field [OptionSet; MultiSelectOptionSet]) ;;
       isScalarFieldType <-
         lift (anyDataType schema field
                 [SingleLineText; WholeNumber; DecimalNumber; Boolean; DateTime; Json]) ;;
       if negb enumFieldType && negb isScalarFieldType then
         ret (BuilderOps.thenField
                (fun field => setFieldType (formatModelName ext (fieldType field)) field)
                (BuilderOps.field (field_name field)
                   (BuilderOps.model (model_name model) builder)))
       else ret builder)%m
  | _, _ => ret builder
  end.

Definition renameFieldTypesOfModel (builder : Builder) (i : nat) : M Builder :=
  match modelAt (b_schema builder) i with
  | None => ret builder
  | Some model =>
      let fields := positionsFrom isField (properties model) 0 in
      forEachM (renameFieldType i) fields builder
  end.

Definition handleFieldTypesRenaming (builder : Builder) : M Builder :=
  let models := positionsFrom isModel (list_ (b_schema builder)) 0 in
  forEachM renameFieldTypesOfModel models builder.

Definition normalizeIdField (i : nat) (builder : Builder) (j : nat) : Builder :=
  let schema := b_schema builder in
  match modelAt schema i, fieldAt schema i j with
  | Some model, Some field =>
      let isIdField := hasAttribute ID_ATTRIBUTE_NAME field in
      if negb isIdField && (field_name field =? ID_FIELD_NAME) then
        let builder :=
          BuilderOps.attribute "map" [VString (quoted (model_name model ++ "Id"))]
            (BuilderOps.field (field_name field)
               (BuilderOps.model (model_name model) builder)) in
        BuilderOps.thenField
          (fun field => setFieldName (model_name model ++ "Id") field)
          (BuilderOps.field (field_name field)
             (BuilderOps.model (model_name model) builder))
      else if isIdField && negb (field_name field =? ID_FIELD_NAME) then
        let builder :=
          BuilderOps.attribute "map" [VString (quoted (field_name field))]
            (BuilderOps.field (field_name field)
               (BuilderOps.model (model_name model) builder)) in
        BuilderOps.thenField
          (fun field => setFieldName ID_FIELD_NAME field)
          (BuilderOps.field (field_name field)
             (BuilderOps.model (model_name model) builder))
      else builder
  | _, _ => builder
  end.

Definition normalizeIdFieldsOfModel (builder : Builder) (i : nat) : Builder :=
  match modelAt (b_schema builder) i with
  | None => builder
  | Some model =>
      let modelFields := positionsFrom isField (properties model) 0 in
      fold_left (normalizeIdField i) modelFields builder
  end.

Definition handleIdField (builder : Builder) : M Builder :=
  let models := positionsFrom isModel (list_ (b_schema builder)) 0 in
  ret (fold_left normalizeIdFieldsOfModel models builder).

Definition operations : list (Builder -> M Builder) :=
  [ handleModelNamesRenaming;
    handleFieldNamesRenaming;
    handleFieldTypesRenaming;
    handleIdField ].

Definition processSchema (operations : list (Builder -> M Builder))
  (inputSchema : string) : M Schema :=
  (parsed <- lift (getSchema ext inputSchema) ;;
   builder <- forEachM (fun builder operation => operation builder)
                operations (mkBuilder parsed NoSubject) ;;
   ret (b_schema builder))%m.

Definition convertPrismaSchemaForImportObjects (cuid : nat -> string)
  (schema : string) : M (list Entity) :=
  (preparedSchema <- processSchema operations schema ;;
   convertPreparedSchemaForImportObjects ext cuid preparedSchema)%m.

End Operations.

(* ------------------------------------------------------------------ *)
(** ** Vocabulary of the design document *)

(** The field carries an attribute of that name. *)
Definition carries (name : string) (field : Field) : Prop :=
  exists attrs attr,
    attributes field = Some attrs /\ In attr attrs /\ attr_name attr = name.

(** [attr] is the field's attribute of that name (the first one, should the
    name be repeated). *)
Definition firstCarried (name : string) (field : Field) (attr : Attribute) : Prop :=
  exists before after,
    attributes field = Some (before ++ attr :: after)
    /\ attr_name attr = name
    /\ Forall (fun a => attr_name a <> name) before.

(** The schema declares an Enumeration of that name. *)
Definition declaresEnum (schema : Schema) (name : string) : Prop :=
  exists e, In (BEnum e) (list_ schema) /\ enum_name e = name.

(** The type matches a declared Record-Type by canonical name. *)
Definition matchesRecordType (ext : Externals) (schema : Schema) (type : string) : Prop :=
  exists m, In (BModel m) (list_ schema)
            /\ formatModelName ext (model_name m) = formatModelName ext type.

(** The attribute has an argument that is the function-call marker [now]. *)
Definition hasNowArgument (attr : Attribute) : Prop :=
  exists args arg params,
    attr_args attr = Some args /\ In arg args /\ arg_value arg = VFunc "now" params.


(** The eight predicates of the classifier all decline the field. *)
Definition noPredicateMatches (ext : Externals) (schema : Schema) (field : Field) : Prop :=
  idType field tt = Ok None
  /\ lookupRelationType field tt = Ok None
  /\ lookupModelType ext schema field tt = Ok None
  /\ optionSetType schema field tt = Ok None
  /\ multiSelectOptionSetType schema field tt = Ok None
  /\ createAtType field tt = Ok None
  /\ updatedAtType field tt = Ok None
  /\ scalarType field tt = Ok None.

(** The field carries a relation attribute whose "fields" argument (the
    owning-side columns) lists [name]. *)
Definition listsAsOwningColumn (name : string) (modelField : Field) : Prop :=
  exists attrs attr args arg columns,
    attributes modelField = Some attrs /\ In attr attrs
    /\ attr_name attr = "relation"
    /\ attr_args attr = Some args /\ In arg args
    /\ arg_value arg = VKeyValue "fields" (VArray columns)
    /\ In name columns.

(** Exactly one element of the list satisfies [P]; more than one does. *)
Definition ExactlyOne {A} (P : A -> Prop) (l : list A) : Prop :=
  exists before x after,
    l = before ++ x :: after /\ P x
    /\ Forall (fun a => ~ P a) before /\ Forall (fun a => ~ P a) after.

Definition MoreThanOne {A} (P : A -> Prop) (l : list A) : Prop :=
  exists l1 x l2 y l3, l = l1 ++ x :: l2 ++ y :: l3 /\ P x /\ P y.

(** What the parser gives for a relation attribute: an argument list, in
    which a "fields" argument holds an array. *)
Definition wellFormedAttribute (attr : Attribute) : Prop :=
  attr_name attr = "relation" ->
  exists args,
    attr_args attr = Some args
    /\ forall arg value,
         In arg args -> arg_value arg = VKeyValue "fields" value ->
         exists columns, value = VArray columns.

Definition wellFormedField (field : Field) : Prop :=
  forall attrs attr,
    attributes field = Some attrs -> In attr attrs -> wellFormedAttribute attr.

Definition wellFormedModel (model : Model) : Prop :=
  forall field, In field (fieldsOf (properties model)) -> wellFormedField field.

(** The boolean reading of the callbacks of [isFkFieldOfARelation], for
    attributes on which they do not throw. *)
Definition fieldsArgListsB (name : string) (arg : AttributeArgument) : bool :=
  match arg_value arg with
  | VKeyValue key (VArray columns) =>
      (key =? "fields") && existsb (fun argName => argName =? name) columns
  | _ => false
  end.

Definition relationListsFkB (name : string) (attr : Attribute) : bool :=
  (attr_name attr =? "relation")
  && match attr_args attr with
     | Some args => existsb (fieldsArgListsB name) args
     | None => false
     end.

Definition referencesAsFkB (name : string) (modelField : Field) : bool :=
  match attributes modelField with
  | Some attrs => existsb (relationListsFkB name) attrs
  | None => false
  end.

(** The field carries a relation attribute with a string argument (the
    relation name, written first and without a key). *)
Definition carriesNamedRelation (field : Field) : Prop :=
  exists attrs attr args arg s,
    attributes field = Some attrs /\ In attr attrs
    /\ attr_name attr = "relation"
    /\ attr_args attr = Some args /\ In arg args
    /\ arg_value arg = VString s.

(** The type matches a declared Record-Type the way
    [isNotAnnotatedRelationField] compares them. *)
Definition matchesRecordTypeAsField (ext : Externals) (schema : Schema)
  (type : string) : Prop :=
  exists m, In (BModel m) (list_ schema)
            /\ formatModelName ext (model_name m) = formatFieldName ext type.


(** The descriptor was built from a field of the Record-Type [model] of the
    schema: it has the field's name, and its [required] is the field's
    [optional] flag. *)
Definition builtFrom (schema : Schema) (modelName : string) (descriptor : EntityField)
  : Prop :=
  exists model field,
    In (BModel model) (list_ schema)
    /\ In (PField field) (properties model)
    /\ model_name model = modelName
    /\ ef_name descriptor = field_name field
    /\ ef_required descriptor = orFalse (optional field).

(** Every descriptor of every entity was built from a field of the Record-Type
    the entity is named after. *)
Definition allBuiltFrom (schema : Schema) (entities : list Entity) : Prop :=
  forall entity descriptor,
    In entity entities -> In descriptor (e_fields entity) ->
    builtFrom schema (e_name entity) descriptor.

(** A builder pushed one descriptor of the field to the entity of the model. *)
Definition pushesField (model : Model) (field : Field) (es es' : list Entity) : Prop :=
  exists descriptor,
    es' = pushField (model_name model) descriptor es
    /\ ef_name descriptor = field_name field
    /\ ef_required descriptor = orFalse (optional field).

(** A result with its generated identifiers blanked: the [id] of every
    entity, and the [relatedEntityId] of every Lookup descriptor, which is the
    [id] of another entity of the same result. *)
Definition eraseProperties (props : Properties) : Properties :=
  match props with
  | LookupProps _ allowMultipleSelection => LookupProps EmptyString allowMultipleSelection
  | other => other
  end.

Definition eraseDescriptor (descriptor : EntityField) : EntityField :=
  withProperties descriptor (eraseProperties (ef_properties descriptor)).

Definition eraseEntity (entity : Entity) : Entity :=
  {| e_id := EmptyString;
     e_name := e_name entity;
     e_displayName := e_displayName entity;
     e_pluralDisplayName := e_pluralDisplayName entity;
     e_description := e_description entity;
     e_customAttributes := e_customAttributes entity;
     e_fields := map eraseDescriptor (e_fields entity) |}.

(** A run of the conversion, identifiers blanked: what it logged, and the
    entities it returned or the exception it threw. *)
Definition eraseRun (run : M (list Entity)) : M (list Entity) :=
  (fst run,
   match snd run with
   | Ok entities => Ok (map eraseEntity entities)
   | Throw e => Throw e
   end).

(** Two lists of prepared entities that differ in identifiers only. *)
Definition sameButIds (es1 es2 : list Entity) : Prop :=
  map eraseEntity es1 = map eraseEntity es2.

(** A step of the conversion that treats such lists alike. *)
Definition respectsIds (step : list Entity -> M (list Entity)) : Prop :=
  forall es1 es2, sameButIds es1 es2 -> eraseRun (step es1) = eraseRun (step es2).



(* ------------------------------------------------------------------ *)
(** ** Worked schemas *)

Module Sample.

(** Collaborators under which every name below is already in canonical form. *)
Definition plain : Externals :=
  {| formatModelName := fun s => s;
     formatFieldName := fun s => s;
     formatDisplayName := fun s => s;
     pluralize := fun s => (s ++ "s")%string;
     isPlural := fun _ => false;
     isReservedName := fun _ => false;
     toLowerCase := fun s => s;
     trim := fun s => s;
     filterOutAmplicationAttributes := fun l => l;
     idTypePropertyMap := fun s => Some s;
     idTypePropertyMapByFieldType := fun s => Some s;
     valueToString := fun _ => "[object Object]";
     getSchema := fun _ => Ok (mkSchema []) |}.

Definition bare (name : string) : Attribute := mkAttribute "field" name None.

Definition withArgs (name : string) (args : list Value) : Attribute :=
  mkAttribute "field" name (Some (map mkArg args)).

(** [enum Status { Active Inactive }] *)
Definition Status : Enum :=
  mkEnum "Status"
    [EEnumerator (mkEnumerator "Active"); EEnumerator (mkEnumerator "Inactive")].

(** [status Status] *)
Definition status : Field := mkField "status" "Status" None None None.

(** [code Status @id] *)
Definition code : Field := mkField "code" "Status" None None (Some [bare "id"]).

(** [history Status[]] *)
Definition history : Field := mkField "history" "Status" (Some true) None None.

(** [model Task { code Status @id  status Status  history Status[] }] *)
Definition Task : Model := mkModel "Task" [PField code; PField status; PField history].

Definition taskSchema : Schema := mkSchema [BEnum Status; BModel Task].

(** The Enumeration alone: with no Record-Type declared, the naming utilities
    play no part in the classification. *)
Definition statusSchema : Schema := mkSchema [BEnum Status].

(** [@default(now())] *)
Definition defaultNow : Attribute := withArgs "default" [VFunc "now" []].

(** [createdAt DateTime @default(now())] *)
Definition createdAt : Field :=
  mkField "createdAt" "DateTime" None None (Some [defaultNow]).

(** [id DateTime @id @default(now())] *)
Definition stamp : Field :=
  mkField "id" "DateTime" None None (Some [bare "id"; defaultNow]).

(** [model Event { id DateTime @id @default(now())  createdAt DateTime @default(now()) }] *)
Definition Event : Model := mkModel "Event" [PField stamp; PField createdAt].

Definition eventSchema : Schema := mkSchema [BModel Event].

(** [id Int @id] *)
Definition idInt : Field := mkField "id" "Int" None None (Some [bare "id"]).

(** [@relation(fields: [customerId], references: [id])] *)
Definition customerRelation : Attribute :=
  withArgs "relation"
    [VKeyValue "fields" (VArray ["customerId"]);
     VKeyValue "references" (VArray ["id"])].

(** [customerId Int] and [customer Customer @relation(...)] *)
Definition customerId : Field := mkField "customerId" "Int" None None None.
Definition customer : Field :=
  mkField "customer" "Customer" None None (Some [customerRelation]).

(** [name String] and [orders Order[]] *)
Definition name : Field := mkField "name" "String" None None None.
Definition orders : Field := mkField "orders" "Order" (Some true) None None.

Definition Customer : Model :=
  mkModel "Customer" [PField idInt; PField name; PField orders].

Definition Order : Model :=
  mkModel "Order" [PField idInt; PField customerId; PField customer].

Definition shopSchema : Schema := mkSchema [BModel Customer; BModel Order].

(** The relation name of [@relation("author", ...)], as the parser keeps it. *)
Definition authorName : Value := VString (quoted "author").

(** [posts Post[] @relation("author")] *)
Definition posts : Field :=
  mkField "posts" "Post" (Some true) None (Some [withArgs "relation" [authorName]]).

(** [authorId Int] and
    [author User @relation("author", fields: [authorId], references: [id])] *)
Definition authorId : Field := mkField "authorId" "Int" None None None.
Definition author : Field :=
  mkField "author" "User" None None
    (Some [withArgs "relation"
             [authorName;
              VKeyValue "fields" (VArray ["authorId"]);
              VKeyValue "references" (VArray ["id"])]]).

Definition User : Model := mkModel "User" [PField idInt; PField posts].
Definition Post : Model :=
  mkModel "Post" [PField idInt; PField authorId; PField author].

Definition blogSchema : Schema := mkSchema [BModel User; BModel Post].

(** The same [Post] beside a [User] that has no field for the relation. *)
Definition Reader : Model := mkModel "User" [PField idInt].
Definition orphanSchema : Schema := mkSchema [BModel Reader; BModel Post].

(** A self-relation:
    [teacher Person? @relation("TeacherStudents", fields: [teacherId], references: [id])]
    and [students Person[] @relation("TeacherStudents")]. *)
Definition teacherStudents : Value := VString (quoted "TeacherStudents").
Definition teacherId : Field := mkField "teacherId" "Int" None (Some true) None.
Definition teacher : Field :=
  mkField "teacher" "Person" None (Some true)
    (Some [withArgs "relation"
             [teacherStudents;
              VKeyValue "fields" (VArray ["teacherId"]);
              VKeyValue "references" (VArray ["id"])]]).
Definition students : Field :=
  mkField "students" "Person" (Some true) None
    (Some [withArgs "relation" [teacherStudents]]).

Definition Person : Model :=
  mkModel "Person" [PField idInt; PField teacherId; PField teacher; PField students].

Definition personSchema : Schema := mkSchema [BModel Person].

(** [model Token { id String  value String @id }] *)
Definition tokenId : Field := mkField "id" "String" None None None.
Definition tokenValue : Field := mkField "value" "String" None None (Some [bare "id"]).
Definition Token : Model := mkModel "Token" [PField tokenId; PField tokenValue].
Definition tokenSchema : Schema := mkSchema [BModel Token].

(** The tokens [cuid()] returns in a run. *)
Definition tokens (n : nat) : string :=
  match n with
  | 0 => "ck0"
  | 1 => "ck1"
  | _ => "ck2"
  end.

(** The names of the entities of a result, each with the names of its fields. *)
Definition outline (entities : list Entity) : list (string * list string) :=
  map (fun entity => (e_name entity, map ef_name (e_fields entity))) entities.

(** The fields of [Token] as [handleIdField] leaves them. *)
Definition tokenIdAfter : Field :=
  mkField "TokenId" "String" None None
    (Some [withArgs "map" [VString (quoted "TokenId")]]).
Definition tokenValueAfter : Field :=
  mkField "id" "String" None None
    (Some [bare "id"; withArgs "map" [VString (quoted "value")]]).
Definition tokenSchemaAfter : Schema :=
  mkSchema [BModel (mkModel "Token" [PField tokenIdAfter; PField tokenValueAfter])].

(** The result of a conversion, in outline. *)
Definition outlineOf (run : M (list Entity)) : result (list (string * list string)) :=
  match snd run with
  | Ok entities => Ok (outline entities)
  | Throw e => Throw e
  end.

(** [model Memo { id Int @id  note String? }] *)
Definition note : Field := mkField "note" "String" None (Some true) None.
Definition Memo : Model := mkModel "Memo" [PField idInt; PField note].
Definition memoSchema : Schema := mkSchema [BModel Memo].

(** The descriptors and the entity the conversion builds for [Memo]. *)
Definition idDescriptor : EntityField :=
  withProperties (createOneEntityFieldCommonProperties plain idInt Id)
    (IdProps (Some "Int")).
Definition noteDescriptor : EntityField :=
  withProperties (createOneEntityFieldCommonProperties plain note SingleLineText)
    (SingleLineTextProps 256).
Definition memoEntity : Entity :=
  pushTo (pushTo (prepareEntity plain (tokens 0) Memo) idDescriptor) noteDescriptor.

End Sample.

(* ------------------------------------------------------------------ *)
(** ** Further vocabulary *)

(** The field has a default-value attribute (the first one, should it be
    repeated) with an argument that is the function-call marker [now]. *)
Definition defaultsToNow (field : Field) : Prop :=
  exists attr, firstCarried "default" field attr /\ hasNowArgument attr.

(** None of the first five predicates of the classifier (Id, the two Lookup
    ones, the two option-set ones) matches the field. *)
Definition plainTyped (ext : Externals) (schema : Schema) (field : Field) : Prop :=
  ~ carries ID_ATTRIBUTE_NAME field
  /\ ~ carries "relation" field
  /\ ~ matchesRecordType ext schema (fieldType field)
  /\ ~ declaresEnum schema (fieldType field).

(** The scalar mapping as a table: the category of a built-in type tag. *)
Definition scalarCategory (type : string) : option EnumDataType :=
  if type =? "String" then Some SingleLineText
  else if type =? "Int" then Some WholeNumber
  else if type =? "Float" then Some DecimalNumber
  else if type =? "Boolean" then Some Boolean
  else if type =? "DateTime" then Some DateTime
  else if type =? "Json" then Some Json
  else None.

(** The builder of the conversion section for a category. *)
Definition converterFor (ext : Externals) (schema : Schema) (model : Model)
  (field : Field) (dataType : EnumDataType) : list Entity -> M (list Entity) :=
  match dataType with
  | Boolean => convertPrismaBooleanToEntityField ext model field
  | CreatedAt => convertPrismaCreatedAtToEntityField ext model field
  | UpdatedAt => convertPrismaUpdatedAtToEntityField ext model field
  | DateTime => convertPrismaDateTimeToEntityField ext model field
  | DecimalNumber => convertPrismaDecimalNumberToEntityField ext model field
  | WholeNumber => convertPrismaWholeNumberToEntityField ext model field
  | SingleLineText => convertPrismaSingleLineTextToEntityField ext model field
  | Json => convertPrismaJsonToEntityField ext model field
  | Id => convertPrismaIdToEntityField ext model field
  | OptionSet => convertPrismaOptionSetToEntityField ext schema model field
  | MultiSelectOptionSet =>
      convertPrismaMultiSelectOptionSetToEntityField ext schema model field
  | Lookup => convertPrismaLookupToEntityField ext schema model field
  end.

(** The body of the inner loop with one classification in place of the twelve
    checks: skip the field, or classify it once and call the builder of its
    category. *)
Definition convertClassified (ext : Externals) (schema : Schema) (model : Model)
  (field : Field) (preparedEntities : list Entity) : M (list Entity) :=
  (isFk <- isFkFieldOfARelation schema model field ;;
   if isFk then
     log (LogInfo "FK field of a relation. Skip field creation"
            (skipContext model field)) ;;;
     ret preparedEntities
   else
     isNotAnnotated <- lift (isNotAnnotatedRelationField ext schema field) ;;
     if isNotAnnotated then
       log (LogInfo "Not annotated relation field. Skip field creation"
              (skipContext model field)) ;;;
       ret preparedEntities
     else
       dataType <- lift (resolveFieldDataType ext schema field) ;;
       match dataType with
       | Some category => converterFor ext schema model field category preparedEntities
       | None => ret preparedEntities
       end)%m.

(** An entity without its descriptors: what [prepareEntity] made of the model. *)
Definition withoutFields (entity : Entity) : Entity :=
  {| e_id := e_id entity;
     e_name := e_name entity;
     e_displayName := e_displayName entity;
     e_pluralDisplayName := e_pluralDisplayName entity;
     e_description := e_description entity;
     e_customAttributes := e_customAttributes entity;
     e_fields := [] |}.

(** All the descriptors of a result, and all the fields of a schema. *)
Definition allDescriptors (entities : list Entity) : list EntityField :=
  flat_map e_fields entities.

Definition allFields (schema : Schema) : list Field :=
  flat_map (fun model => fieldsOf (properties model)) (modelsOf (list_ schema)).

(** A descriptor reduced to the members every builder takes from
    [createOneEntityFieldCommonProperties]. *)
Definition commonPart (descriptor : EntityField) : EntityField :=
  {| ef_name := ef_name descriptor;
     ef_displayName := ef_displayName descriptor;
     ef_dataType := ef_dataType descriptor;
     ef_required := ef_required descriptor;
     ef_unique := ef_unique descriptor;
     ef_searchable := ef_searchable descriptor;
     ef_description := ef_description descriptor;
     ef_properties := NoProperties;
     ef_customAttributes := ef_customAttributes descriptor;
     ef_relatedFieldName := None;
     ef_relatedFieldDisplayName := None;
     ef_relatedFieldAllowMultipleSelection := None |}.

(** The option made of one entry of an enum block: label and value are the
    name of an enumerator, the name of a block attribute, and nothing for a
    comment or a line break. *)
Definition optionOf (entry : EnumEntry) : OptionItem :=
  match entry with
  | EEnumerator enumerator =>
      mkOption (Some (enumerator_name enumerator)) (Some (enumerator_name enumerator))
  | EAttribute attribute =>
      mkOption (Some (attr_name attribute)) (Some (attr_name attribute))
  | EComment _ => mkOption None None
  | EBreak => mkOption None None
  end.

(** The options of an Enumeration: one for each entry of the block, an
    enumerator or not, in source order. *)
Definition optionsOf (e : Enum) : list OptionItem := map optionOf (enumerators e).

(** The payload of an Id descriptor: from the type tag when the field has no
    default-value attribute; from the name of the function its first argument
    calls, or from [cuid] when that argument calls none, when the attribute
    has arguments; nothing when the attribute has no argument list. *)
Definition idPayload (ext : Externals) (field : Field) (props : Properties) : Prop :=
  (findAttribute "default" field = None
   /\ props = IdProps (idTypePropertyMapByFieldType ext (fieldType field)))
  \/ (exists attr,
        findAttribute "default" field = Some attr
        /\ ((attr_args attr = None /\ props = NoProperties)
            \/ (exists arg rest name,
                  attr_args attr = Some (arg :: rest)
                  /\ (funcName (arg_value arg) = Some name /\ name <> EmptyString
                      \/ (funcName (arg_value arg) = None
                          \/ funcName (arg_value arg) = Some EmptyString)
                         /\ name = "cuid")
                  /\ props = IdProps (idTypePropertyMap ext name)))).

(** The payload and the pairing of a Lookup descriptor: the remote Record-Type
    matches the field's type by canonical name, the related field is one of
    its fields, and [relatedEntityId] is the id of an entity named after it.
    [owners] are the names and ids of the prepared entities. *)
Definition lookupPairing (ext : Externals) (schema : Schema) (field : Field)
  (owners : list (string * string)) (descriptor : EntityField) : Prop :=
  exists remote related id,
    In (BModel remote) (list_ schema)
    /\ formatModelName ext (model_name remote) = formatModelName ext (fieldType field)
    /\ In (PField related) (properties remote)
    /\ ef_relatedFieldName descriptor = Some (field_name related)
    /\ ef_relatedFieldDisplayName descriptor
       = Some (formatDisplayName ext (field_name related))
    /\ ef_relatedFieldAllowMultipleSelection descriptor = Some (orFalse (array related))
    /\ ef_properties descriptor = LookupProps id (orFalse (array field))
    /\ In (model_name remote, id) owners.

Definition unpaired (descriptor : EntityField) : Prop :=
  ef_relatedFieldName descriptor = None
  /\ ef_relatedFieldDisplayName descriptor = None
  /\ ef_relatedFieldAllowMultipleSelection descriptor = None.

(** The category-specific part of a descriptor. *)
Definition payloadFits (ext : Externals) (schema : Schema) (field : Field)
  (owners : list (string * string)) (descriptor : EntityField) : Prop :=
  match ef_dataType descriptor with
  | SingleLineText =>
      ef_properties descriptor = SingleLineTextProps 256 /\ unpaired descriptor
  | WholeNumber =>
      ef_properties descriptor = WholeNumberProps 0 99999999999 /\ unpaired descriptor
  | DecimalNumber =>
      ef_properties descriptor = DecimalNumberProps 0 99999999999 8
      /\ unpaired descriptor
  | DateTime =>
      ef_properties descriptor = DateTimeProps "localTime" false /\ unpaired descriptor
  | Boolean | Json | CreatedAt | UpdatedAt =>
      ef_properties descriptor = NoProperties /\ unpaired descriptor
  | Id => idPayload ext field (ef_properties descriptor) /\ unpaired descriptor
  | OptionSet =>
      (exists e, In (BEnum e) (list_ schema)
                 /\ formatModelName ext (enum_name e)
                    = formatModelName ext (fieldType field)
                 /\ ef_properties descriptor = OptionSetProps (optionsOf e))
      /\ unpaired descriptor
  | MultiSelectOptionSet =>
      (exists e, In (BEnum e) (list_ schema)
                 /\ enum_name e = field_name field
                 /\ ef_properties descriptor = OptionSetProps (optionsOf e))
      /\ unpaired descriptor
  | Lookup => lookupPairing ext schema field owners descriptor
  end.

(** The names and ids of a list of entities. *)
Definition ownersOf (entities : list Entity) : list (string * string) :=
  map (fun entity => (e_name entity, e_id entity)) entities.

(** The descriptor is the one the builders make of the field. *)
Definition describes (ext : Externals) (schema : Schema) (field : Field)
  (owners : list (string * string)) (descriptor : EntityField) : Prop :=
  commonPart descriptor
  = createOneEntityFieldCommonProperties ext field (ef_dataType descriptor)
  /\ payloadFits ext schema field owners descriptor.

(** The descriptor was emitted for a field of a Record-Type of that name: a
    field the walk does not skip, whose classification is the descriptor's
    dataType, and which the descriptor describes. *)
Definition emittedFrom (ext : Externals) (schema : Schema)
  (owners : list (string * string)) (modelName : string)
  (descriptor : EntityField) : Prop :=
  exists model field,
    In (BModel model) (list_ schema)
    /\ In (PField field) (properties model)
    /\ model_name model = modelName
    /\ snd (isFkFieldOfARelation schema model field) = Ok false
    /\ isNotAnnotatedRelationField ext schema field = Ok false
    /\ resolveFieldDataType ext schema field = Ok (Some (ef_dataType descriptor))
    /\ describes ext schema field owners descriptor.

Definition wellEmitted (ext : Externals) (schema : Schema)
  (owners : list (string * string)) (entities : list Entity) : Prop :=
  forall entity descriptor,
    In entity entities -> In descriptor (e_fields entity) ->
    emittedFrom ext schema owners (e_name entity) descriptor.

(** What the walk keeps true of the prepared entities. *)
Definition walkInvariant (ext : Externals) (schema : Schema) (prepared : list Entity)
  (entities : list Entity) : Prop :=
  map withoutFields entities = prepared
  /\ wellEmitted ext schema (ownersOf prepared) entities.

(* ------------------------------------------------------------------ *)
(** ** Further worked schemas *)

Module Shop.
Import Sample.

(** The descriptors and entities the conversion builds for the shop schema
    ([Customer] with [orders Order[]], [Order] with [customerId] and
    [customer Customer @relation(fields: [customerId], references: [id])]). *)
Definition nameDescriptor : EntityField :=
  withProperties (createOneEntityFieldCommonProperties plain name SingleLineText)
    (SingleLineTextProps 256).

Definition customerDescriptor : EntityField :=
  withProperties
    (withRelatedField (createOneEntityFieldCommonProperties plain customer Lookup)
       "orders" "orders" true)
    (LookupProps (tokens 0) false).

Definition customerEntity : Entity :=
  pushTo (pushTo (prepareEntity plain (tokens 0) Customer) idDescriptor) nameDescriptor.

Definition orderEntity : Entity :=
  pushTo (pushTo (prepareEntity plain (tokens 1) Order) idDescriptor) customerDescriptor.

Definition entities : list Entity := [customerEntity; orderEntity].

End Shop.

(** The walk does not skip the field: both checks answer false. *)
Definition walked (ext : Externals) (schema : Schema) (entry : Model * Field) : bool :=
  match snd (isFkFieldOfARelation schema (fst entry) (snd entry)),
        isNotAnnotatedRelationField ext schema (snd entry) with
  | Ok false, Ok false => true
  | _, _ => false
  end.

(** The fields of a schema, each with its model, in the order of the walk. *)
Definition allModelFields (schema : Schema) : list (Model * Field) :=
  flat_map (fun model => map (pair model) (fieldsOf (properties model)))
           (modelsOf (list_ schema)).

(** An entity named after the model holds a descriptor of the field with the
    field's classification. *)
Definition hasDescriptor (ext : Externals) (schema : Schema) (model : Model)
  (field : Field) (entities : list Entity) : Prop :=
  exists entity descriptor,
    In entity entities
    /\ e_name entity = model_name model
    /\ In descriptor (e_fields entity)
    /\ ef_name descriptor = field_name field
    /\ resolveFieldDataType ext schema field = Ok (Some (ef_dataType descriptor)).

Module Tasks.
Import Sample.

(** The descriptors and the entity the conversion builds for
    [model Task { code Status @id  status Status  history Status[] }]. *)
Definition codeDescriptor : EntityField :=
  withProperties (createOneEntityFieldCommonProperties plain code Id)
    (IdProps (Some "Status")).

Definition statusDescriptor : EntityField :=
  withProperties (createOneEntityFieldCommonProperties plain status OptionSet)
    (OptionSetProps (optionsOf Status)).

Definition historyDescriptor : EntityField :=
  withProperties (createOneEntityFieldCommonProperties plain history OptionSet)
    (OptionSetProps (optionsOf Status)).

Definition taskEntity : Entity :=
  pushTo (pushTo (pushTo (prepareEntity plain (tokens 0) Task) codeDescriptor)
            statusDescriptor) historyDescriptor.

End Tasks.

Module Roles.
Import Sample.

(** [enum Role { // internal
                 Admin
                 Member

                 @@map("roles") }
     model Account { id Int @id  role Role }] *)
Definition Role : Enum :=
  mkEnum "Role"
    [EComment "// internal";
     EEnumerator (mkEnumerator "Admin");
     EEnumerator (mkEnumerator "Member");
     EBreak;
     EAttribute (mkAttribute BuilderOps.BLOCK_ATTRIBUTE_KIND "map"
                   (Some [mkArg (VString (quoted "roles"))]))].

Definition role : Field := mkField "role" "Role" None None None.

Definition Account : Model := mkModel "Account" [PField idInt; PField role].

Definition schema : Schema := mkSchema [BEnum Role; BModel Account].

Definition roleDescriptor : EntityField :=
  withProperties (createOneEntityFieldCommonProperties plain role OptionSet)
    (OptionSetProps
       [mkOption None None;
        mkOption (Some "Admin") (Some "Admin");
        mkOption (Some "Member") (Some "Member");
        mkOption None None;
        mkOption (Some "map") (Some "map")]).

Definition accountEntity : Entity :=
  pushTo (pushTo (prepareEntity plain (tokens 0) Account) idDescriptor) roleDescriptor.

End Roles.

Module Chain.
Import Sample.

(** [model Node { id Int @id
                  next Node @relation(fields: [next], references: [id]) }]:
    the relation field names itself as its owning-side column. *)
Definition next : Field :=
  mkField "next" "Node" None None
    (Some [withArgs "relation"
             [VKeyValue "fields" (VArray ["next"]);
              VKeyValue "references" (VArray ["id"])]]).

Definition Node : Model := mkModel "Node" [PField idInt; PField next].

Definition schema : Schema := mkSchema [BModel Node].

End Chain.

Module Reviews.
Import Sample.

(** [model Review { id Int @id
                    customerId Int
                    customer Customer @relation(fields: [customerId], references: [id])
                    editor Customer @relation }]:
    the last relation attribute has no argument list. *)
Definition editor : Field :=
  mkField "editor" "Customer" None None (Some [bare "relation"]).

Definition Review : Model :=
  mkModel "Review" [PField idInt; PField customerId; PField customer; PField editor].

Definition schema : Schema := mkSchema [BModel Customer; BModel Review].

(** A field without a name, which no parsed schema has, listed by [holder]. *)
Definition unnamed : Field := mkField EmptyString "Int" None None None.

Definition holder : Field :=
  mkField "holder" "Customer" None None
    (Some [withArgs "relation"
             [VKeyValue "fields" (VArray [EmptyString]);
              VKeyValue "references" (VArray ["id"])]]).

Definition Blank : Model :=
  mkModel "Blank" [PField idInt; PField unnamed; PField holder].

End Reviews.

(* ------------------------------------------------------------------ *)
(** ** Validations section *)

Module ErrorLevel.
(** Modelled from the spec: the two kinds of a validation message, Error and
    Warning (the enum [ErrorLevel] of [./types]). *)
Inductive t : Type := Error | Warning.
End ErrorLevel.

Module ErrorMessages.
(** Modelled from the spec: the message codes the validations section refers
    to (the enum [ErrorMessages] of [./types]); only their identity matters. *)
Inductive t : Type := NoModels | InvalidFKFieldName | ReservedWord.
End ErrorMessages.

(** Modelled from the spec: a structured message, with its message code, its
    kind and its human-readable detail (the type [ErrorMessage]). *)
Record ErrorMessage : Type := mkErrorMessage {
  em_message : ErrorMessages.t;
  em_level : ErrorLevel.t;
  em_details : string
}.

Definition backslash : ascii := Ascii.ascii_of_nat 92.
Definition newline : ascii := Ascii.ascii_of_nat 10.

(** [file.replace(/\\n/g, "\n")]: every backslash followed by the letter n,
    found from left to right without overlap, becomes a line feed. *)
Fixpoint replaceEscapedNewlines (file : string) : string :=
  match file with
  | EmptyString => EmptyString
  | String c rest =>
      match rest with
      | String d after =>
          if Ascii.eqb c backslash && Ascii.eqb d "n"%char
          then String newline (replaceEscapedNewlines after)
          else String c (replaceEscapedNewlines rest)
      | EmptyString => String c EmptyString
      end
  end.

(** [errors.length > 0 ? errors : null] *)
Definition orNull {A} (errors : list A) : option (list A) :=
  match errors with
  | [] => None
  | _ => Some errors
  end.

(** [if (found) { errors.push(...found); }] *)
Definition pushAll {A} (errors : list A) (found : option (list A)) : list A :=
  match found with
  | Some more => errors ++ more
  | None => errors
  end.

Definition noModelsMessage : ErrorMessage :=
  mkErrorMessage ErrorMessages.NoModels ErrorLevel.Error
    "A schema must contain at least one model".

Definition invalidFKFieldNameMessage (modelName fieldName : string) : ErrorMessage :=
  mkErrorMessage ErrorMessages.InvalidFKFieldName ErrorLevel.Error
    ("Field name: " ++ quoted fieldName ++ " in model: " ++ quoted modelName
     ++ " must be in camelCase and end with " ++ quoted "Id").

Definition reservedModelNameMessage (modelName : string) : ErrorMessage :=
  mkErrorMessage ErrorMessages.ReservedWord ErrorLevel.Warning
    ("Model name: " ++ quoted modelName
     ++ " is a reserved word. Please be aware that we renamed it to "
     ++ quoted (modelName ++ "Model")).

Definition reservedFieldNameMessage (fieldName : string) : ErrorMessage :=
  mkErrorMessage ErrorMessages.ReservedWord ErrorLevel.Warning
    ("Field name: " ++ quoted fieldName
     ++ " is a reserved word. Please be aware that we renamed it to "
     ++ quoted (fieldName ++ "Field")).

Section Validations.
Variable ext : Externals.

(** The semantic-validity checker of [@prisma/internals]: it returns or throws. *)
Variable validate : string -> result unit.

(** [isCamelCaseWithIdSuffix] of [./schema-utils]. *)
Variable isCamelCaseWithIdSuffix : string -> bool.

Definition validateSchemaUpload (file : string) : M unit :=
  let schemaString := replaceEscapedNewlines file in
  match validate schemaString with
  | Ok _ => log (LogInfo "Valid schema" [])
  | Throw _ =>
      (log (LogError "Invalid schema") ;;;
       throw (Error "Invalid schema"))%m
  end.

Definition validateFKFieldName (modelName fieldName : string)
  : option (list ErrorMessage) :=
  let isValidFkFieldName := isCamelCaseWithIdSuffix fieldName in
  orNull (if negb isValidFkFieldName
          then [invalidFKFieldNameMessage modelName fieldName]
          else []).

Definition validateModelNamesReservedWords (modelName : string)
  : option (list ErrorMessage) :=
  let isReservedModelName := isReservedName ext (trim ext (toLowerCase ext modelName)) in
  orNull (if isReservedModelName then [reservedModelNameMessage modelName] else []).

Definition validateFieldNamesReservedWords (fieldName : string)
  : option (list ErrorMessage) :=
  let isReservedFieldName := isReservedName ext (trim ext (toLowerCase ext fieldName)) in
  orNull (if isReservedFieldName then [reservedFieldNameMessage fieldName] else []).

(** The body of the inner [fields.map]: the three checks of one field. *)
Definition validateFieldOf (model : Model) (errors : list ErrorMessage) (field : Field)
  : list ErrorMessage :=
  let errors := pushAll errors (validateFKFieldName (model_name model) (field_name field)) in
  let errors := pushAll errors (validateModelNamesReservedWords (model_name model)) in
  pushAll errors (validateFieldNamesReservedWords (field_name field)).

(** The body of the outer [models.map]. *)
Definition validateModel (errors : list ErrorMessage) (model : Model)
  : list ErrorMessage :=
  fold_left (validateFieldOf model) (fieldsOf (properties model)) errors.

Definition validateSchemaProcessing (schema : string)
  : result (option (list ErrorMessage)) :=
  rbind (getSchema ext schema) (fun schemaObject =>
    let models := modelsOf (list_ schemaObject) in
    let errors :=
      if Nat.eqb (List.length models) 0 then [noModelsMessage] else [] in
    Ok (orNull (fold_left validateModel models errors))).

End Validations.

(** The text holds a backslash followed by the letter n. *)
Fixpoint containsEscapedNewline (text : string) : bool :=
  match text with
  | EmptyString => false
  | String c rest =>
      match rest with
      | String d _ =>
          (Ascii.eqb c backslash && Ascii.eqb d "n"%char) || containsEscapedNewline rest
      | EmptyString => false
      end
  end.

(** The messages of a result, [null] read as none. *)
Definition reported (outcome : result (option (list ErrorMessage)))
  : list ErrorMessage :=
  match outcome with
  | Ok (Some messages) => messages
  | _ => []
  end.

(** [isReservedName(name.toLowerCase().trim())] *)
Definition reservedWord (ext : Externals) (name : string) : bool :=
  isReservedName ext (trim ext (toLowerCase ext name)).

(** The naming utilities of [Sample.plain] with a parser that returns [schema]. *)
Definition parsing (schema : Schema) : Externals :=
  {| formatModelName := formatModelName Sample.plain;
     formatFieldName := formatFieldName Sample.plain;
     formatDisplayName := formatDisplayName Sample.plain;
     pluralize := pluralize Sample.plain;
     isPlural := isPlural Sample.plain;
     isReservedName := isReservedName Sample.plain;
     toLowerCase := toLowerCase Sample.plain;
     trim := trim Sample.plain;
     filterOutAmplicationAttributes := filterOutAmplicationAttributes Sample.plain;
     idTypePropertyMap := idTypePropertyMap Sample.plain;
     idTypePropertyMapByFieldType := idTypePropertyMapByFieldType Sample.plain;
     valueToString := valueToString Sample.plain;
     getSchema := fun _ => Ok schema |}.

(** Only the models count: the blocks with every model emptied and unnamed. *)
Definition skeleton (block : Block) : Block :=
  match block with
  | BModel _ => BModel (mkModel EmptyString [])
  | other => other
  end.

Definition shape (schema : Schema) : list Block := map skeleton (list_ schema).

(** What the three checks report for one field of one model. *)
Definition fieldMessages (ext : Externals) (isCamelCaseWithIdSuffix : string -> bool)
  (entry : Model * Field) : list ErrorMessage :=
  let modelName := model_name (fst entry) in
  let fieldName := field_name (snd entry) in
  (if isCamelCaseWithIdSuffix fieldName then []
   else [invalidFKFieldNameMessage modelName fieldName])
  ++ (if reservedWord ext modelName then [reservedModelNameMessage modelName] else [])
  ++ (if reservedWord ext fieldName then [reservedFieldNameMessage fieldName] else []).

(** The block at position [i] is a model of that name. *)
Definition namedAt (schema : Schema) (i : nat) (name : string) : Prop :=
  exists m, modelAt schema i = Some m /\ model_name m = name.

(** [after] has the blocks of [before] at the same positions, models for
    models and every other block as it was. *)
Definition sameShape (before after : Schema) : Prop := shape after = shape before.

(** ... and its models have kept their names. *)
Definition sameNames (before after : Schema) : Prop :=
  sameShape before after
  /\ forall i name, namedAt before i name -> namedAt after i name.



Module Legacy.
Import Sample.

(** [model order_item { id Int @id }  enum Status { Active Inactive }
     model Customer { ... }] *)
Definition order_item : Model := mkModel "order_item" [PField idInt].

Definition schema : Schema :=
  mkSchema [BModel order_item; BEnum Status; BModel Customer].

End Legacy.

(** A field after the last pass, in a model of that name: a field named [id]
    without the id attribute is renamed after the model, a field with the id
    attribute and another name is renamed [id]; both get a map attribute. *)
Definition normalizedIdField (modelName : string) (f : Field) : Field :=
  let isIdField := hasAttribute ID_ATTRIBUTE_NAME f in
  if negb isIdField && (field_name f =? ID_FIELD_NAME) then
    setFieldName (modelName ++ "Id")
      (BuilderOps.setAttribute "map" [VString (quoted (modelName ++ "Id"))] f)
  else if isIdField && negb (field_name f =? ID_FIELD_NAME) then
    setFieldName ID_FIELD_NAME
      (BuilderOps.setAttribute "map" [VString (quoted (field_name f))] f)
  else f.

Definition normalizedIdModel (m : Model) : Model :=
  setProperties (map (onField (normalizedIdField (model_name m))) (properties m)) m.
(* ------------------------------------------------------------------ *)
(** * Properties *)

Unset Implicit Arguments.

(** ** Reading lemmas *)

Lemma In_modelsOf (m : Model) (blocks : list Block) :
  In m (modelsOf blocks) <-> In (BModel m) blocks.
Proof.
  induction blocks as [|b rest IH]; simpl; [tauto|].
  destruct b as [m'| |]; simpl; rewrite ?IH; split; intros H.
  - destruct H as [->|H]; auto.
  - destruct H as [H|H]; [inversion H; auto | auto].
  - auto.
  - destruct H as [H|H]; [discriminate | auto].
  - auto.
  - destruct H as [H|H]; [discriminate | auto].
Qed.

Lemma In_enumsOf (e : Enum) (blocks : list Block) :
  In e (enumsOf blocks) <-> In (BEnum e) blocks.
Proof.
  induction blocks as [|b rest IH]; simpl; [tauto|].
  destruct b as [|e'|]; simpl; rewrite ?IH; split; intros H.
  - auto.
  - destruct H as [H|H]; [discriminate | auto].
  - destruct H as [->|H]; auto.
  - destruct H as [H|H]; [inversion H; auto | auto].
  - auto.
  - destruct H as [H|H]; [discriminate | auto].
Qed.

Lemma In_fieldsOf (f : Field) (props : list Property) :
  In f (fieldsOf props) <-> In (PField f) props.
Proof.
  induction props as [|p rest IH]; simpl; [tauto|].
  destruct p as [f'| |]; simpl; rewrite ?IH; split; intros H.
  - destruct H as [->|H]; auto.
  - destruct H as [H|H]; [inversion H; auto | auto].
  - auto.
  - destruct H as [H|H]; [discriminate | auto].
  - auto.
  - destruct H as [H|H]; [discriminate | auto].
Qed.

Lemma hasAttribute_carries (name : string) (field : Field) :
  hasAttribute name field = true <-> carries name field.
Proof.
  unfold hasAttribute, carries. destruct (attributes field) as [attrs|].
  - rewrite existsb_exists. split.
    + intros [attr [Hin Heq]]. exists attrs, attr.
      apply String.eqb_eq in Heq. auto.
    + intros [attrs' [attr [Hsome [Hin Heq]]]]. inversion Hsome; subst attrs'.
      exists attr. split; [assumption|]. now apply String.eqb_eq.
  - split; [discriminate|]. intros [? [? [H _]]]. discriminate.
Qed.

Lemma hasAttribute_not_carries (name : string) (field : Field) :
  ~ carries name field -> hasAttribute name field = false.
Proof.
  intros H. destruct (hasAttribute name field) eqn:E; [|reflexivity].
  exfalso. apply H. now apply hasAttribute_carries.
Qed.

Lemma find_none_iff {A} (p : A -> bool) (l : list A) :
  find p l = None <-> (forall x, In x l -> p x = false).
Proof.
  split.
  - intros H x Hin. exact (find_none p l H x Hin).
  - induction l as [|a rest IH]; simpl; intros H; [reflexivity|].
    rewrite (H a (or_introl eq_refl)). apply IH. intros x Hx. apply H. now right.
Qed.

Lemma find_first {A} (p : A -> bool) (before after : list A) (x : A) :
  Forall (fun a => p a = false) before -> p x = true ->
  find p (before ++ x :: after) = Some x.
Proof.
  induction 1 as [|a rest Ha _ IH]; simpl; intros Hx.
  - now rewrite Hx.
  - rewrite Ha. now apply IH.
Qed.

Lemma findAttribute_first (name : string) (field : Field) (attr : Attribute) :
  firstCarried name field attr -> findAttribute name field = Some attr.
Proof.
  intros [before [after [Hattrs [Hname Hbefore]]]].
  unfold findAttribute. rewrite Hattrs. apply find_first.
  - eapply Forall_impl; [|exact Hbefore]. intros a Ha. cbv beta in Ha.
    now apply String.eqb_neq.
  - now apply String.eqb_eq.
Qed.

Lemma lookupModelType_none (ext : Externals) (schema : Schema) (field : Field) :
  ~ matchesRecordType ext schema (fieldType field) ->
  lookupModelType ext schema field tt = Ok None.
Proof.
  intros H. unfold lookupModelType.
  destruct (find _ (modelsOf (list_ schema))) as [m|] eqn:E; [|reflexivity].
  exfalso. apply H. apply find_some in E. destruct E as [Hin Heq].
  exists m. split; [now apply In_modelsOf | now apply String.eqb_eq].
Qed.

Lemma optionSetType_declared (schema : Schema) (field : Field) :
  declaresEnum schema (fieldType field) ->
  optionSetType schema field tt = Ok (Some OptionSet).
Proof.
  intros [e [Hin Hname]]. unfold optionSetType.
  destruct (find _ (enumsOf (list_ schema))) as [e'|] eqn:E; [reflexivity|].
  exfalso. rewrite find_none_iff in E.
  specialize (E e (proj2 (In_enumsOf e _) Hin)). cbv beta in E.
  rewrite Hname, String.eqb_refl in E. discriminate.
Qed.

Lemma optionSetType_undeclared (schema : Schema) (field : Field) :
  ~ declaresEnum schema (fieldType field) ->
  optionSetType schema field tt = Ok None
  /\ multiSelectOptionSetType schema field tt = Ok None.
Proof.
  intros H. unfold optionSetType, multiSelectOptionSetType. split.
  - destruct (find _ (enumsOf (list_ schema))) as [e|] eqn:E; [|reflexivity].
    exfalso. apply H. apply find_some in E. destruct E as [Hin Heq].
    exists e. split; [now apply In_enumsOf | now apply String.eqb_eq].
  - destruct (find _ (enumsOf (list_ schema))) as [e|] eqn:E; [|reflexivity].
    exfalso. apply H. apply find_some in E. destruct E as [Hin Heq].
    apply andb_prop in Heq. destruct Heq as [Heq _].
    exists e. split; [now apply In_enumsOf | now apply String.eqb_eq].
Qed.

Lemma nowArg_hasNowArgument (attr : Attribute) :
  hasNowArgument attr -> nowArg (Some attr) = true.
Proof.
  intros [args [arg [params [Hargs [Hin Hval]]]]]. unfold nowArg. rewrite Hargs.
  apply existsb_exists. exists arg. split; [assumption|].
  unfold isNowArg. now rewrite Hval.
Qed.

(* ------------------------------------------------------------------ *)
(** ** The field classifier *)

(** The classifier returns a category or throws the final case's error: the
    loop over the cases never ends without a result. *)
Lemma resolveFieldDataType_cases (ext : Externals) (schema : Schema) (field : Field) :
  (exists dataType, resolveFieldDataType ext schema field = Ok (Some dataType))
  \/ (resolveFieldDataType ext schema field
        = Throw (Error ("Unsupported data type: " ++ fieldType field))
      /\ noPredicateMatches ext schema field).
Proof.
  unfold resolveFieldDataType, fieldDataTypCases, noPredicateMatches. simpl.
  destruct (idType field tt) as [[d|]|e] eqn:E1;
    [left; eauto | | unfold idType in E1; destruct (hasAttribute _ _); discriminate].
  destruct (lookupRelationType field tt) as [[d|]|e] eqn:E2;
    [left; eauto | | unfold lookupRelationType in E2;
                      destruct (hasAttribute _ _); discriminate].
  destruct (lookupModelType ext schema field tt) as [[d|]|e] eqn:E3;
    [left; eauto | | unfold lookupModelType in E3; destruct (find _ _); discriminate].
  destruct (optionSetType schema field tt) as [[d|]|e] eqn:E4;
    [left; eauto | | unfold optionSetType in E4; destruct (find _ _); discriminate].
  destruct (multiSelectOptionSetType schema field tt) as [[d|]|e] eqn:E5;
    [left; eauto | | unfold multiSelectOptionSetType in E5;
                      destruct (find _ _); discriminate].
  destruct (createAtType field tt) as [[d|]|e] eqn:E6;
    [left; eauto | | unfold createAtType in E6;
                      destruct (findAttribute _ _); [destruct (nowArg _)|]; discriminate].
  destruct (updatedAtType field tt) as [[d|]|e] eqn:E7;
    [left; eauto | | unfold updatedAtType in E7;
                      destruct (_ || _); discriminate].
  destruct (scalarType field tt) as [[d|]|e] eqn:E8;
    [left; eauto | | unfold scalarType in E8;
                      repeat (destruct (_ =? _); [discriminate|]); discriminate].
  right. unfold unsupported. repeat split; reflexivity.
Qed.

(** A field that reaches the enumeration predicates and names a declared
    Enumeration is classified OptionSet, whatever its array flag: the
    OptionSet predicate stands before the MultiSelectOptionSet one and does not
    read the flag. *)
Lemma enum_field_resolves_OptionSet (ext : Externals) (schema : Schema) (field : Field) :
  ~ carries ID_ATTRIBUTE_NAME field ->
  ~ carries "relation" field ->
  ~ matchesRecordType ext schema (fieldType field) ->
  declaresEnum schema (fieldType field) ->
  resolveFieldDataType ext schema field = Ok (Some OptionSet).
Proof.
  intros Hid Hrel Hmodel Henum.
  unfold resolveFieldDataType, fieldDataTypCases. simpl.
  unfold idType, lookupRelationType.
  rewrite (hasAttribute_not_carries _ _ Hid), (hasAttribute_not_carries _ _ Hrel).
  rewrite (lookupModelType_none _ _ _ Hmodel).
  now rewrite (optionSetType_declared _ _ Henum).
Qed.

(** No schema and no field make the classifier answer MultiSelectOptionSet. *)
Lemma resolveFieldDataType_not_MultiSelectOptionSet (ext : Externals)
  (schema : Schema) (field : Field) :
  resolveFieldDataType ext schema field <> Ok (Some MultiSelectOptionSet).
Proof.
  unfold resolveFieldDataType, fieldDataTypCases. simpl.
  unfold idType, lookupRelationType, lookupModelType.
  destruct (hasAttribute ID_ATTRIBUTE_NAME field); [discriminate|].
  destruct (hasAttribute "relation" field); [discriminate|].
  destruct (find _ (modelsOf (list_ schema))); [discriminate|].
  unfold optionSetType, multiSelectOptionSetType.
  destruct (find (fun enumItem => enum_name enumItem =? fieldType field) _) eqn:E;
    [discriminate|].
  rewrite find_none_iff in E.
  replace (find _ (enumsOf (list_ schema))) with (@None Enum).
  - unfold createAtType, updatedAtType, scalarType, unsupported.
    destruct (findAttribute "default" field);
      [destruct (nowArg _); [discriminate|]|];
      (destruct (_ || _); [discriminate|]);
      repeat (destruct (_ =? _); [discriminate|]); discriminate.
  - symmetry. apply find_none_iff. intros x Hx. cbv beta.
    now rewrite (E x Hx).
Qed.

(** C1, as amended.  A field that carries neither a primary-key nor a relation
    attribute, whose declared type matches no declared Record-Type and names a
    declared Enumeration, and whose array flag is false, is classified
    OptionSet. *)
Theorem enum_field_not_array_is_OptionSet (ext : Externals) (schema : Schema)
  (field : Field) :
  ~ carries ID_ATTRIBUTE_NAME field ->
  ~ carries "relation" field ->
  ~ matchesRecordType ext schema (fieldType field) ->
  declaresEnum schema (fieldType field) ->
  orFalse (array field) = false ->
  resolveFieldDataType ext schema field = Ok (Some OptionSet).
Proof.
  intros Hid Hrel Hmodel Henum _. now apply enum_field_resolves_OptionSet.
Qed.

Lemma sample_not_carries (name : string) (field : Field) :
  hasAttribute name field = false -> ~ carries name field.
Proof.
  intros H C. apply hasAttribute_carries in C. rewrite C in H. discriminate.
Qed.

Lemma taskSchema_no_record_type_Status :
  ~ matchesRecordType Sample.plain Sample.taskSchema "Status".
Proof.
  intros [m [Hin Heq]]. simpl in Hin.
  destruct Hin as [H|[H|[]]]; [discriminate|]. inversion H; subst m. discriminate.
Qed.

Lemma taskSchema_declares_Status : declaresEnum Sample.taskSchema "Status".
Proof. exists Sample.Status. split; [left; reflexivity | reflexivity]. Qed.

(** Witness of C1: [status Status] in the task schema. *)
Lemma enum_field_not_array_is_OptionSet_witness :
  resolveFieldDataType Sample.plain Sample.taskSchema Sample.status
  = Ok (Some OptionSet).
Proof.
  apply (enum_field_not_array_is_OptionSet Sample.plain Sample.taskSchema Sample.status).
  - apply sample_not_carries. reflexivity.
  - apply sample_not_carries. reflexivity.
  - exact taskSchema_no_record_type_Status.
  - exact taskSchema_declares_Status.
  - reflexivity.
Defined.

(** Whatever the naming utilities, [history Status[]] is classified OptionSet
    and [code Status @id] is classified Id. *)
Lemma statusSchema_classification (ext : Externals) :
  resolveFieldDataType ext Sample.statusSchema Sample.history = Ok (Some OptionSet)
  /\ resolveFieldDataType ext Sample.statusSchema Sample.code = Ok (Some Id).
Proof. split; reflexivity. Qed.

(** Counterexample to C1 as stated: both fields name the declared Enumeration
    [Status]; [code Status @id], whose array flag is false, is classified Id
    and not OptionSet, and [history Status[]], whose array flag is true, is
    classified OptionSet and not MultiSelectOptionSet. *)
Lemma enum_field_classification_counterexample :
  (declaresEnum Sample.statusSchema (fieldType Sample.code)
   /\ orFalse (array Sample.code) = false
   /\ resolveFieldDataType Sample.plain Sample.statusSchema Sample.code = Ok (Some Id)
   /\ resolveFieldDataType Sample.plain Sample.statusSchema Sample.code
      <> Ok (Some OptionSet))
  /\ (declaresEnum Sample.statusSchema (fieldType Sample.history)
      /\ orFalse (array Sample.history) = true
      /\ resolveFieldDataType Sample.plain Sample.statusSchema Sample.history
         = Ok (Some OptionSet)
      /\ resolveFieldDataType Sample.plain Sample.statusSchema Sample.history
         <> Ok (Some MultiSelectOptionSet)).
Proof.
  assert (Hdeclared : declaresEnum Sample.statusSchema "Status").
  { exists Sample.Status. split; [left; reflexivity | reflexivity]. }
  repeat split; try reflexivity; try exact Hdeclared; discriminate.
Qed.

(** C6, as amended.  A field that carries neither a primary-key nor a relation
    attribute, whose declared type matches no declared Record-Type and names no
    declared Enumeration, that carries no updatedAt attribute, and whose
    default-value attribute has an argument that is the function-call marker
    [now], is classified CreatedAt. *)
Theorem default_now_is_CreatedAt (ext : Externals) (schema : Schema)
  (field : Field) (attr : Attribute) :
  ~ carries ID_ATTRIBUTE_NAME field ->
  ~ carries "relation" field ->
  ~ matchesRecordType ext schema (fieldType field) ->
  ~ declaresEnum schema (fieldType field) ->
  ~ carries "updatedAt" field ->
  firstCarried "default" field attr ->
  hasNowArgument attr ->
  resolveFieldDataType ext schema field = Ok (Some CreatedAt).
Proof.
  intros Hid Hrel Hmodel Henum _ Hdefault Hnow.
  unfold resolveFieldDataType, fieldDataTypCases. simpl.
  unfold idType, lookupRelationType.
  rewrite (hasAttribute_not_carries _ _ Hid), (hasAttribute_not_carries _ _ Hrel).
  rewrite (lookupModelType_none _ _ _ Hmodel).
  destruct (optionSetType_undeclared _ _ Henum) as [-> ->].
  unfold createAtType. rewrite (findAttribute_first _ _ _ Hdefault).
  now rewrite (nowArg_hasNowArgument _ Hnow).
Qed.

Lemma defaultNow_hasNowArgument : hasNowArgument Sample.defaultNow.
Proof.
  exists [mkArg (VFunc "now" [])], (mkArg (VFunc "now" [])), [].
  repeat split. now left.
Qed.

Lemma eventSchema_no_record_type_DateTime :
  ~ matchesRecordType Sample.plain Sample.eventSchema "DateTime".
Proof.
  intros [m [Hin Heq]]. simpl in Hin.
  destruct Hin as [H|[]]. inversion H; subst m. discriminate.
Qed.

Lemma eventSchema_declares_no_enum (name : string) :
  ~ declaresEnum Sample.eventSchema name.
Proof.
  intros [e [Hin _]]. simpl in Hin. destruct Hin as [H|[]]. discriminate.
Qed.

(** Witness of C6: [createdAt DateTime @default(now())]. *)
Lemma default_now_is_CreatedAt_witness :
  resolveFieldDataType Sample.plain Sample.eventSchema Sample.createdAt
  = Ok (Some CreatedAt).
Proof.
  apply (default_now_is_CreatedAt Sample.plain Sample.eventSchema Sample.createdAt
           Sample.defaultNow).
  - apply sample_not_carries. reflexivity.
  - apply sample_not_carries. reflexivity.
  - exact eventSchema_no_record_type_DateTime.
  - apply eventSchema_declares_no_enum.
  - apply sample_not_carries. reflexivity.
  - exists [], []. repeat split. constructor.
  - exact defaultNow_hasNowArgument.
Defined.

(** Counterexample to C6 as stated: [id DateTime @id @default(now())] has a
    default-value attribute with a [now] argument and no updatedAt attribute,
    and is classified Id, not CreatedAt. *)
Lemma default_now_counterexample :
  firstCarried "default" Sample.stamp Sample.defaultNow
  /\ hasNowArgument Sample.defaultNow
  /\ ~ carries "updatedAt" Sample.stamp
  /\ resolveFieldDataType Sample.plain Sample.eventSchema Sample.stamp = Ok (Some Id)
  /\ resolveFieldDataType Sample.plain Sample.eventSchema Sample.stamp
     <> Ok (Some CreatedAt).
Proof.
  split; [|split; [|split; [|split]]].
  - exists [Sample.bare "id"], []. repeat split.
    constructor; [discriminate | constructor].
  - exact defaultNow_hasNowArgument.
  - apply sample_not_carries. reflexivity.
  - reflexivity.
  - discriminate.
Qed.

(* ------------------------------------------------------------------ *)
(** ** Foreign-key storage columns: isFkFieldOfARelation *)

Section Callbacks.
Context {A : Type}.
Variable p : A -> result bool.
Variable q : A -> bool.

(** A callback that never throws on the list behaves as its boolean reading. *)
Lemma someR_ok (l : list A) :
  (forall x, In x l -> p x = Ok (q x)) -> someR p l = Ok (existsb q l).
Proof.
  induction l as [|a rest IH]; simpl; intros H; [reflexivity|].
  rewrite (H a (or_introl eq_refl)).
  destruct (q a); [reflexivity|]. apply IH. intros x Hx. apply H. now right.
Qed.

Lemma filterR_ok (l : list A) :
  (forall x, In x l -> p x = Ok (q x)) -> filterR p l = Ok (filter q l).
Proof.
  induction l as [|a rest IH]; simpl; intros H; [reflexivity|].
  rewrite (H a (or_introl eq_refl)), IH; [reflexivity|].
  intros x Hx. apply H. now right.
Qed.

End Callbacks.

Section Counting.
Context {A : Type}.
Variable q : A -> bool.
Variable P : A -> Prop.

Lemma filter_nil_iff (l : list A) :
  (forall a, In a l -> (q a = true <-> P a)) ->
  (filter q l = [] <-> Forall (fun a => ~ P a) l).
Proof.
  induction l as [|a rest IH]; simpl; intros H.
  - split; [constructor | reflexivity].
  - assert (Ha := H a (or_introl eq_refl)).
    assert (Hrest : forall x, In x rest -> (q x = true <-> P x))
      by (intros x Hx; apply H; now right).
    destruct (q a) eqn:E.
    + split; [discriminate|]. intros HF. inversion HF; subst.
      exfalso. apply H2. now apply Ha.
    + rewrite (IH Hrest). split.
      * intros HF. constructor; [|assumption]. intros HP.
        apply Ha in HP. discriminate.
      * intros HF. now inversion HF.
Qed.

Lemma filter_length_one (l : list A) :
  (forall a, In a l -> (q a = true <-> P a)) ->
  (List.length (filter q l) = 1 <-> ExactlyOne P l).
Proof.
  induction l as [|a rest IH]; simpl; intros H.
  - split; [discriminate|]. intros [before [x [after [Heq _]]]].
    destruct before; discriminate.
  - assert (Ha := H a (or_introl eq_refl)).
    assert (Hrest : forall x, In x rest -> (q x = true <-> P x))
      by (intros x Hx; apply H; now right).
    destruct (q a) eqn:E.
    + simpl. split.
      * intros Hlen. exists [], a, rest. repeat split.
        -- now apply Ha.
        -- constructor.
        -- apply (filter_nil_iff rest Hrest).
           destruct (filter q rest); [reflexivity | discriminate].
      * intros [before [x [after [Heq [Hx [Hb Hafter]]]]]].
        destruct before as [|b before'].
        -- simpl in Heq. inversion Heq; subst.
           apply (filter_nil_iff after Hrest) in Hafter. now rewrite Hafter.
        -- simpl in Heq. inversion Heq; subst. inversion Hb; subst.
           exfalso. apply H2. now apply Ha.
    + rewrite (IH Hrest). split.
      * intros [before [x [after [Heq [Hx [Hb Hafter]]]]]].
        exists (a :: before), x, after. subst rest. repeat split; try assumption.
        constructor; [|assumption]. intros HP. apply Ha in HP. discriminate.
      * intros [before [x [after [Heq [Hx [Hb Hafter]]]]]].
        destruct before as [|b before'].
        -- simpl in Heq. inversion Heq; subst. apply Ha in Hx. discriminate.
        -- simpl in Heq. inversion Heq; subst. inversion Hb; subst.
           exists before', x, after. repeat split; assumption.
Qed.

Lemma filter_length_more (l : list A) :
  (forall a, In a l -> (q a = true <-> P a)) ->
  MoreThanOne P l -> 1 < List.length (filter q l).
Proof.
  intros H [l1 [x [l2 [y [l3 [Heq [Hx Hy]]]]]]]. subst l.
  assert (Hqx : q x = true).
  { apply H; [|assumption]. apply in_or_app. right. now left. }
  assert (Hqy : q y = true).
  { apply H; [|assumption]. apply in_or_app. right. right.
    apply in_or_app. right. now left. }
  rewrite filter_app, length_app. simpl. rewrite Hqx. simpl.
  rewrite filter_app, length_app. simpl. rewrite Hqy. simpl. lia.
Qed.

Lemma filter_skip (before after : list A) (x : A) :
  q x = false -> filter q (before ++ x :: after) = filter q (before ++ after).
Proof.
  intros Hx. rewrite !filter_app. simpl. now rewrite Hx.
Qed.

End Counting.

Lemma truthy_nonempty (s : string) : s <> EmptyString -> truthy s = true.
Proof. destruct s; [congruence | reflexivity]. Qed.

Lemma find_eqb_name (name : string) (columns : list string) :
  find (fun argName => argName =? name) columns
  = if existsb (fun argName => argName =? name) columns then Some name else None.
Proof.
  induction columns as [|c rest IH]; simpl; [reflexivity|].
  destruct (c =? name) eqn:E; simpl; [|exact IH].
  apply String.eqb_eq in E. now subst.
Qed.

Lemma fieldsArgLists_ok (name : string) (arg : AttributeArgument) :
  name <> EmptyString ->
  (forall value, arg_value arg = VKeyValue "fields" value ->
                 exists columns, value = VArray columns) ->
  fieldsArgLists name arg = Ok (fieldsArgListsB name arg).
Proof.
  intros Hname Hwf. unfold fieldsArgLists, fieldsArgListsB.
  destruct (arg_value arg) as [s|n|b|f ps|cols|key value]; try reflexivity.
  destruct (key =? "fields") eqn:E.
  - apply String.eqb_eq in E. subst key.
    destruct (Hwf value eq_refl) as [columns ->]. simpl.
    rewrite find_eqb_name.
    destruct (existsb _ columns); [|reflexivity].
    now rewrite (truthy_nonempty name Hname).
  - destruct value; reflexivity.
Qed.

Lemma relationListsFk_ok (name : string) (attr : Attribute) :
  name <> EmptyString -> wellFormedAttribute attr ->
  relationListsFk name attr = Ok (relationListsFkB name attr).
Proof.
  intros Hname Hwf. unfold relationListsFk, relationListsFkB.
  destruct (attr_name attr =? "relation") eqn:E; [|reflexivity].
  apply String.eqb_eq in E. destruct (Hwf E) as [args [Hargs Hfields]].
  rewrite Hargs. simpl. apply someR_ok. intros arg Harg.
  apply fieldsArgLists_ok; [assumption|]. intros value Hvalue.
  exact (Hfields arg value Harg Hvalue).
Qed.

Lemma referencesAsFk_ok (name : string) (modelField : Field) :
  name <> EmptyString -> wellFormedField modelField ->
  referencesAsFk name modelField = Ok (referencesAsFkB name modelField).
Proof.
  intros Hname Hwf. unfold referencesAsFk, referencesAsFkB.
  destruct (attributes modelField) as [attrs|] eqn:E; [|reflexivity].
  apply someR_ok. intros attr Hattr.
  apply relationListsFk_ok; [assumption|]. exact (Hwf attrs attr E Hattr).
Qed.

Lemma referencesAsFkB_iff (name : string) (modelField : Field) :
  referencesAsFkB name modelField = true <-> listsAsOwningColumn name modelField.
Proof.
  unfold referencesAsFkB, listsAsOwningColumn. split.
  - destruct (attributes modelField) as [attrs|]; [|discriminate].
    intros H. apply existsb_exists in H. destruct H as [attr [Hattr H]].
    unfold relationListsFkB in H. apply andb_prop in H. destruct H as [Hrel H].
    destruct (attr_args attr) as [args|] eqn:Eargs; [|discriminate].
    apply existsb_exists in H. destruct H as [arg [Harg H]].
    unfold fieldsArgListsB in H.
    destruct (arg_value arg) as [s|n|b|f ps|cols|key value] eqn:Ev; try discriminate.
    destruct value as [s|n|b|f ps|columns|k v]; try discriminate.
    apply andb_prop in H. destruct H as [Hkey H].
    apply existsb_exists in H. destruct H as [c [Hc Heq]].
    apply String.eqb_eq in Hrel, Hkey, Heq. subst c key.
    exists attrs, attr, args, arg, columns. repeat split; assumption.
  - intros [attrs [attr [args [arg [columns
             [Hattrs [Hattr [Hrel [Hargs [Harg [Hvalue Hin]]]]]]]]]]].
    rewrite Hattrs. apply existsb_exists. exists attr. split; [assumption|].
    unfold relationListsFkB. rewrite Hrel, Hargs. simpl.
    apply existsb_exists. exists arg. split; [assumption|].
    unfold fieldsArgListsB. rewrite Hvalue. simpl.
    apply existsb_exists. exists name. split; [assumption | apply String.eqb_refl].
Qed.

(** What [isFkFieldOfARelation] logs and returns, by the number of fields of
    the model that list the field's name as an owning-side column. *)
Lemma isFkFieldOfARelation_eval (schema : Schema) (model : Model) (field : Field) :
  wellFormedModel model ->
  field_name field <> EmptyString ->
  let n := List.length (filter (referencesAsFkB (field_name field))
                          (fieldsOf (properties model))) in
  isFkFieldOfARelation schema model field
  = ((if Nat.ltb 1 n
      then [LogError (moreThanOneRelationMessage field model);
            LogError (moreThanOneRelationMessage field model)]
      else []),
     Ok (Nat.eqb n 1)).
Proof.
  intros Hwf Hname n. unfold isFkFieldOfARelation.
  rewrite (filterR_ok (referencesAsFk (field_name field))
             (referencesAsFkB (field_name field))).
  - simpl. fold n. destruct (Nat.ltb 1 n); reflexivity.
  - intros x Hx. apply referencesAsFk_ok; [assumption|]. now apply Hwf.
Qed.

(** C3, as amended.  In a Record-Type whose relation attributes all have an
    argument list, with an array in every "fields" argument, and for a field
    whose name is not empty, [isFkFieldOfARelation] does not abort; it returns
    true if and only if exactly one field of the Record-Type -- the field
    itself is not set apart -- carries a relation attribute whose "fields"
    argument lists this field's name; and when more than one field does, it
    logs an error and returns false. *)
Theorem isFkFieldOfARelation_exactly_one (schema : Schema) (model : Model)
  (field : Field) :
  wellFormedModel model ->
  field_name field <> EmptyString ->
  exists logged answer,
    isFkFieldOfARelation schema model field = (logged, Ok answer)
    /\ (answer = true
        <-> ExactlyOne (listsAsOwningColumn (field_name field))
              (fieldsOf (properties model)))
    /\ (MoreThanOne (listsAsOwningColumn (field_name field))
          (fieldsOf (properties model)) ->
        answer = false
        /\ In (LogError (moreThanOneRelationMessage field model)) logged).
Proof.
  intros Hwf Hname.
  rewrite (isFkFieldOfARelation_eval schema model field Hwf Hname).
  set (fields := fieldsOf (properties model)).
  assert (Hiff : forall a, In a fields ->
                   (referencesAsFkB (field_name field) a = true
                    <-> listsAsOwningColumn (field_name field) a))
    by (intros a _; apply referencesAsFkB_iff).
  eexists. eexists. split; [reflexivity|]. split.
  - rewrite Nat.eqb_eq. now apply filter_length_one.
  - intros Hmore.
    pose proof (filter_length_more _ _ fields Hiff Hmore) as Hlen.
    split.
    + apply Nat.eqb_neq. lia.
    + apply Nat.ltb_lt in Hlen. rewrite Hlen. now left.
Qed.

Ltac each_member H :=
  repeat (destruct H as [H|H]; [try subst; try (inversion H; subst; clear H)|]);
  try contradiction.

Lemma Order_wellFormed : wellFormedModel Sample.Order.
Proof.
  intros field Hfield attrs attr Hattrs Hattr Hrel.
  simpl in Hfield. each_member Hfield; simpl in Hattrs; try discriminate;
    inversion Hattrs; subst attrs; simpl in Hattr; each_member Hattr;
    simpl in Hrel; try discriminate.
  eexists. split; [reflexivity|]. intros arg value Harg Hvalue.
  simpl in Harg. each_member Harg; simpl in Hvalue; inversion Hvalue; subst; eauto.
Qed.

(** Witness of C3: [customerId] of [Order], listed by [customer] only. *)
Lemma isFkFieldOfARelation_exactly_one_witness :
  exists logged answer,
    isFkFieldOfARelation Sample.shopSchema Sample.Order Sample.customerId
    = (logged, Ok answer)
    /\ (answer = true
        <-> ExactlyOne (listsAsOwningColumn (field_name Sample.customerId))
              (fieldsOf (properties Sample.Order)))
    /\ (MoreThanOne (listsAsOwningColumn (field_name Sample.customerId))
          (fieldsOf (properties Sample.Order)) ->
        answer = false
        /\ In (LogError (moreThanOneRelationMessage Sample.customerId Sample.Order))
              logged).
Proof.
  apply (isFkFieldOfARelation_exactly_one Sample.shopSchema Sample.Order
           Sample.customerId).
  - exact Order_wellFormed.
  - discriminate.
Defined.

(** Counterexample to C3 as stated: in
    [model Node { id Int @id  next Node @relation(fields: [next], references: [id]) }]
    no field other than [next] lists [next] as an owning-side column, and
    [isFkFieldOfARelation] answers true for [next]: the field itself is among
    the fields the code counts. *)
Lemma isFkFieldOfARelation_counterexample :
  isFkFieldOfARelation Chain.schema Chain.Node Chain.next = ([], Ok true)
  /\ fieldsOf (properties Chain.Node) = [Sample.idInt] ++ Chain.next :: []
  /\ ~ ExactlyOne (listsAsOwningColumn (field_name Chain.next)) ([Sample.idInt] ++ []).
Proof.
  split; [reflexivity|]. split; [reflexivity|].
  intros [before [x [after [Heq [Hlists _]]]]].
  destruct before as [|b before]; simpl in Heq.
  - inversion Heq; subst x. apply referencesAsFkB_iff in Hlists. discriminate.
  - inversion Heq as [[Hb Hrest]]. destruct before; discriminate.
Qed.

(** Outside the amended claim: a relation attribute without an argument list
    anywhere in the Record-Type makes [isFkFieldOfARelation] throw.  In
    [model Review { id Int @id  customerId Int
                    customer Customer @relation(fields: [customerId], references: [id])
                    editor Customer @relation }]
    exactly one other field lists [customerId], and the call for [customerId]
    ends in a TypeError on [attr.args.some]. *)
Lemma isFkFieldOfARelation_bare_relation :
  ExactlyOne (listsAsOwningColumn (field_name Sample.customerId))
    ([Sample.idInt] ++ [Sample.customer; Reviews.editor])
  /\ isFkFieldOfARelation Reviews.schema Reviews.Review Sample.customerId
     = ([], Throw (undefinedRead "some")).
Proof.
  split; [|reflexivity].
  exists [Sample.idInt], Sample.customer, [Reviews.editor].
  split; [reflexivity|]. split; [now apply referencesAsFkB_iff|].
  split; repeat constructor; intros H; apply referencesAsFkB_iff in H; discriminate.
Qed.

(** Why the name must not be empty: [find] returns the name it found and
    [some] reads it as a truth value, so the one field that lists the empty
    name does not count. *)
Lemma isFkFieldOfARelation_empty_name :
  ExactlyOne (listsAsOwningColumn (field_name Reviews.unnamed))
    (fieldsOf (properties Reviews.Blank))
  /\ isFkFieldOfARelation Reviews.schema Reviews.Blank Reviews.unnamed
     = ([], Ok false).
Proof.
  split; [|reflexivity].
  exists [Sample.idInt; Reviews.unnamed], Reviews.holder, [].
  split; [reflexivity|]. split; [now apply referencesAsFkB_iff|].
  split; repeat constructor; intros H; apply referencesAsFkB_iff in H; discriminate.
Qed.

(* ------------------------------------------------------------------ *)
(** ** Unannotated relation fields: isNotAnnotatedRelationField *)

Lemma relationWithStringArg_ok (attr : Attribute) :
  wellFormedAttribute attr ->
  exists answer,
    relationWithStringArg attr = Ok answer
    /\ (answer = true
        <-> attr_name attr = "relation"
            /\ exists args arg s,
                 attr_args attr = Some args /\ In arg args /\ arg_value arg = VString s).
Proof.
  intros Hwf. unfold relationWithStringArg.
  destruct (attr_name attr =? "relation") eqn:E.
  - apply String.eqb_eq in E. destruct (Hwf E) as [args [Hargs _]]. rewrite Hargs.
    eexists. split; [reflexivity|]. rewrite existsb_exists. split.
    + intros [arg [Harg Hs]]. split; [assumption|].
      destruct (arg_value arg) as [s| | | | |] eqn:Ev; try discriminate.
      exists args, arg, s. auto.
    + intros [_ [args' [arg [s [Hargs' [Harg Hs]]]]]].
      inversion Hargs'; subst args'. exists arg. split; [assumption|].
      now rewrite Hs.
  - exists false. split; [reflexivity|]. split; [discriminate|].
    intros [Hrel _]. apply String.eqb_neq in E. contradiction.
Qed.

Lemma someR_exists {A} (p : A -> result bool) (P : A -> Prop) (l : list A) :
  (forall x, In x l -> exists b, p x = Ok b /\ (b = true <-> P x)) ->
  exists answer, someR p l = Ok answer /\ (answer = true <-> exists x, In x l /\ P x).
Proof.
  induction l as [|a rest IH]; simpl; intros H.
  - exists false. split; [reflexivity|]. split; [discriminate|]. intros [x [[] _]].
  - destruct (H a (or_introl eq_refl)) as [b [Hb Hiff]]. rewrite Hb.
    destruct b.
    + exists true. split; [reflexivity|]. split; [|reflexivity].
      intros _. exists a. split; [now left | now apply Hiff].
    + destruct IH as [answer [Hanswer Hrest]].
      { intros x Hx. apply H. now right. }
      exists answer. split; [assumption|]. rewrite Hrest. split.
      * intros [x [Hx HP]]. exists x. split; [now right | assumption].
      * intros [x [[Hx|Hx] HP]].
        -- subst x. apply Hiff in HP. discriminate.
        -- exists x. auto.
Qed.

(** What [isNotAnnotatedRelationField] answers: the field's type matches a
    declared Record-Type, and the field either carries no relation attribute or
    carries one with a relation name.  Whether the relation attribute also has
    owning-side columns is not looked at. *)
Lemma isNotAnnotatedRelationField_answer (ext : Externals) (schema : Schema)
  (field : Field) :
  wellFormedField field ->
  exists answer,
    isNotAnnotatedRelationField ext schema field = Ok answer
    /\ (answer = true
        <-> matchesRecordTypeAsField ext schema (fieldType field)
            /\ (~ carries "relation" field \/ carriesNamedRelation field)).
Proof.
  intros Hwf. unfold isNotAnnotatedRelationField.
  assert (Hnamed : exists named,
             match attributes field with
             | Some attrs => someR relationWithStringArg attrs
             | None => Ok false
             end = Ok named
             /\ (named = true <-> carriesNamedRelation field)).
  { unfold carriesNamedRelation.
    destruct (attributes field) as [attrs|] eqn:E.
    - destruct (someR_exists relationWithStringArg
                  (fun attr => attr_name attr = "relation"
                     /\ exists args arg s, attr_args attr = Some args
                          /\ In arg args /\ arg_value arg = VString s) attrs)
        as [named [Hnamed Hiff]].
      { intros x Hx. apply relationWithStringArg_ok. exact (Hwf attrs x E Hx). }
      exists named. split; [assumption|]. rewrite Hiff. split.
      + intros [attr [Hattr [Hrel [args [arg [s [Hargs [Harg Hs]]]]]]]].
        exists attrs, attr, args, arg, s. auto 10.
      + intros [attrs' [attr [args [arg [s [Hattrs [Hattr [Hrel [Hargs [Harg Hs]]]]]]]]]].
        inversion Hattrs; subst attrs'. exists attr. split; [assumption|].
        split; [assumption|]. exists args, arg, s. auto.
    - exists false. split; [reflexivity|]. split; [discriminate|].
      intros [attrs [attr [args [arg [s [Hattrs _]]]]]]. discriminate. }
  destruct Hnamed as [named [-> Hnamed]]. simpl.
  destruct (find _ (modelsOf (list_ schema))) as [m|] eqn:Efind.
  - apply find_some in Efind. destruct Efind as [Hin Heq].
    assert (Hmatch : matchesRecordTypeAsField ext schema (fieldType field)).
    { exists m. split; [now apply In_modelsOf | now apply String.eqb_eq]. }
    destruct (hasAttribute "relation" field) eqn:Erel; simpl.
    + destruct named.
      * exists true. split; [reflexivity|]. split; [|reflexivity].
        intros _. split; [assumption|]. right. now apply Hnamed.
      * exists false. split; [reflexivity|]. split; [discriminate|].
        intros [_ [Hno|Hyes]].
        -- exfalso. apply Hno. now apply hasAttribute_carries.
        -- apply Hnamed in Hyes. discriminate.
    + exists true. split; [reflexivity|]. split; [|reflexivity].
      intros _. split; [assumption|]. left. intros C.
      apply hasAttribute_carries in C. rewrite C in Erel. discriminate.
  - exists false. split; [reflexivity|]. split; [discriminate|].
    intros [[m [Hin Heq]] _]. rewrite find_none_iff in Efind.
    specialize (Efind m (proj2 (In_modelsOf m _) Hin)). cbv beta in Efind.
    rewrite Heq, String.eqb_refl in Efind. discriminate.
Qed.

Lemma posts_wellFormed : wellFormedField Sample.posts.
Proof.
  intros attrs attr Hattrs Hattr Hrel. simpl in Hattrs.
  inversion Hattrs; subst attrs. simpl in Hattr. each_member Hattr.
  eexists. split; [reflexivity|]. intros arg value Harg Hvalue.
  simpl in Harg. each_member Harg. simpl in Hvalue. discriminate.
Qed.

(** The answer lemma at [posts Post[] @relation("author")]. *)
Lemma isNotAnnotatedRelationField_answer_witness :
  exists answer,
    isNotAnnotatedRelationField Sample.plain Sample.blogSchema Sample.posts = Ok answer
    /\ (answer = true
        <-> matchesRecordTypeAsField Sample.plain Sample.blogSchema
              (fieldType Sample.posts)
            /\ (~ carries "relation" Sample.posts
                \/ carriesNamedRelation Sample.posts)).
Proof.
  apply (isNotAnnotatedRelationField_answer Sample.plain Sample.blogSchema Sample.posts).
  exact posts_wellFormed.
Defined.

(** C8, on the code.  [author User @relation("author", fields: [authorId],
    references: [id])] has explicit owning-side columns, and
    [isNotAnnotatedRelationField] answers true for it; the conversion of the
    schema emits no descriptor for it, nor for [posts] on the other side. *)
Theorem isNotAnnotatedRelationField_owning_side :
  listsAsOwningColumn "authorId" Sample.author
  /\ isNotAnnotatedRelationField Sample.plain Sample.blogSchema Sample.author = Ok true
  /\ Sample.outlineOf
       (convertPreparedSchemaForImportObjects Sample.plain Sample.tokens Sample.blogSchema)
     = Ok [("User", ["id"]); ("Post", ["id"])].
Proof.
  split; [|split; reflexivity].
  apply referencesAsFkB_iff. reflexivity.
Qed.

(* ------------------------------------------------------------------ *)
(** ** Remote field pairing: findRemoteRelatedModelAndField *)








(** C2, on the code.  In the named-relation case the first field of the remote
    Record-Type that carries the relation name is returned and nothing is
    thrown: with two such fields ([teacher] and [students] of [Person]) the
    result is the first, here the field itself; with none (no field of [User]
    carries the name "author") the result has no remote field, and it is
    [convertPrismaLookupToEntityField] that fails, with a TypeError. *)
Theorem findRemoteRelatedModelAndField_named_case :
  (carriesRelationNamed (quoted "TeacherStudents") Sample.teacher = Ok true
   /\ carriesRelationNamed (quoted "TeacherStudents") Sample.students = Ok true
   /\ findRemoteRelatedModelAndField Sample.plain Sample.personSchema
        Sample.Person Sample.teacher
      = ([], Ok (mkRemote Sample.Person (Some Sample.teacher))))
  /\ (findR (carriesRelationNamed (quoted "author"))
        (fieldsOf (properties Sample.Reader)) = Ok None
      /\ findRemoteRelatedModelAndField Sample.plain Sample.orphanSchema
           Sample.Post Sample.author
         = ([], Ok (mkRemote Sample.Reader None))
      /\ convertPrismaLookupToEntityField Sample.plain Sample.orphanSchema
           Sample.Post Sample.author
           (prepareEntities Sample.plain Sample.tokens 0
              (modelsOf (list_ Sample.orphanSchema)))
         = ([], Throw (undefinedRead "name"))).
Proof. repeat split; reflexivity. Qed.

(* ------------------------------------------------------------------ *)
(** ** Option sets *)

Lemma enumOptions_optionsOf (e : Enum) : enumOptions e = optionsOf e.
Proof.
  unfold enumOptions, optionsOf. apply map_ext.
  intros [enumerator|attribute|text|]; reflexivity.
Qed.

(** The OptionSet builder looks the Enumeration up by the canonical name of
    the field's declared type and builds one option from each entry of its
    block, in source order: label and value are the name of an enumerator, the
    name of a block attribute, and undefined for a comment or a line break.
    It throws when no Enumeration matches. *)
Lemma convertPrismaOptionSetToEntityField_options (ext : Externals) (schema : Schema)
  (model : Model) (field : Field) (preparedEntities : list Entity) (e : Enum) :
  findEntity (model_name model) preparedEntities <> None ->
  In (BEnum e) (list_ schema) ->
  enum_name e = fieldType field ->
  (forall e', In (BEnum e') (list_ schema) ->
              formatModelName ext (enum_name e') = formatModelName ext (fieldType field) ->
              e' = e) ->
  convertPrismaOptionSetToEntityField ext schema model field preparedEntities
  = ([], Ok (pushField (model_name model)
               (withProperties
                  (createOneEntityFieldCommonProperties ext field OptionSet)
                  (OptionSetProps
                     (map (fun entry =>
                             match entry with
                             | EEnumerator enumerator =>
                                 mkOption (Some (enumerator_name enumerator))
                                          (Some (enumerator_name enumerator))
                             | EAttribute attribute =>
                                 mkOption (Some (attr_name attribute))
                                          (Some (attr_name attribute))
                             | EComment _ => mkOption None None
                             | EBreak => mkOption None None
                             end)
                          (enumerators e))))
               preparedEntities)).
Proof.
  intros Hentity Hin Hname Hunique.
  unfold convertPrismaOptionSetToEntityField, requireEntity.
  destruct (findEntity (model_name model) preparedEntities); [|congruence].
  simpl.
  destruct (find _ (enumsOf (list_ schema))) as [e'|] eqn:E.
  - apply find_some in E. destruct E as [Hin' Heq].
    apply String.eqb_eq in Heq. apply In_enumsOf in Hin'.
    rewrite (Hunique e' Hin' Heq), enumOptions_optionsOf. reflexivity.
  - exfalso. rewrite find_none_iff in E.
    specialize (E e (proj2 (In_enumsOf e _) Hin)). cbv beta in E.
    rewrite Hname, String.eqb_refl in E. discriminate.
Qed.

Lemma convertPrismaOptionSetToEntityField_not_found (ext : Externals) (schema : Schema)
  (model : Model) (field : Field) (preparedEntities : list Entity) :
  findEntity (model_name model) preparedEntities <> None ->
  (forall e, In (BEnum e) (list_ schema) ->
             formatModelName ext (enum_name e) <> formatModelName ext (fieldType field)) ->
  convertPrismaOptionSetToEntityField ext schema model field preparedEntities
  = ([LogError ("Enum " ++ field_name field ++ " not found")],
     Throw (Error ("Enum " ++ field_name field ++ " not found"))).
Proof.
  intros Hentity Hnone.
  unfold convertPrismaOptionSetToEntityField, requireEntity.
  destruct (findEntity (model_name model) preparedEntities); [|congruence].
  simpl.
  destruct (find _ (enumsOf (list_ schema))) as [e'|] eqn:E; [|reflexivity].
  exfalso. apply find_some in E. destruct E as [Hin' Heq].
  apply String.eqb_eq in Heq. apply In_enumsOf in Hin'. exact (Hnone e' Hin' Heq).
Qed.

(** The options lemma at [role Role] of [Account]: the comment, the line
    break and the block attribute of [Role] give options too. *)
Lemma convertPrismaOptionSetToEntityField_options_witness :
  convertPrismaOptionSetToEntityField Sample.plain Roles.schema
    Roles.Account Roles.role
    (prepareEntities Sample.plain Sample.tokens 0 (modelsOf (list_ Roles.schema)))
  = ([], Ok (pushField (model_name Roles.Account)
               (withProperties
                  (createOneEntityFieldCommonProperties Sample.plain Roles.role OptionSet)
                  (OptionSetProps
                     (map (fun entry =>
                             match entry with
                             | EEnumerator enumerator =>
                                 mkOption (Some (enumerator_name enumerator))
                                          (Some (enumerator_name enumerator))
                             | EAttribute attribute =>
                                 mkOption (Some (attr_name attribute))
                                          (Some (attr_name attribute))
                             | EComment _ => mkOption None None
                             | EBreak => mkOption None None
                             end)
                          (enumerators Roles.Role))))
               (prepareEntities Sample.plain Sample.tokens 0
                  (modelsOf (list_ Roles.schema))))).
Proof.
  apply (convertPrismaOptionSetToEntityField_options Sample.plain Roles.schema
           Roles.Account Roles.role
           (prepareEntities Sample.plain Sample.tokens 0
              (modelsOf (list_ Roles.schema)))
           Roles.Role).
  - discriminate.
  - left. reflexivity.
  - reflexivity.
  - intros e' Hin _. simpl in Hin. destruct Hin as [H|[H|[]]].
    + now inversion H.
    + discriminate.
Defined.

(** The MultiSelectOptionSet builder reads the field's name, never its
    declared type: it throws when no Enumeration is named as the field, and
    otherwise takes the options of the first Enumeration named as the field. *)
Lemma convertPrismaMultiSelectOptionSetToEntityField_not_found (ext : Externals)
  (schema : Schema) (model : Model) (field : Field) (preparedEntities : list Entity) :
  findEntity (model_name model) preparedEntities <> None ->
  (forall e, In (BEnum e) (list_ schema) -> enum_name e <> field_name field) ->
  convertPrismaMultiSelectOptionSetToEntityField ext schema model field preparedEntities
  = ([LogError ("Enum " ++ field_name field ++ " not found")],
     Throw (Error ("Enum " ++ field_name field ++ " not found"))).
Proof.
  intros Hentity Hnone.
  unfold convertPrismaMultiSelectOptionSetToEntityField, requireEntity.
  destruct (findEntity (model_name model) preparedEntities); [|congruence].
  simpl.
  destruct (find _ (enumsOf (list_ schema))) as [e'|] eqn:E; [|reflexivity].
  exfalso. apply find_some in E. destruct E as [Hin' Heq].
  apply String.eqb_eq in Heq. apply In_enumsOf in Hin'. exact (Hnone e' Hin' Heq).
Qed.

(** The not-found lemma at [history Status[]] of [Task]. *)
Lemma convertPrismaMultiSelectOptionSetToEntityField_not_found_witness :
  convertPrismaMultiSelectOptionSetToEntityField Sample.plain Sample.taskSchema
    Sample.Task Sample.history
    (prepareEntities Sample.plain Sample.tokens 0 (modelsOf (list_ Sample.taskSchema)))
  = ([LogError ("Enum " ++ field_name Sample.history ++ " not found")],
     Throw (Error ("Enum " ++ field_name Sample.history ++ " not found"))).
Proof.
  apply (convertPrismaMultiSelectOptionSetToEntityField_not_found Sample.plain
           Sample.taskSchema Sample.Task Sample.history).
  - discriminate.
  - intros e Hin. simpl in Hin. destruct Hin as [H|[H|[]]].
    + inversion H. discriminate.
    + discriminate.
Defined.

(** C4, on the code.  [history Status[]] names the declared Enumeration
    [Status]; the MultiSelectOptionSet builder looks for an Enumeration named
    as the field, [history], finds none and throws, while the OptionSet
    builder, given the same field, emits the options of [Status]. *)
Theorem convertPrismaMultiSelectOptionSetToEntityField_by_field_name :
  declaresEnum Sample.taskSchema (fieldType Sample.history)
  /\ convertPrismaMultiSelectOptionSetToEntityField Sample.plain Sample.taskSchema
       Sample.Task Sample.history
       (prepareEntities Sample.plain Sample.tokens 0 (modelsOf (list_ Sample.taskSchema)))
     = ([LogError "Enum history not found"], Throw (Error "Enum history not found"))
  /\ exists entity descriptor,
       convertPrismaOptionSetToEntityField Sample.plain Sample.taskSchema
         Sample.Task Sample.history
         (prepareEntities Sample.plain Sample.tokens 0 (modelsOf (list_ Sample.taskSchema)))
       = ([], Ok [entity])
       /\ e_fields entity = [descriptor]
       /\ ef_properties descriptor
          = OptionSetProps [mkOption (Some "Active") (Some "Active");
                            mkOption (Some "Inactive") (Some "Inactive")].
Proof.
  split; [exact taskSchema_declares_Status|]. split; [reflexivity|].
  eexists. eexists. split; [reflexivity|]. split; reflexivity.
Qed.

(* ------------------------------------------------------------------ *)
(** ** Primary-key normalization: handleIdField *)

(** For any Record-Type name and field type, the lone field [id] without the
    primary-key attribute is renamed [<RecordTypeName>Id], and the mapping
    attribute it receives holds that new name. *)
Lemma handleIdField_single_field (modelName type : string) (isArray isOptional : option bool) :
  handleIdField
    (mkBuilder
       (mkSchema [BModel (mkModel modelName
                            [PField (mkField "id" type isArray isOptional None)])])
       NoSubject)
  = ([], Ok (mkBuilder
               (mkSchema
                  [BModel (mkModel modelName
                     [PField (mkField (modelName ++ "Id") type isArray isOptional
                                (Some [mkAttribute "field" "map"
                                         (Some [mkArg (VString
                                                  (quoted (modelName ++ "Id")))])]))])])
               (FieldSubject 0 0))).
Proof.
  unfold handleIdField, ret. simpl.
  unfold normalizeIdFieldsOfModel. simpl.
  unfold normalizeIdField. simpl.
  unfold BuilderOps.model. simpl. rewrite String.eqb_refl. simpl.
  unfold BuilderOps.field. simpl.
  unfold BuilderOps.attribute. simpl.
  unfold BuilderOps.thenField. simpl.
  rewrite String.eqb_refl. simpl.
  reflexivity.
Qed.

(** C5, on the code.  In [model Token { id String  value String @id }] the
    field [id], which lacks the primary-key attribute, is renamed [TokenId] and
    receives [@map("TokenId")]: the mapping attribute holds the new name, and
    the name [id] it had is kept nowhere.  The field [value], which carries the
    primary-key attribute, is renamed [id] and receives [@map("value")]. *)
Theorem handleIdField_maps_the_new_name :
  handleIdField (mkBuilder Sample.tokenSchema NoSubject)
  = ([], Ok (mkBuilder Sample.tokenSchemaAfter (FieldSubject 0 1)))
  /\ findAttribute "map" Sample.tokenIdAfter
     = Some (Sample.withArgs "map" [VString (quoted "TokenId")])
  /\ findAttribute "map" Sample.tokenValueAfter
     = Some (Sample.withArgs "map" [VString (quoted "value")]).
Proof. repeat split; reflexivity. Qed.

(* ------------------------------------------------------------------ *)
(** ** The outcome monad *)

Lemma bind_ok_inv {A B} (m : M A) (k : A -> M B) (b : B) :
  snd (bind m k) = Ok b -> exists a, snd m = Ok a /\ snd (k a) = Ok b.
Proof.
  destruct m as [l [a|e]]; simpl; [|discriminate].
  destruct (k a) as [l2 r] eqn:E. simpl. intros H. exists a. now rewrite E.
Qed.

Lemma forEachM_invariant {A B} (I : A -> Prop) (body : A -> B -> M A)
  (items : list B) :
  (forall acc x acc', In x items -> I acc -> snd (body acc x) = Ok acc' -> I acc') ->
  forall acc r, I acc -> snd (forEachM body items acc) = Ok r -> I r.
Proof.
  induction items as [|x rest IH]; simpl; intros Hbody acc r Hacc Hrun.
  - inversion Hrun. now subst.
  - apply bind_ok_inv in Hrun. destruct Hrun as [acc' [Hstep Hrest]].
    apply (IH (fun a y a' Hy => Hbody a y a' (or_intror Hy)) acc' r); [|assumption].
    exact (Hbody acc x acc' (or_introl eq_refl) Hacc Hstep).
Qed.

(* ------------------------------------------------------------------ *)
(** ** The [required] property of a descriptor *)

Lemma createOneEntityFieldCommonProperties_required (ext : Externals) (field : Field)
  (fieldDataType : EnumDataType) :
  ef_required (createOneEntityFieldCommonProperties ext field fieldDataType)
  = orFalse (optional field)
  /\ ef_name (createOneEntityFieldCommonProperties ext field fieldDataType)
     = field_name field.
Proof. split; reflexivity. Qed.

Section BuiltFrom.
Variable ext : Externals.
Variable schema : Schema.
Variable model : Model.
Variable field : Field.
Hypothesis model_declared : In (BModel model) (list_ schema).
Hypothesis field_declared : In (PField field) (properties model).

Lemma pushField_allBuiltFrom (es es' : list Entity) :
  allBuiltFrom schema es -> pushesField model field es es' -> allBuiltFrom schema es'.
Proof.
  intros Hes [descriptor [-> [Hname Hrequired]]].
  induction es as [|e rest IH]; simpl; [intros ? ? []|].
  destruct (e_name e =? model_name model) eqn:E.
  - intros entity d [<-|Hin] Hd.
    + simpl in Hd. apply in_app_or in Hd. destruct Hd as [Hd|[<-|[]]].
      * exact (Hes e d (or_introl eq_refl) Hd).
      * simpl. apply String.eqb_eq in E. exists model, field. auto.
    + exact (Hes entity d (or_intror Hin) Hd).
  - intros entity d [<-|Hin] Hd.
    + exact (Hes e d (or_introl eq_refl) Hd).
    + apply IH; [|assumption|assumption].
      intros entity' d' Hin' Hd'. exact (Hes entity' d' (or_intror Hin') Hd').
Qed.

Ltac split_run H :=
  repeat match type of H with
         | context [match ?x with _ => _ end] => destruct x eqn:?
         | context [if ?x then _ else _] => destruct x eqn:?
         end;
  simpl in H; try discriminate.

Ltac pushed H :=
  inversion H; subst; eexists; split; [reflexivity|]; split; reflexivity.

Lemma convertCommon_pushes (dataType : EnumDataType) (es es' : list Entity) :
  snd (convertCommon ext model field es dataType) = Ok es' -> pushesField model field es es'.
Proof.
  unfold convertCommon, requireEntity. intros H.
  destruct (findEntity (model_name model) es); simpl in H; [|discriminate].
  pushed H.
Qed.

Lemma convertWith_pushes (dataType : EnumDataType) (props : Properties)
  (es es' : list Entity) :
  snd (convertWith ext model field es dataType props) = Ok es' -> pushesField model field es es'.
Proof.
  unfold convertWith, requireEntity. intros H.
  destruct (findEntity (model_name model) es); simpl in H; [|discriminate].
  pushed H.
Qed.

Lemma convertPrismaIdToEntityField_pushes (es es' : list Entity) :
  snd (convertPrismaIdToEntityField ext model field es) = Ok es' -> pushesField model field es es'.
Proof.
  unfold convertPrismaIdToEntityField, requireEntity. intros H.
  destruct (findEntity (model_name model) es); simpl in H; [|discriminate].
  destruct (findAttribute "default" field) as [attribute|]; simpl in H.
  - destruct (attr_args attribute) as [[|arg args]|]; simpl in H;
      try discriminate; pushed H.
  - pushed H.
Qed.

Lemma convertPrismaOptionSetToEntityField_pushes (es es' : list Entity) :
  snd (convertPrismaOptionSetToEntityField ext schema model field es) = Ok es' ->
  pushesField model field es es'.
Proof.
  unfold convertPrismaOptionSetToEntityField, requireEntity. intros H.
  destruct (findEntity (model_name model) es); simpl in H; [|discriminate].
  destruct (find _ (enumsOf (list_ schema))); simpl in H; [|discriminate].
  pushed H.
Qed.

Lemma convertPrismaMultiSelectOptionSetToEntityField_pushes (es es' : list Entity) :
  snd (convertPrismaMultiSelectOptionSetToEntityField ext schema model field es) = Ok es' ->
  pushesField model field es es'.
Proof.
  unfold convertPrismaMultiSelectOptionSetToEntityField, requireEntity. intros H.
  destruct (findEntity (model_name model) es); simpl in H; [|discriminate].
  destruct (find _ (enumsOf (list_ schema))); simpl in H; [|discriminate].
  pushed H.
Qed.

Lemma convertPrismaLookupToEntityField_pushes (es es' : list Entity) :
  snd (convertPrismaLookupToEntityField ext schema model field es) = Ok es' ->
  pushesField model field es es'.
Proof.
  unfold convertPrismaLookupToEntityField, requireEntity. intros H.
  destruct (findEntity (model_name model) es) as [entity|]; simpl in H; [|discriminate].
  destruct (findRemoteRelatedModelAndField ext schema model field)
    as [logged [[remote [remoteField|]]|e]]; simpl in H; try discriminate.
  destruct (findEntity (model_name remote) es) as [related|]; simpl in H; [|discriminate].
  pushed H.
Qed.

Lemma whenDataType_allBuiltFrom (dataType : EnumDataType)
  (convert : list Entity -> M (list Entity)) (es es' : list Entity) :
  (forall a a', snd (convert a) = Ok a' -> pushesField model field a a') ->
  allBuiltFrom schema es ->
  snd (whenDataType ext schema field dataType convert es) = Ok es' ->
  allBuiltFrom schema es'.
Proof.
  intros Hconvert Hes H. unfold whenDataType in H.
  destruct (isDataType ext schema field dataType) as [[|]|e]; simpl in H;
    try discriminate.
  - destruct (convert es) as [logged r] eqn:E. simpl in H. subst r.
    apply (pushField_allBuiltFrom es); [assumption|].
    apply Hconvert. now rewrite E.
  - inversion H. now subst.
Qed.

Lemma convertField_allBuiltFrom (es es' : list Entity) :
  allBuiltFrom schema es ->
  snd (convertField ext schema model field es) = Ok es' ->
  allBuiltFrom schema es'.
Proof.
  intros Hes H. unfold convertField in H.
  apply bind_ok_inv in H. destruct H as [isFk [_ H]].
  destruct isFk; [simpl in H; inversion H; now subst|].
  apply bind_ok_inv in H. destruct H as [isNotAnnotated [_ H]].
  destruct isNotAnnotated; [simpl in H; inversion H; now subst|].
  repeat (apply bind_ok_inv in H;
          let a := fresh "es" in
          let Ha := fresh "Hstep" in
          destruct H as [a [Ha H]];
          eapply whenDataType_allBuiltFrom in Ha;
          [ | first [ apply convertCommon_pushes | apply convertWith_pushes
                    | apply convertPrismaIdToEntityField_pushes
                    | apply convertPrismaOptionSetToEntityField_pushes
                    | apply convertPrismaMultiSelectOptionSetToEntityField_pushes ]
            | eassumption ]).
  eapply whenDataType_allBuiltFrom in H;
    [eassumption | apply convertPrismaLookupToEntityField_pushes | eassumption].
Qed.

End BuiltFrom.

Lemma prepareEntities_no_fields (ext : Externals) (cuid : nat -> string)
  (modelList : list Model) (n : nat) (entity : Entity) :
  In entity (prepareEntities ext cuid n modelList) -> e_fields entity = [].
Proof.
  revert n. induction modelList as [|m rest IH]; simpl; intros n H; [contradiction|].
  destruct H as [<-|H]; [reflexivity | exact (IH (S n) H)].
Qed.

Lemma convertPreparedSchemaForImportObjects_allBuiltFrom (ext : Externals)
  (cuid : nat -> string) (schema : Schema) (entities : list Entity) :
  snd (convertPreparedSchemaForImportObjects ext cuid schema) = Ok entities ->
  allBuiltFrom schema entities.
Proof.
  unfold convertPreparedSchemaForImportObjects.
  apply (forEachM_invariant (allBuiltFrom schema)).
  - intros es model es' Hmodel Hes. unfold convertModel.
    apply (forEachM_invariant (allBuiltFrom schema)); [|assumption].
    intros acc field acc' Hfield Hacc.
    apply (convertField_allBuiltFrom ext schema model field).
    + now apply In_modelsOf.
    + now apply In_fieldsOf.
    + assumption.
  - intros entity descriptor Hentity Hd.
    rewrite (prepareEntities_no_fields _ _ _ _ _ Hentity) in Hd. contradiction.
Qed.

(** C10.  Every FieldDescriptor the conversion emits was built from a field of
    the Record-Type its entity is named after, and its [required] property
    equals that field's [optional] flag: true when the field is declared
    optional, false when it is mandatory (the flag false or absent). *)
Theorem required_equals_optional (ext : Externals) (cuid : nat -> string)
  (schema : Schema) (entities : list Entity) (entity : Entity)
  (descriptor : EntityField) :
  snd (convertPreparedSchemaForImportObjects ext cuid schema) = Ok entities ->
  In entity entities ->
  In descriptor (e_fields entity) ->
  exists model field,
    In (BModel model) (list_ schema)
    /\ In (PField field) (properties model)
    /\ model_name model = e_name entity
    /\ ef_name descriptor = field_name field
    /\ ef_required descriptor
       = match optional field with
         | Some true => true
         | Some false => false
         | None => false
         end
    /\ (ef_required descriptor = true <-> optional field = Some true).
Proof.
  intros Hrun Hentity Hdescriptor.
  destruct (convertPreparedSchemaForImportObjects_allBuiltFrom ext cuid schema entities
              Hrun entity descriptor Hentity Hdescriptor)
    as [model [field [Hmodel [Hfield [Hname [Hfname Hrequired]]]]]].
  exists model, field. repeat split; try assumption.
  - rewrite Hrequired. destruct (optional field) as [[|]|]; reflexivity.
  - rewrite Hrequired. destruct (optional field) as [[|]|]; simpl; congruence.
  - rewrite Hrequired. intros ->. reflexivity.
Qed.

(** Witness of C10: the descriptor of [note String?] in the conversion of
    [model Memo { id Int @id  note String? }]. *)
Lemma required_equals_optional_witness :
  exists model field,
    In (BModel model) (list_ Sample.memoSchema)
    /\ In (PField field) (properties model)
    /\ model_name model = e_name Sample.memoEntity
    /\ ef_name Sample.noteDescriptor = field_name field
    /\ ef_required Sample.noteDescriptor
       = match optional field with
         | Some true => true
         | Some false => false
         | None => false
         end
    /\ (ef_required Sample.noteDescriptor = true <-> optional field = Some true).
Proof.
  apply (required_equals_optional Sample.plain Sample.tokens Sample.memoSchema
           [Sample.memoEntity] Sample.memoEntity Sample.noteDescriptor).
  - reflexivity.
  - left. reflexivity.
  - right. left. reflexivity.
Defined.

(* ------------------------------------------------------------------ *)
(** ** Generated identifiers do not influence the conversion *)

Lemma eraseRun_bind {A} (m : M A) (k1 k2 : A -> M (list Entity)) :
  (forall a, eraseRun (k1 a) = eraseRun (k2 a)) ->
  eraseRun (bind m k1) = eraseRun (bind m k2).
Proof.
  intros H. destruct m as [l [a|e]]; simpl; [|reflexivity].
  specialize (H a). destruct (k1 a) as [l1 r1], (k2 a) as [l2 r2].
  unfold eraseRun in *. simpl in *. inversion H. reflexivity.
Qed.

Lemma respectsIds_ret : respectsIds (fun es => ret es).
Proof. intros es1 es2 H. unfold eraseRun, ret. simpl. now rewrite H. Qed.

Lemma respectsIds_bind_const {A} (m : M A) (k : A -> list Entity -> M (list Entity)) :
  (forall a, respectsIds (k a)) ->
  respectsIds (fun es => bind m (fun a => k a es)).
Proof.
  intros H es1 es2 Hsame. apply eraseRun_bind. intros a. now apply H.
Qed.

Lemma respectsIds_bind (f g : list Entity -> M (list Entity)) :
  respectsIds f -> respectsIds g -> respectsIds (fun es => bind (f es) g).
Proof.
  intros Hf Hg es1 es2 Hsame. specialize (Hf es1 es2 Hsame).
  destruct (f es1) as [l1 [a1|e1]], (f es2) as [l2 [a2|e2]];
    unfold eraseRun in Hf; simpl in Hf; inversion Hf; subst; try reflexivity.
  specialize (Hg a1 a2 H1).
  simpl. destruct (g a1) as [l1' r1], (g a2) as [l2' r2].
  unfold eraseRun in *. simpl in *. inversion Hg. reflexivity.
Qed.

Lemma respectsIds_forEachM {B} (body : list Entity -> B -> M (list Entity))
  (items : list B) :
  (forall x, respectsIds (fun es => body es x)) ->
  respectsIds (forEachM body items).
Proof.
  intros H. induction items as [|x rest IH]; simpl.
  - apply respectsIds_ret.
  - apply (respectsIds_bind (fun es => body es x) (forEachM body rest)); auto.
Qed.

Lemma eraseEntity_name (a b : Entity) :
  eraseEntity a = eraseEntity b -> e_name a = e_name b.
Proof. intros H. exact (f_equal e_name H). Qed.

Lemma sameButIds_cons (a b : Entity) (rest1 rest2 : list Entity) :
  sameButIds (a :: rest1) (b :: rest2) ->
  eraseEntity a = eraseEntity b /\ sameButIds rest1 rest2.
Proof.
  unfold sameButIds. intros H. split.
  - exact (f_equal (fun l => hd (eraseEntity a) l) H).
  - exact (f_equal (@tl Entity) H).
Qed.

Lemma sameButIds_nil (es1 es2 : list Entity) :
  sameButIds es1 es2 -> (es1 = [] <-> es2 = []).
Proof.
  unfold sameButIds. destruct es1, es2; simpl; intros H;
    try discriminate; split; intros; congruence.
Qed.

Lemma findEntity_sameButIds (name : string) (es1 es2 : list Entity) :
  sameButIds es1 es2 ->
  match findEntity name es1, findEntity name es2 with
  | Some _, Some _ | None, None => True
  | _, _ => False
  end.
Proof.
  unfold findEntity. revert es2.
  induction es1 as [|a rest IH]; intros [|b rest2] H;
    try (apply sameButIds_nil in H; destruct H as [H1 H2];
         first [specialize (H1 eq_refl) | specialize (H2 eq_refl)]; discriminate).
  - exact I.
  - apply sameButIds_cons in H. destruct H as [Hhead Htail]. simpl.
    rewrite (eraseEntity_name a b Hhead).
    destruct (e_name b =? name); [exact I|]. now apply IH.
Qed.

Lemma eraseEntity_pushTo (entity : Entity) (descriptor : EntityField) :
  eraseEntity (pushTo entity descriptor)
  = pushTo (eraseEntity entity) (eraseDescriptor descriptor).
Proof. unfold eraseEntity, pushTo. simpl. now rewrite map_app. Qed.

Lemma pushField_sameButIds (name : string) (d1 d2 : EntityField)
  (es1 es2 : list Entity) :
  sameButIds es1 es2 -> eraseDescriptor d1 = eraseDescriptor d2 ->
  sameButIds (pushField name d1 es1) (pushField name d2 es2).
Proof.
  intros H Hd. revert es2 H.
  induction es1 as [|a rest IH]; intros [|b rest2] H;
    try (apply sameButIds_nil in H; destruct H as [H1 H2];
         first [specialize (H1 eq_refl) | specialize (H2 eq_refl)]; discriminate).
  - reflexivity.
  - apply sameButIds_cons in H. destruct H as [Hhead Htail]. simpl.
    rewrite (eraseEntity_name a b Hhead). unfold sameButIds in *.
    destruct (e_name b =? name); cbn [map].
    + now rewrite !eraseEntity_pushTo, Hhead, Hd, Htail.
    + now rewrite (IH rest2 Htail), Hhead.
Qed.

Lemma requireEntity_sameButIds (model : Model) (es1 es2 : list Entity) :
  sameButIds es1 es2 -> requireEntity model es1 = requireEntity model es2.
Proof.
  intros H. unfold requireEntity.
  pose proof (findEntity_sameButIds (model_name model) es1 es2 H) as Hfind.
  destruct (findEntity (model_name model) es1), (findEntity (model_name model) es2);
    try contradiction; reflexivity.
Qed.

(** A builder that checks the entity and pushes a descriptor that does not
    depend on the prepared entities. *)
Lemma respectsIds_push (model : Model) (pushed : M EntityField) :
  respectsIds (fun es =>
    bind (requireEntity model es) (fun _ =>
      bind pushed (fun descriptor =>
        ret (pushField (model_name model) descriptor es)))).
Proof.
  intros es1 es2 H. rewrite (requireEntity_sameButIds model es1 es2 H).
  apply eraseRun_bind. intros _. apply eraseRun_bind. intros descriptor.
  unfold eraseRun, ret. simpl.
  now rewrite (pushField_sameButIds (model_name model) descriptor descriptor es1 es2 H).
Qed.

Section RespectsIds.
Variable ext : Externals.
Variable schema : Schema.
Variable model : Model.
Variable field : Field.

Lemma convertCommon_respectsIds (dataType : EnumDataType) :
  respectsIds (fun es => convertCommon ext model field es dataType).
Proof.
  intros es1 es2 H. unfold convertCommon.
  rewrite (requireEntity_sameButIds model es1 es2 H).
  apply eraseRun_bind. intros _. unfold eraseRun, ret. simpl.
  now rewrite (pushField_sameButIds (model_name model) _ _ es1 es2 H eq_refl).
Qed.

Lemma convertWith_respectsIds (dataType : EnumDataType) (props : Properties) :
  respectsIds (fun es => convertWith ext model field es dataType props).
Proof.
  intros es1 es2 H. unfold convertWith.
  rewrite (requireEntity_sameButIds model es1 es2 H).
  apply eraseRun_bind. intros _. unfold eraseRun, ret. simpl.
  now rewrite (pushField_sameButIds (model_name model) _ _ es1 es2 H eq_refl).
Qed.

Lemma convertPrismaIdToEntityField_respectsIds :
  respectsIds (convertPrismaIdToEntityField ext model field).
Proof.
  unfold convertPrismaIdToEntityField. apply respectsIds_push.
Qed.

Lemma convertPrismaOptionSetToEntityField_respectsIds :
  respectsIds (convertPrismaOptionSetToEntityField ext schema model field).
Proof.
  intros es1 es2 H. unfold convertPrismaOptionSetToEntityField.
  rewrite (requireEntity_sameButIds model es1 es2 H).
  apply eraseRun_bind. intros _.
  destruct (find _ (enumsOf (list_ schema))); [|reflexivity].
  unfold eraseRun, ret. simpl.
  now rewrite (pushField_sameButIds (model_name model) _ _ es1 es2 H eq_refl).
Qed.

Lemma convertPrismaMultiSelectOptionSetToEntityField_respectsIds :
  respectsIds (convertPrismaMultiSelectOptionSetToEntityField ext schema model field).
Proof.
  intros es1 es2 H. unfold convertPrismaMultiSelectOptionSetToEntityField.
  rewrite (requireEntity_sameButIds model es1 es2 H).
  apply eraseRun_bind. intros _.
  destruct (find _ (enumsOf (list_ schema))); [|reflexivity].
  unfold eraseRun, ret. simpl.
  now rewrite (pushField_sameButIds (model_name model) _ _ es1 es2 H eq_refl).
Qed.

Lemma convertPrismaLookupToEntityField_respectsIds :
  respectsIds (convertPrismaLookupToEntityField ext schema model field).
Proof.
  intros es1 es2 H. unfold convertPrismaLookupToEntityField.
  rewrite (requireEntity_sameButIds model es1 es2 H).
  apply eraseRun_bind. intros _. apply eraseRun_bind. intros remote.
  destruct (remoteField remote) as [remoteField|]; [|reflexivity].
  pose proof (findEntity_sameButIds (model_name (remoteModel remote)) es1 es2 H)
    as Hrelated.
  destruct (findEntity (model_name (remoteModel remote)) es1) as [related1|],
           (findEntity (model_name (remoteModel remote)) es2) as [related2|];
    try contradiction; [|reflexivity].
  unfold eraseRun, ret. simpl. do 2 f_equal.
  apply pushField_sameButIds; [assumption | reflexivity].
Qed.

Lemma whenDataType_respectsIds (dataType : EnumDataType)
  (convert : list Entity -> M (list Entity)) :
  respectsIds convert ->
  respectsIds (whenDataType ext schema field dataType convert).
Proof.
  intros Hconvert. unfold whenDataType.
  apply (respectsIds_bind_const (lift (isDataType ext schema field dataType))
           (fun matches es => if matches then convert es else ret es)).
  intros [|]; [exact Hconvert | apply respectsIds_ret].
Qed.

Lemma convertField_respectsIds :
  respectsIds (convertField ext schema model field).
Proof.
  unfold convertField.
  apply (respectsIds_bind_const (isFkFieldOfARelation schema model field)).
  intros [|].
  - apply (respectsIds_bind_const (log _) (fun _ es => ret es)).
    intros _. apply respectsIds_ret.
  - apply (respectsIds_bind_const (lift (isNotAnnotatedRelationField ext schema field))).
    intros [|].
    + apply (respectsIds_bind_const (log _) (fun _ es => ret es)).
      intros _. apply respectsIds_ret.
    + repeat (apply respectsIds_bind; [apply whenDataType_respectsIds|]);
        try apply whenDataType_respectsIds;
        first [ apply convertCommon_respectsIds | apply convertWith_respectsIds
              | apply convertPrismaIdToEntityField_respectsIds
              | apply convertPrismaOptionSetToEntityField_respectsIds
              | apply convertPrismaMultiSelectOptionSetToEntityField_respectsIds
              | apply convertPrismaLookupToEntityField_respectsIds ].
Qed.

End RespectsIds.

Lemma prepareEntities_sameButIds (ext : Externals) (cuid1 cuid2 : nat -> string)
  (modelList : list Model) (n1 n2 : nat) :
  sameButIds (prepareEntities ext cuid1 n1 modelList)
             (prepareEntities ext cuid2 n2 modelList).
Proof.
  unfold sameButIds. revert n1 n2.
  induction modelList as [|m rest IH]; simpl; intros n1 n2; [reflexivity|].
  now rewrite (IH (S n1) (S n2)).
Qed.

Lemma convertPreparedSchemaForImportObjects_respectsIds (ext : Externals)
  (cuid1 cuid2 : nat -> string) (schema : Schema) :
  eraseRun (convertPreparedSchemaForImportObjects ext cuid1 schema)
  = eraseRun (convertPreparedSchemaForImportObjects ext cuid2 schema).
Proof.
  unfold convertPreparedSchemaForImportObjects.
  apply (respectsIds_forEachM (convertModel ext schema)).
  - intros model. unfold convertModel.
    apply (respectsIds_forEachM
             (fun es field => convertField ext schema model field es)).
    intros field. apply convertField_respectsIds.
  - apply prepareEntities_sameButIds.
Qed.

(** C9.  Two runs of the conversion on the same schema text, whatever tokens
    the identifier generator hands out in each, log the same entries and end
    alike: either both throw the same exception, or both return a list of
    entities, and the two lists are identical once the entity ids and the
    relatedEntityId values are blanked. *)
Theorem convertPrismaSchemaForImportObjects_identical_except_ids (ext : Externals)
  (cuid1 cuid2 : nat -> string) (schema : string) :
  eraseRun (convertPrismaSchemaForImportObjects ext cuid1 schema)
  = eraseRun (convertPrismaSchemaForImportObjects ext cuid2 schema).
Proof.
  unfold convertPrismaSchemaForImportObjects.
  apply eraseRun_bind. intros preparedSchema.
  apply convertPreparedSchemaForImportObjects_respectsIds.
Qed.

(* ------------------------------------------------------------------ *)
(** * Further properties *)

(** ** The classifier, predicate by predicate *)

Lemma find_model_matches (ext : Externals) (schema : Schema) (type : string) :
  (exists m, find (fun model => formatModelName ext (model_name model)
                                =? formatModelName ext type)
                  (modelsOf (list_ schema)) = Some m)
  <-> matchesRecordType ext schema type.
Proof.
  split.
  - intros [m H]. apply find_some in H. destruct H as [Hin Heq].
    exists m. split; [now apply In_modelsOf | now apply String.eqb_eq].
  - intros [m [Hin Heq]].
    destruct (find _ (modelsOf (list_ schema))) as [m'|] eqn:E; [eauto|].
    exfalso. rewrite find_none_iff in E.
    specialize (E m (proj2 (In_modelsOf m _) Hin)). cbv beta in E.
    rewrite Heq, String.eqb_refl in E. discriminate.
Qed.

Lemma find_enum_declared (schema : Schema) (type : string) :
  (exists e, find (fun enumItem => enum_name enumItem =? type)
                  (enumsOf (list_ schema)) = Some e)
  <-> declaresEnum schema type.
Proof.
  split.
  - intros [e H]. apply find_some in H. destruct H as [Hin Heq].
    exists e. split; [now apply In_enumsOf | now apply String.eqb_eq].
  - intros [e [Hin Heq]].
    destruct (find _ (enumsOf (list_ schema))) as [e'|] eqn:E; [eauto|].
    exfalso. rewrite find_none_iff in E.
    specialize (E e (proj2 (In_enumsOf e _) Hin)). cbv beta in E.
    rewrite Heq, String.eqb_refl in E. discriminate.
Qed.

Lemma find_split {A} (p : A -> bool) (l : list A) (x : A) :
  find p l = Some x ->
  exists before after,
    l = before ++ x :: after /\ p x = true /\ Forall (fun a => p a = false) before.
Proof.
  induction l as [|a rest IH]; simpl; [discriminate|].
  destruct (p a) eqn:E.
  - intros H. inversion H; subst. exists [], rest. repeat split; auto.
  - intros H. destruct (IH H) as [before [after [-> [Hx Hb]]]].
    exists (a :: before), after. repeat split; auto.
Qed.

Lemma findAttribute_firstCarried (name : string) (field : Field) (attr : Attribute) :
  findAttribute name field = Some attr <-> firstCarried name field attr.
Proof.
  split; [|apply findAttribute_first].
  unfold findAttribute, firstCarried.
  destruct (attributes field) as [attrs|]; [|discriminate].
  intros H. apply find_split in H. destruct H as [before [after [-> [Hx Hb]]]].
  exists before, after. split; [reflexivity|]. split; [now apply String.eqb_eq|].
  eapply Forall_impl; [|exact Hb]. intros a Ha. now apply String.eqb_neq.
Qed.

Lemma nowArg_iff (attr : Attribute) :
  nowArg (Some attr) = true <-> hasNowArgument attr.
Proof.
  split; [|apply nowArg_hasNowArgument].
  unfold nowArg, hasNowArgument.
  destruct (attr_args attr) as [args|]; [|discriminate].
  intros H. apply existsb_exists in H. destruct H as [arg [Hin Hnow]].
  unfold isNowArg, funcName in Hnow.
  destruct (arg_value arg) as [s|n|b|f ps|cols|key value] eqn:E; try discriminate.
  apply String.eqb_eq in Hnow. subst f. exists args, arg, ps. auto.
Qed.

Lemma nowArg_defaultsToNow (field : Field) :
  nowArg (findAttribute "default" field) = true <-> defaultsToNow field.
Proof.
  unfold defaultsToNow. split.
  - destruct (findAttribute "default" field) as [attr|] eqn:E; [|discriminate].
    intros H. exists attr. split; [now apply findAttribute_firstCarried | now apply nowArg_iff].
  - intros [attr [Hfirst Hnow]]. apply findAttribute_firstCarried in Hfirst.
    rewrite Hfirst. now apply nowArg_iff.
Qed.

Lemma scalarType_table (field : Field) :
  scalarType field tt = Ok (scalarCategory (fieldType field)).
Proof.
  unfold scalarType, scalarCategory.
  repeat (destruct (_ =? _); [reflexivity|]). reflexivity.
Qed.

(** The classifier in closed form: the tests in the order it makes them. *)
Lemma resolveFieldDataType_closed_form (ext : Externals) (schema : Schema)
  (field : Field) :
  resolveFieldDataType ext schema field
  = if hasAttribute ID_ATTRIBUTE_NAME field then Ok (Some Id)
    else if hasAttribute "relation" field then Ok (Some Lookup)
    else match find (fun model => formatModelName ext (model_name model)
                                  =? formatModelName ext (fieldType field))
                    (modelsOf (list_ schema)) with
         | Some _ => Ok (Some Lookup)
         | None =>
             match find (fun enumItem => enum_name enumItem =? fieldType field)
                        (enumsOf (list_ schema)) with
             | Some _ => Ok (Some OptionSet)
             | None =>
                 if nowArg (findAttribute "default" field) then Ok (Some CreatedAt)
                 else if hasAttribute "updatedAt" field then Ok (Some UpdatedAt)
                 else match scalarCategory (fieldType field) with
                      | Some category => Ok (Some category)
                      | None => Throw (Error ("Unsupported data type: "
                                              ++ fieldType field))
                      end
             end
         end.
Proof.
  unfold resolveFieldDataType, fieldDataTypCases. simpl.
  unfold idType, lookupRelationType, lookupModelType.
  destruct (hasAttribute ID_ATTRIBUTE_NAME field); [reflexivity|].
  destruct (hasAttribute "relation" field); [reflexivity|].
  destruct (find _ (modelsOf (list_ schema))); [reflexivity|].
  unfold optionSetType, multiSelectOptionSetType.
  destruct (find (fun enumItem => enum_name enumItem =? fieldType field) _) eqn:E;
    [reflexivity|].
  rewrite find_none_iff in E.
  replace (find _ (enumsOf (list_ schema))) with (@None Enum).
  - unfold createAtType, updatedAtType. rewrite scalarType_table.
    unfold unsupported.
    destruct (findAttribute "default" field) as [attr|].
    + destruct (nowArg (Some attr)); [reflexivity|].
      rewrite orb_false_r.
      destruct (hasAttribute "updatedAt" field); [reflexivity|].
      destruct (scalarCategory (fieldType field)); reflexivity.
    + simpl. rewrite orb_false_r.
      destruct (hasAttribute "updatedAt" field); [reflexivity|].
      destruct (scalarCategory (fieldType field)); reflexivity.
  - symmetry. apply find_none_iff. intros x Hx. cbv beta. now rewrite (E x Hx).
Qed.

Lemma carries_dec (name : string) (field : Field) :
  carries name field \/ ~ carries name field.
Proof.
  destruct (hasAttribute name field) eqn:E.
  - left. now apply hasAttribute_carries.
  - right. now apply sample_not_carries.
Qed.

(** The six ways the classifier can end, each with the condition that selects it. *)
Lemma resolveFieldDataType_decision (ext : Externals) (schema : Schema) (field : Field) :
  (carries ID_ATTRIBUTE_NAME field
   /\ resolveFieldDataType ext schema field = Ok (Some Id))
  \/ (~ carries ID_ATTRIBUTE_NAME field
      /\ (carries "relation" field \/ matchesRecordType ext schema (fieldType field))
      /\ resolveFieldDataType ext schema field = Ok (Some Lookup))
  \/ (~ carries ID_ATTRIBUTE_NAME field
      /\ ~ carries "relation" field
      /\ ~ matchesRecordType ext schema (fieldType field)
      /\ declaresEnum schema (fieldType field)
      /\ resolveFieldDataType ext schema field = Ok (Some OptionSet))
  \/ (plainTyped ext schema field /\ defaultsToNow field
      /\ resolveFieldDataType ext schema field = Ok (Some CreatedAt))
  \/ (plainTyped ext schema field /\ ~ defaultsToNow field
      /\ carries "updatedAt" field
      /\ resolveFieldDataType ext schema field = Ok (Some UpdatedAt))
  \/ (plainTyped ext schema field /\ ~ defaultsToNow field
      /\ ~ carries "updatedAt" field
      /\ resolveFieldDataType ext schema field
         = match scalarCategory (fieldType field) with
           | Some category => Ok (Some category)
           | None => Throw (Error ("Unsupported data type: " ++ fieldType field))
           end).
Proof.
  rewrite resolveFieldDataType_closed_form.
  destruct (hasAttribute ID_ATTRIBUTE_NAME field) eqn:Eid.
  { left. split; [now apply hasAttribute_carries | reflexivity]. }
  apply sample_not_carries in Eid. right.
  destruct (hasAttribute "relation" field) eqn:Erel.
  { left. repeat split; auto. left. now apply hasAttribute_carries. }
  apply sample_not_carries in Erel.
  destruct (find _ (modelsOf (list_ schema))) as [m|] eqn:Emodel.
  { left. repeat split; auto. right. apply find_model_matches. eauto. }
  assert (Hmodel : ~ matchesRecordType ext schema (fieldType field)).
  { intros H. apply find_model_matches in H. destruct H as [m H].
    rewrite H in Emodel. discriminate. }
  right.
  destruct (find _ (enumsOf (list_ schema))) as [e|] eqn:Eenum.
  { left. repeat split; auto. apply find_enum_declared. eauto. }
  assert (Henum : ~ declaresEnum schema (fieldType field)).
  { intros H. apply find_enum_declared in H. destruct H as [e H].
    rewrite H in Eenum. discriminate. }
  assert (Hplain : plainTyped ext schema field) by (repeat split; assumption).
  right.
  destruct (nowArg (findAttribute "default" field)) eqn:Enow.
  { left. repeat split; auto. now apply nowArg_defaultsToNow. }
  assert (Hnow : ~ defaultsToNow field).
  { intros H. apply nowArg_defaultsToNow in H. rewrite H in Enow. discriminate. }
  right.
  destruct (hasAttribute "updatedAt" field) eqn:Eupd.
  { left. repeat split; auto. now apply hasAttribute_carries. }
  apply sample_not_carries in Eupd.
  right. repeat split; auto.
Qed.

Ltac decide_classification ext schema field :=
  destruct (resolveFieldDataType_decision ext schema field)
    as [[? Hr]|[[? [? Hr]]|[[? [? [? [? Hr]]]]|[[Hp [? Hr]]|[[Hp [? [? Hr]]]
       |[Hp [? [? Hr]]]]]]]];
  try (destruct Hp as [? [? [? ?]]]);
  rewrite Hr.

(** The first three categories.  Id is returned exactly for the fields that
    carry the primary-key attribute; Lookup exactly for the other fields that
    carry a relation attribute or whose type matches a declared Record-Type;
    OptionSet exactly for the remaining fields whose type names a declared
    Enumeration. *)
Theorem resolveFieldDataType_first_categories (ext : Externals) (schema : Schema)
  (field : Field) :
  (resolveFieldDataType ext schema field = Ok (Some Id)
   <-> carries ID_ATTRIBUTE_NAME field)
  /\ (resolveFieldDataType ext schema field = Ok (Some Lookup)
      <-> ~ carries ID_ATTRIBUTE_NAME field
          /\ (carries "relation" field
              \/ matchesRecordType ext schema (fieldType field)))
  /\ (resolveFieldDataType ext schema field = Ok (Some OptionSet)
      <-> ~ carries ID_ATTRIBUTE_NAME field
          /\ ~ carries "relation" field
          /\ ~ matchesRecordType ext schema (fieldType field)
          /\ declaresEnum schema (fieldType field)).
Proof.
  decide_classification ext schema field;
    try (destruct (scalarCategory (fieldType field)) as [c|] eqn:Ec;
         [unfold scalarCategory in Ec;
          repeat (destruct (_ =? _) in Ec; [inversion Ec; subst c; clear Ec|]);
          try discriminate|]);
    (split; [|split]); split; intros; try discriminate; try tauto.
Qed.

Ltac scalar_cases :=
  try (let c := fresh "c" in
       let Ec := fresh "Ec" in
       destruct (scalarCategory (fieldType _)) as [c|] eqn:Ec;
       [unfold scalarCategory in Ec;
        repeat (destruct (_ =? _) in Ec; [inversion Ec; subst c; clear Ec|]);
        try discriminate|]).

(** The two timestamp categories.  Among the fields the first five predicates
    decline, CreatedAt is returned exactly for those whose default-value
    attribute has a [now] argument, and UpdatedAt exactly for those that carry
    the updatedAt attribute and do not default to [now]: the default-now
    alternative of the UpdatedAt predicate never decides. *)
Theorem resolveFieldDataType_timestamps (ext : Externals) (schema : Schema)
  (field : Field) :
  (resolveFieldDataType ext schema field = Ok (Some CreatedAt)
   <-> plainTyped ext schema field /\ defaultsToNow field)
  /\ (resolveFieldDataType ext schema field = Ok (Some UpdatedAt)
      <-> plainTyped ext schema field
          /\ ~ defaultsToNow field
          /\ carries "updatedAt" field).
Proof.
  unfold plainTyped.
  decide_classification ext schema field; scalar_cases;
    split; split; intros; try discriminate; try tauto.
Qed.

Lemma scalarCategory_cases (type : string) :
  (type = "String" /\ scalarCategory type = Some SingleLineText)
  \/ (type = "Int" /\ scalarCategory type = Some WholeNumber)
  \/ (type = "Float" /\ scalarCategory type = Some DecimalNumber)
  \/ (type = "Boolean" /\ scalarCategory type = Some Boolean)
  \/ (type = "DateTime" /\ scalarCategory type = Some DateTime)
  \/ (type = "Json" /\ scalarCategory type = Some Json)
  \/ (~ In type ["String"; "Int"; "Float"; "Boolean"; "DateTime"; "Json"]
      /\ scalarCategory type = None).
Proof.
  unfold scalarCategory.
  destruct (type =? "String") eqn:E1; [apply String.eqb_eq in E1; tauto|].
  destruct (type =? "Int") eqn:E2; [apply String.eqb_eq in E2; tauto|].
  destruct (type =? "Float") eqn:E3; [apply String.eqb_eq in E3; tauto|].
  destruct (type =? "Boolean") eqn:E4; [apply String.eqb_eq in E4; tauto|].
  destruct (type =? "DateTime") eqn:E5; [apply String.eqb_eq in E5; tauto|].
  destruct (type =? "Json") eqn:E6; [apply String.eqb_eq in E6; tauto|].
  apply String.eqb_neq in E1, E2, E3, E4, E5, E6.
  do 6 right. split; [|reflexivity]. simpl. intuition congruence.
Qed.

(** When every predicate declines, the loop reaches the final case. *)
Lemma resolveFieldDataType_unsupported (ext : Externals) (schema : Schema)
  (field : Field) :
  noPredicateMatches ext schema field ->
  resolveFieldDataType ext schema field
  = Throw (Error ("Unsupported data type: " ++ fieldType field)).
Proof.
  intros [H1 [H2 [H3 [H4 [H5 [H6 [H7 H8]]]]]]].
  unfold resolveFieldDataType, fieldDataTypCases. simpl.
  rewrite H1, H2, H3, H4, H5, H6, H7, H8. reflexivity.
Qed.

(** The final case in the words of the schema: which fields no predicate
    matches. *)
Lemma resolveFieldDataType_throws_iff (ext : Externals) (schema : Schema)
  (field : Field) :
  resolveFieldDataType ext schema field
  = Throw (Error ("Unsupported data type: " ++ fieldType field))
  <-> ~ carries ID_ATTRIBUTE_NAME field
      /\ ~ carries "relation" field
      /\ ~ matchesRecordType ext schema (fieldType field)
      /\ ~ declaresEnum schema (fieldType field)
      /\ ~ defaultsToNow field
      /\ ~ carries "updatedAt" field
      /\ ~ In (fieldType field)
             ["String"; "Int"; "Float"; "Boolean"; "DateTime"; "Json"].
Proof.
  destruct (resolveFieldDataType_decision ext schema field)
    as [[Hid Hr]|[[Hid [Hl Hr]]|[[Hid [Hrel [Hm [He Hr]]]]|[[Hp [Hnow Hr]]
       |[[Hp [Hnow [Hupd Hr]]]|[Hp [Hnow [Hupd Hr]]]]]]]]; rewrite Hr.
  - split; [discriminate | tauto].
  - split; [discriminate | tauto].
  - split; [discriminate | tauto].
  - split; [discriminate | tauto].
  - split; [discriminate | tauto].
  - destruct Hp as [Hid [Hrel [Hm He]]].
    destruct (scalarCategory_cases (fieldType field))
      as [[Ht Hc]|[[Ht Hc]|[[Ht Hc]|[[Ht Hc]|[[Ht Hc]|[[Ht Hc]|[Ht Hc]]]]]]];
      rewrite Hc; try (split; [discriminate|]; rewrite Ht; simpl; tauto).
    split; [tauto | reflexivity].
Qed.

(** C7.  Field classification is total: for every schema and field,
    [resolveFieldDataType] returns one of the twelve categories when some
    classification predicate matches, and throws the error
    "Unsupported data type: <type>" when none does, and only then.  No
    predicate matches exactly when the field carries neither the primary-key
    nor a relation attribute, its type matches no declared Record-Type and
    names no declared Enumeration, it does not default to [now], carries no
    updatedAt attribute, and its type is none of the six scalar tags.  The
    classifier never returns without a category. *)
Theorem resolveFieldDataType_total (ext : Externals) (schema : Schema) (field : Field) :
  ((exists dataType, resolveFieldDataType ext schema field = Ok (Some dataType))
   \/ (resolveFieldDataType ext schema field
         = Throw (Error ("Unsupported data type: " ++ fieldType field))
       /\ noPredicateMatches ext schema field))
  /\ (noPredicateMatches ext schema field
      <-> resolveFieldDataType ext schema field
          = Throw (Error ("Unsupported data type: " ++ fieldType field)))
  /\ (noPredicateMatches ext schema field
      <-> ~ carries ID_ATTRIBUTE_NAME field
          /\ ~ carries "relation" field
          /\ ~ matchesRecordType ext schema (fieldType field)
          /\ ~ declaresEnum schema (fieldType field)
          /\ ~ defaultsToNow field
          /\ ~ carries "updatedAt" field
          /\ ~ In (fieldType field)
                 ["String"; "Int"; "Float"; "Boolean"; "DateTime"; "Json"])
  /\ resolveFieldDataType ext schema field <> Ok None.
Proof.
  assert (Hiff : noPredicateMatches ext schema field
                 <-> resolveFieldDataType ext schema field
                     = Throw (Error ("Unsupported data type: " ++ fieldType field))).
  { split; [apply resolveFieldDataType_unsupported|].
    intros Hthrow.
    destruct (resolveFieldDataType_cases ext schema field) as [[d Hd]|[_ Hnone]];
      [rewrite Hd in Hthrow; discriminate | exact Hnone]. }
  split; [apply resolveFieldDataType_cases|].
  split; [exact Hiff|].
  split; [rewrite Hiff; apply resolveFieldDataType_throws_iff|].
  destruct (resolveFieldDataType_cases ext schema field) as [[d H]|[H _]];
    rewrite H; discriminate.
Qed.

(** The scalar mapping and the fallback.  A field that the first five
    predicates decline, that does not default to [now] and carries no updatedAt
    attribute is classified by its type tag: String, Int, Float, Boolean,
    DateTime and Json give SingleLineText, WholeNumber, DecimalNumber, Boolean,
    DateTime and Json, and every other tag (BigInt, Decimal, Bytes, an unknown
    name) makes the classifier throw "Unsupported data type: <tag>". *)
Theorem resolveFieldDataType_scalars (ext : Externals) (schema : Schema)
  (field : Field) :
  plainTyped ext schema field ->
  ~ defaultsToNow field ->
  ~ carries "updatedAt" field ->
  (fieldType field = "String"
   /\ resolveFieldDataType ext schema field = Ok (Some SingleLineText))
  \/ (fieldType field = "Int"
      /\ resolveFieldDataType ext schema field = Ok (Some WholeNumber))
  \/ (fieldType field = "Float"
      /\ resolveFieldDataType ext schema field = Ok (Some DecimalNumber))
  \/ (fieldType field = "Boolean"
      /\ resolveFieldDataType ext schema field = Ok (Some Boolean))
  \/ (fieldType field = "DateTime"
      /\ resolveFieldDataType ext schema field = Ok (Some DateTime))
  \/ (fieldType field = "Json"
      /\ resolveFieldDataType ext schema field = Ok (Some Json))
  \/ (~ In (fieldType field) ["String"; "Int"; "Float"; "Boolean"; "DateTime"; "Json"]
      /\ resolveFieldDataType ext schema field
         = Throw (Error ("Unsupported data type: " ++ fieldType field))).
Proof.
  intros [Hid [Hrel [Hmodel Henum]]] Hnow Hupd.
  destruct (resolveFieldDataType_decision ext schema field)
    as [[? Hr]|[[? [[?|?] Hr]]|[[? [? [? [? Hr]]]]|[[Hp [? Hr]]|[[Hp [? [? Hr]]]
       |[Hp [? [? Hr]]]]]]]]; try contradiction.
  rewrite Hr.
  destruct (scalarCategory_cases (fieldType field))
    as [[Ht Hc]|[[Ht Hc]|[[Ht Hc]|[[Ht Hc]|[[Ht Hc]|[[Ht Hc]|[Ht Hc]]]]]]];
    rewrite Hc; tauto.
Qed.

Lemma resolveFieldDataType_scalars_witness :
  (fieldType Sample.note = "String"
   /\ resolveFieldDataType Sample.plain Sample.memoSchema Sample.note
      = Ok (Some SingleLineText))
  \/ (fieldType Sample.note = "Int"
      /\ resolveFieldDataType Sample.plain Sample.memoSchema Sample.note
         = Ok (Some WholeNumber))
  \/ (fieldType Sample.note = "Float"
      /\ resolveFieldDataType Sample.plain Sample.memoSchema Sample.note
         = Ok (Some DecimalNumber))
  \/ (fieldType Sample.note = "Boolean"
      /\ resolveFieldDataType Sample.plain Sample.memoSchema Sample.note
         = Ok (Some Boolean))
  \/ (fieldType Sample.note = "DateTime"
      /\ resolveFieldDataType Sample.plain Sample.memoSchema Sample.note
         = Ok (Some DateTime))
  \/ (fieldType Sample.note = "Json"
      /\ resolveFieldDataType Sample.plain Sample.memoSchema Sample.note
         = Ok (Some Json))
  \/ (~ In (fieldType Sample.note)
          ["String"; "Int"; "Float"; "Boolean"; "DateTime"; "Json"]
      /\ resolveFieldDataType Sample.plain Sample.memoSchema Sample.note
         = Throw (Error ("Unsupported data type: " ++ fieldType Sample.note))).
Proof.
  apply (resolveFieldDataType_scalars Sample.plain Sample.memoSchema Sample.note).
  - repeat split.
    + apply sample_not_carries. reflexivity.
    + apply sample_not_carries. reflexivity.
    + intros [m [Hin Heq]]. simpl in Hin. destruct Hin as [H|[]].
      inversion H; subst m. discriminate.
    + intros [e [Hin _]]. simpl in Hin. destruct Hin as [H|[]]. discriminate.
  - intros [attr [[before [after [H _]]] _]]. discriminate.
  - apply sample_not_carries. reflexivity.
Defined.

(* ------------------------------------------------------------------ *)
(** ** The walk over the fields *)

Lemma bind_ext {A B} (m : M A) (k1 k2 : A -> M B) :
  (forall a, k1 a = k2 a) -> bind m k1 = bind m k2.
Proof.
  intros H. destruct m as [l [a|e]]; simpl; [|reflexivity]. now rewrite H.
Qed.

Lemma bind_ret_r {A} (m : M A) : bind m (fun a => ([], Ok a)) = m.
Proof.
  destruct m as [l [a|e]]; simpl; [|reflexivity]. now rewrite app_nil_r.
Qed.

Lemma isDataType_eqb (ext : Externals) (schema : Schema) (field : Field)
  (category dataType : EnumDataType) :
  resolveFieldDataType ext schema field = Ok (Some category) ->
  isDataType ext schema field dataType = Ok (EnumDataType_eqb category dataType).
Proof. intros H. unfold isDataType. now rewrite H. Qed.

Lemma convertField_convertClassified (ext : Externals) (schema : Schema)
  (model : Model) (field : Field) (preparedEntities : list Entity) :
  convertField ext schema model field preparedEntities
  = convertClassified ext schema model field preparedEntities.
Proof.
  unfold convertField, convertClassified.
  apply bind_ext. intros [|]; [reflexivity|].
  apply bind_ext. intros [|]; [reflexivity|].
  unfold whenDataType.
  destruct (resolveFieldDataType ext schema field) as [[category|]|e] eqn:E.
  - repeat rewrite (isDataType_eqb ext schema field category _ E).
    destruct category; simpl;
      match goal with
      | |- _ = (let (_, _) := ?c in _) => destruct c as [logged [es|err]]
      end; simpl; rewrite ?app_nil_r; reflexivity.
  - unfold isDataType. rewrite E. reflexivity.
  - unfold isDataType. rewrite E. reflexivity.
Qed.

(** The twelve checks of the walk amount to one classification: for every
    field the body of the loop logs and returns what skipping the field, or
    classifying it once and calling the one builder of its category, logs and
    returns. *)
Theorem convertField_dispatches_once (ext : Externals) (schema : Schema)
  (model : Model) (field : Field) (preparedEntities : list Entity) :
  convertField ext schema model field preparedEntities
  = (isFk <- isFkFieldOfARelation schema model field ;;
     if isFk then
       log (LogInfo "FK field of a relation. Skip field creation"
              (skipContext model field)) ;;;
       ret preparedEntities
     else
       isNotAnnotated <- lift (isNotAnnotatedRelationField ext schema field) ;;
       if isNotAnnotated then
         log (LogInfo "Not annotated relation field. Skip field creation"
                (skipContext model field)) ;;;
         ret preparedEntities
       else
         dataType <- lift (resolveFieldDataType ext schema field) ;;
         match dataType with
         | Some category =>
             converterFor ext schema model field category preparedEntities
         | None => ret preparedEntities
         end)%m.
Proof. exact (convertField_convertClassified ext schema model field preparedEntities). Qed.

(* ------------------------------------------------------------------ *)
(** ** What each builder pushes *)

Lemma findR_In {A} (p : A -> result bool) (l : list A) (x : A) :
  findR p l = Ok (Some x) -> In x l.
Proof.
  induction l as [|a rest IH]; simpl; [discriminate|].
  destruct (p a) as [[|]|e]; try discriminate.
  - intros H. inversion H. now left.
  - intros H. right. now apply IH.
Qed.

Lemma findEntity_owner (name : string) (es : list Entity) (entity : Entity) :
  findEntity name es = Some entity -> In (name, e_id entity) (ownersOf es).
Proof.
  unfold findEntity. intros H. apply find_some in H. destruct H as [Hin Heq].
  apply String.eqb_eq in Heq. subst name. unfold ownersOf.
  apply in_map_iff. exists entity. auto.
Qed.

(** Where the remote Record-Type and the remote field of a pairing come from. *)
Lemma findRemoteRelatedModelAndField_found (ext : Externals) (schema : Schema)
  (model : Model) (field : Field) (remote : RemoteModelAndField) :
  snd (findRemoteRelatedModelAndField ext schema model field) = Ok remote ->
  In (BModel (remoteModel remote)) (list_ schema)
  /\ formatModelName ext (model_name (remoteModel remote))
     = formatModelName ext (fieldType field)
  /\ forall related, remoteField remote = Some related ->
                     In (PField related) (properties (remoteModel remote)).
Proof.
  unfold findRemoteRelatedModelAndField. intros H.
  apply bind_ok_inv in H. destruct H as [name [_ H]].
  destruct (find _ (modelsOf (list_ schema))) as [rm|] eqn:Ermodel;
    [|simpl in H; discriminate].
  apply find_some in Ermodel. destruct Ermodel as [Hin Heq].
  apply In_modelsOf in Hin. apply String.eqb_eq in Heq.
  destruct (namedRelation name) as [n|].
  - apply bind_ok_inv in H. destruct H as [rf [Hfind H]].
    simpl in H. inversion H; subst remote. simpl.
    repeat split; try assumption.
    intros related ->. simpl in Hfind. apply findR_In in Hfind.
    now apply In_fieldsOf.
  - unfold implicitRemoteField in H.
    destruct (backReferences ext rm model) as [|rf [|rf2 rest]] eqn:Eback;
      simpl in H; try discriminate.
    inversion H; subst remote. simpl. repeat split; try assumption.
    intros related Hrelated. inversion Hrelated; subst related.
    assert (Hrf : In rf (backReferences ext rm model)) by (rewrite Eback; now left).
    unfold backReferences in Hrf. apply filter_In in Hrf.
    apply In_fieldsOf. tauto.
Qed.

Lemma idTypeName_cases (arg : AttributeArgument) :
  (exists name, funcName (arg_value arg) = Some name /\ name <> EmptyString
                /\ idTypeName arg = name)
  \/ ((funcName (arg_value arg) = None \/ funcName (arg_value arg) = Some EmptyString)
      /\ idTypeName arg = "cuid").
Proof.
  unfold idTypeName. destruct (funcName (arg_value arg)) as [name|].
  - destruct name as [|c rest]; simpl.
    + right. split; [now right | reflexivity].
    + left. exists (String c rest). repeat split. discriminate.
  - right. split; [now left | reflexivity].
Qed.

(** A builder that succeeds found the entity of the model and pushed one
    descriptor of its category, made of the field as [describes] says. *)
Lemma converterFor_pushes (ext : Externals) (schema : Schema) (model : Model)
  (field : Field) (category : EnumDataType) (es es' : list Entity) :
  snd (converterFor ext schema model field category es) = Ok es' ->
  exists descriptor,
    es' = pushField (model_name model) descriptor es
    /\ findEntity (model_name model) es <> None
    /\ ef_dataType descriptor = category
    /\ describes ext schema field (ownersOf es) descriptor.
Proof.
  intros H.
  destruct category; simpl in H;
    unfold convertPrismaBooleanToEntityField, convertPrismaCreatedAtToEntityField,
      convertPrismaUpdatedAtToEntityField, convertPrismaDateTimeToEntityField,
      convertPrismaDecimalNumberToEntityField, convertPrismaWholeNumberToEntityField,
      convertPrismaSingleLineTextToEntityField, convertPrismaJsonToEntityField,
      convertPrismaIdToEntityField, convertPrismaOptionSetToEntityField,
      convertPrismaMultiSelectOptionSetToEntityField, convertPrismaLookupToEntityField,
      convertCommon, convertWith, requireEntity in H;
    destruct (findEntity (model_name model) es) as [entity|] eqn:Eentity;
    simpl in H; try discriminate.
  - (* Id *)
    destruct (findAttribute "default" field) as [attribute|] eqn:Edefault; simpl in H.
    + destruct (attr_args attribute) as [[|arg args]|] eqn:Eargs; simpl in H;
        try discriminate; inversion H; subst es'; eexists;
        (split; [reflexivity|]); (split; [discriminate|]);
        (split; [reflexivity|]); (split; [reflexivity|]);
        unfold payloadFits; simpl; (split; [|repeat split]);
        unfold idPayload; rewrite Edefault; right; exists attribute;
        (split; [reflexivity|]).
      * right. destruct (idTypeName_cases arg) as [[name [Hf [Hne Hn]]]|[Hf Hn]].
        -- exists arg, args, name. rewrite Hn. auto.
        -- exists arg, args, "cuid". rewrite Hn. auto.
      * left. auto.
    + inversion H; subst es'. eexists.
      split; [reflexivity|]. split; [discriminate|]. split; [reflexivity|].
      split; [reflexivity|]. unfold payloadFits; simpl. split; [|repeat split].
      left. rewrite Edefault. auto.
  - (* Lookup *)
    destruct (findRemoteRelatedModelAndField ext schema model field)
      as [logged [[remote [related|]]|e]] eqn:Eremote; simpl in H; try discriminate.
    destruct (findEntity (model_name remote) es) as [relatedEntity|] eqn:Erelated;
      simpl in H; [|discriminate].
    inversion H; subst es'. eexists.
    split; [reflexivity|]. split; [discriminate|]. split; [reflexivity|].
    split; [reflexivity|]. unfold payloadFits; simpl.
    destruct (findRemoteRelatedModelAndField_found ext schema model field
                (mkRemote remote (Some related))) as [Hin [Hname Hfield]];
      [now rewrite Eremote|].
    simpl in *. exists remote, related, (e_id relatedEntity).
    repeat split; auto. now apply findEntity_owner.
  - (* OptionSet *)
    destruct (find _ (enumsOf (list_ schema))) as [e|] eqn:Eenum; simpl in H;
      [|discriminate].
    inversion H; subst es'. eexists.
    split; [reflexivity|]. split; [discriminate|]. split; [reflexivity|].
    split; [reflexivity|]. unfold payloadFits; simpl. split; [|repeat split].
    apply find_some in Eenum. destruct Eenum as [Hin Heq].
    exists e. split; [now apply In_enumsOf|]. split; [now apply String.eqb_eq|].
    now rewrite enumOptions_optionsOf.
  - (* MultiSelectOptionSet *)
    destruct (find _ (enumsOf (list_ schema))) as [e|] eqn:Eenum; simpl in H;
      [|discriminate].
    inversion H; subst es'. eexists.
    split; [reflexivity|]. split; [discriminate|]. split; [reflexivity|].
    split; [reflexivity|]. unfold payloadFits; simpl. split; [|repeat split].
    apply find_some in Eenum. destruct Eenum as [Hin Heq].
    exists e. split; [now apply In_enumsOf|]. split; [now apply String.eqb_eq|].
    now rewrite enumOptions_optionsOf.
  - inversion H; subst es'. eexists. repeat split. discriminate.
  - inversion H; subst es'. eexists. repeat split. discriminate.
  - inversion H; subst es'. eexists. repeat split. discriminate.
  - inversion H; subst es'. eexists. repeat split. discriminate.
  - inversion H; subst es'. eexists. repeat split. discriminate.
  - inversion H; subst es'. eexists. repeat split. discriminate.
  - inversion H; subst es'. eexists. repeat split. discriminate.
  - inversion H; subst es'. eexists. repeat split. discriminate.
Qed.

(* ------------------------------------------------------------------ *)
(** ** What the walk keeps true *)

Lemma pushField_withoutFields (name : string) (descriptor : EntityField)
  (es : list Entity) :
  map withoutFields (pushField name descriptor es) = map withoutFields es.
Proof.
  induction es as [|e rest IH]; simpl; [reflexivity|].
  destruct (e_name e =? name); simpl; [reflexivity | now rewrite IH].
Qed.

Lemma ownersOf_withoutFields (es : list Entity) :
  ownersOf (map withoutFields es) = ownersOf es.
Proof. unfold ownersOf. rewrite map_map. reflexivity. Qed.

Lemma prepareEntities_withoutFields (ext : Externals) (cuid : nat -> string)
  (n : nat) (modelList : list Model) :
  map withoutFields (prepareEntities ext cuid n modelList)
  = prepareEntities ext cuid n modelList.
Proof.
  revert n. induction modelList as [|m rest IH]; simpl; intros n; [reflexivity|].
  now rewrite IH.
Qed.

Lemma pushField_In (name : string) (descriptor : EntityField) (es : list Entity)
  (entity : Entity) (d : EntityField) :
  In entity (pushField name descriptor es) -> In d (e_fields entity) ->
  (exists original, In original es /\ e_name original = e_name entity
                    /\ In d (e_fields original))
  \/ (d = descriptor /\ e_name entity = name).
Proof.
  induction es as [|e rest IH]; simpl; [contradiction|].
  destruct (e_name e =? name) eqn:E.
  - intros [<-|Hin] Hd.
    + simpl in Hd. apply in_app_or in Hd. destruct Hd as [Hd|[<-|[]]].
      * left. exists e. auto.
      * right. split; [reflexivity|]. simpl. now apply String.eqb_eq.
    + left. exists entity. auto.
  - intros [<-|Hin] Hd.
    + left. exists e. auto.
    + destruct (IH Hin Hd) as [[original [Ho [Hn Hf]]]|Hnew].
      * left. exists original. auto.
      * now right.
Qed.

Lemma convertClassified_walkInvariant (ext : Externals) (schema : Schema)
  (prepared : list Entity) (model : Model) (field : Field) (es es' : list Entity) :
  In (BModel model) (list_ schema) ->
  In (PField field) (properties model) ->
  walkInvariant ext schema prepared es ->
  snd (convertField ext schema model field es) = Ok es' ->
  walkInvariant ext schema prepared es'.
Proof.
  intros Hmodel Hfield [Hheader Hemitted] H.
  rewrite convertField_convertClassified in H. unfold convertClassified in H.
  apply bind_ok_inv in H. destruct H as [isFk [HisFk H]].
  destruct isFk; [simpl in H; inversion H; subst es'; now split|].
  apply bind_ok_inv in H. destruct H as [isNotAnnotated [Hnot H]].
  destruct isNotAnnotated; [simpl in H; inversion H; subst es'; now split|].
  apply bind_ok_inv in H. destruct H as [dataType [Hclass H]].
  simpl in Hnot, Hclass.
  destruct dataType as [category|]; [|simpl in H; inversion H; subst es'; now split].
  apply converterFor_pushes in H.
  destruct H as [descriptor [-> [Hentity [Hcategory Hdescribes]]]].
  split.
  - now rewrite pushField_withoutFields.
  - intros entity d Hin Hd.
    destruct (pushField_In _ _ _ _ _ Hin Hd) as [[original [Ho [Hn Hf]]]|[-> Hname]].
    + rewrite <- Hn. now apply Hemitted.
    + exists model, field.
      split; [assumption|]. split; [assumption|]. split; [now symmetry|].
      split; [assumption|]. split; [assumption|].
      split; [now rewrite Hcategory|].
      now rewrite <- Hheader, ownersOf_withoutFields.
Qed.

Lemma convertPreparedSchemaForImportObjects_walkInvariant (ext : Externals)
  (cuid : nat -> string) (schema : Schema) (entities : list Entity) :
  snd (convertPreparedSchemaForImportObjects ext cuid schema) = Ok entities ->
  walkInvariant ext schema
    (prepareEntities ext cuid 0 (modelsOf (list_ schema))) entities.
Proof.
  unfold convertPreparedSchemaForImportObjects.
  apply (forEachM_invariant
           (walkInvariant ext schema
              (prepareEntities ext cuid 0 (modelsOf (list_ schema))))).
  - intros es model es' Hmodel Hes. unfold convertModel.
    apply (forEachM_invariant
             (walkInvariant ext schema
                (prepareEntities ext cuid 0 (modelsOf (list_ schema)))));
      [|assumption].
    intros acc field acc' Hfield Hacc.
    apply (convertClassified_walkInvariant ext schema _ model field).
    + now apply In_modelsOf.
    + now apply In_fieldsOf.
    + assumption.
  - split; [apply prepareEntities_withoutFields|].
    intros entity descriptor Hentity Hd.
    rewrite (prepareEntities_no_fields _ _ _ _ _ Hentity) in Hd. contradiction.
Qed.

Lemma shop_run :
  snd (convertPreparedSchemaForImportObjects Sample.plain Sample.tokens Sample.shopSchema)
  = Ok Shop.entities.
Proof. reflexivity. Qed.

Lemma memo_run :
  snd (convertPreparedSchemaForImportObjects Sample.plain Sample.tokens Sample.memoSchema)
  = Ok [Sample.memoEntity].
Proof. reflexivity. Qed.

Lemma prepareEntities_names (ext : Externals) (cuid : nat -> string) (n : nat)
  (modelList : list Model) :
  map e_name (prepareEntities ext cuid n modelList) = map model_name modelList
  /\ map e_id (prepareEntities ext cuid n modelList)
     = map cuid (seq n (List.length modelList))
  /\ map e_displayName (prepareEntities ext cuid n modelList)
     = map (fun model => formatDisplayName ext (model_name model)) modelList
  /\ map e_pluralDisplayName (prepareEntities ext cuid n modelList)
     = map (fun model => pluralize ext (model_name model)) modelList.
Proof.
  revert n. induction modelList as [|m rest IH]; simpl; intros n.
  - repeat split.
  - destruct (IH (S n)) as [H1 [H2 [H3 H4]]]. now rewrite H1, H2, H3, H4.
Qed.

(** One entity per Record-Type.  A conversion that succeeds returns one entity
    for each model of the schema, in declaration order: the i-th entity has the
    i-th model's name, display names made from that name, and the i-th token
    of the identifier generator as its id. *)
Theorem conversion_one_entity_per_model (ext : Externals) (cuid : nat -> string)
  (schema : Schema) (entities : list Entity) :
  snd (convertPreparedSchemaForImportObjects ext cuid schema) = Ok entities ->
  map e_name entities = map model_name (modelsOf (list_ schema))
  /\ map e_id entities = map cuid (seq 0 (List.length (modelsOf (list_ schema))))
  /\ map e_displayName entities
     = map (fun model => formatDisplayName ext (model_name model))
           (modelsOf (list_ schema))
  /\ map e_pluralDisplayName entities
     = map (fun model => pluralize ext (model_name model)) (modelsOf (list_ schema)).
Proof.
  intros H.
  destruct (convertPreparedSchemaForImportObjects_walkInvariant ext cuid schema
              entities H) as [Hheader _].
  destruct (prepareEntities_names ext cuid 0 (modelsOf (list_ schema)))
    as [H1 [H2 [H3 H4]]].
  rewrite <- Hheader in H1, H2, H3, H4. rewrite map_map in H1, H2, H3, H4.
  auto.
Qed.

Lemma conversion_one_entity_per_model_witness :
  map e_name Shop.entities = map model_name (modelsOf (list_ Sample.shopSchema))
  /\ map e_id Shop.entities
     = map Sample.tokens (seq 0 (List.length (modelsOf (list_ Sample.shopSchema))))
  /\ map e_displayName Shop.entities
     = map (fun model => formatDisplayName Sample.plain (model_name model))
           (modelsOf (list_ Sample.shopSchema))
  /\ map e_pluralDisplayName Shop.entities
     = map (fun model => pluralize Sample.plain (model_name model))
           (modelsOf (list_ Sample.shopSchema)).
Proof.
  apply (conversion_one_entity_per_model Sample.plain Sample.tokens Sample.shopSchema).
  exact shop_run.
Defined.

(** Every descriptor is the classification of an unskipped field.  In a
    conversion that succeeds, every descriptor of every entity comes from a
    field of a model of the entity's name for which [isFkFieldOfARelation] and
    [isNotAnnotatedRelationField] both answer false; it bears the field's name,
    and its dataType is what [resolveFieldDataType] returns for the field. *)
Theorem conversion_descriptor_is_classified (ext : Externals) (cuid : nat -> string)
  (schema : Schema) (entities : list Entity) (entity : Entity)
  (descriptor : EntityField) :
  snd (convertPreparedSchemaForImportObjects ext cuid schema) = Ok entities ->
  In entity entities ->
  In descriptor (e_fields entity) ->
  exists model field,
    In (BModel model) (list_ schema)
    /\ In (PField field) (properties model)
    /\ model_name model = e_name entity
    /\ ef_name descriptor = field_name field
    /\ snd (isFkFieldOfARelation schema model field) = Ok false
    /\ isNotAnnotatedRelationField ext schema field = Ok false
    /\ resolveFieldDataType ext schema field = Ok (Some (ef_dataType descriptor)).
Proof.
  intros H Hentity Hd.
  destruct (convertPreparedSchemaForImportObjects_walkInvariant ext cuid schema
              entities H) as [_ Hemitted].
  destruct (Hemitted entity descriptor Hentity Hd)
    as [model [field [Hm [Hf [Hn [Hfk [Hnot [Hclass [Hcommon _]]]]]]]]].
  exists model, field. repeat split; auto.
  exact (f_equal ef_name Hcommon).
Qed.

Lemma conversion_descriptor_is_classified_witness :
  exists model field,
    In (BModel model) (list_ Sample.shopSchema)
    /\ In (PField field) (properties model)
    /\ model_name model = e_name Shop.orderEntity
    /\ ef_name Shop.customerDescriptor = field_name field
    /\ snd (isFkFieldOfARelation Sample.shopSchema model field) = Ok false
    /\ isNotAnnotatedRelationField Sample.plain Sample.shopSchema field = Ok false
    /\ resolveFieldDataType Sample.plain Sample.shopSchema field
       = Ok (Some (ef_dataType Shop.customerDescriptor)).
Proof.
  apply (conversion_descriptor_is_classified Sample.plain Sample.tokens
           Sample.shopSchema Shop.entities Shop.orderEntity Shop.customerDescriptor).
  - exact shop_run.
  - right. left. reflexivity.
  - right. left. reflexivity.
Defined.

Lemma conversion_emitted (ext : Externals) (cuid : nat -> string)
  (schema : Schema) (entities : list Entity) (entity : Entity)
  (descriptor : EntityField) :
  snd (convertPreparedSchemaForImportObjects ext cuid schema) = Ok entities ->
  In entity entities ->
  In descriptor (e_fields entity) ->
  emittedFrom ext schema (ownersOf entities) (e_name entity) descriptor.
Proof.
  intros H Hentity Hd.
  destruct (convertPreparedSchemaForImportObjects_walkInvariant ext cuid schema
              entities H) as [Hheader Hemitted].
  rewrite <- (ownersOf_withoutFields entities), Hheader.
  now apply Hemitted.
Qed.

Lemma classification_not_MultiSelectOptionSet (ext : Externals) (schema : Schema)
  (field : Field) :
  resolveFieldDataType ext schema field <> Ok (Some MultiSelectOptionSet).
Proof.
  decide_classification ext schema field; scalar_cases; discriminate.
Qed.

(** The fixed payloads.  In a conversion that succeeds, a SingleLineText
    descriptor has maxLength 256; a WholeNumber one the bounds 0 and
    99999999999; a DecimalNumber one those bounds and precision 8; a DateTime
    one the time zone localTime and dateOnly false; Boolean, Json, CreatedAt
    and UpdatedAt descriptors have empty properties; and no descriptor is a
    MultiSelectOptionSet. *)
Theorem conversion_fixed_payloads (ext : Externals) (cuid : nat -> string)
  (schema : Schema) (entities : list Entity) (entity : Entity)
  (descriptor : EntityField) :
  snd (convertPreparedSchemaForImportObjects ext cuid schema) = Ok entities ->
  In entity entities ->
  In descriptor (e_fields entity) ->
  match ef_dataType descriptor with
  | SingleLineText => ef_properties descriptor = SingleLineTextProps 256
  | WholeNumber => ef_properties descriptor = WholeNumberProps 0 99999999999
  | DecimalNumber => ef_properties descriptor = DecimalNumberProps 0 99999999999 8
  | DateTime => ef_properties descriptor = DateTimeProps "localTime" false
  | Boolean | Json | CreatedAt | UpdatedAt => ef_properties descriptor = NoProperties
  | MultiSelectOptionSet => False
  | Id | OptionSet | Lookup => True
  end.
Proof.
  intros H Hentity Hd.
  destruct (conversion_emitted ext cuid schema entities entity descriptor H Hentity Hd)
    as [model [field [_ [_ [_ [_ [_ [Hclass [_ Hpayload]]]]]]]]].
  unfold payloadFits in Hpayload.
  destruct (ef_dataType descriptor); try tauto.
  exact (classification_not_MultiSelectOptionSet ext schema field Hclass).
Qed.

Lemma conversion_fixed_payloads_witness :
  match ef_dataType Sample.noteDescriptor with
  | SingleLineText => ef_properties Sample.noteDescriptor = SingleLineTextProps 256
  | WholeNumber => ef_properties Sample.noteDescriptor = WholeNumberProps 0 99999999999
  | DecimalNumber =>
      ef_properties Sample.noteDescriptor = DecimalNumberProps 0 99999999999 8
  | DateTime => ef_properties Sample.noteDescriptor = DateTimeProps "localTime" false
  | Boolean | Json | CreatedAt | UpdatedAt =>
      ef_properties Sample.noteDescriptor = NoProperties
  | MultiSelectOptionSet => False
  | Id | OptionSet | Lookup => True
  end.
Proof.
  apply (conversion_fixed_payloads Sample.plain Sample.tokens Sample.memoSchema
           [Sample.memoEntity] Sample.memoEntity Sample.noteDescriptor).
  - exact memo_run.
  - left. reflexivity.
  - right. left. reflexivity.
Defined.

Lemma ownersOf_In (entities : list Entity) (name id : string) :
  In (name, id) (ownersOf entities) ->
  exists target, In target entities /\ e_name target = name /\ e_id target = id.
Proof.
  unfold ownersOf. intros H. apply in_map_iff in H.
  destruct H as [target [Heq Hin]]. inversion Heq. eauto.
Qed.

(** Lookup descriptors are paired inside the result.  In a conversion that
    succeeds, every Lookup descriptor names a related field that belongs to a
    Record-Type matching its source field's type by canonical name, takes the
    related field's array flag as relatedFieldAllowMultipleSelection and its
    own field's array flag as allowMultipleSelection, and its relatedEntityId
    is the id of an entity of the same result, the one named after that
    Record-Type. *)
Theorem conversion_lookup_is_paired (ext : Externals) (cuid : nat -> string)
  (schema : Schema) (entities : list Entity) (entity : Entity)
  (descriptor : EntityField) :
  snd (convertPreparedSchemaForImportObjects ext cuid schema) = Ok entities ->
  In entity entities ->
  In descriptor (e_fields entity) ->
  ef_dataType descriptor = Lookup ->
  exists model field remote related target,
    In (BModel model) (list_ schema)
    /\ In (PField field) (properties model)
    /\ model_name model = e_name entity
    /\ ef_name descriptor = field_name field
    /\ In (BModel remote) (list_ schema)
    /\ formatModelName ext (model_name remote) = formatModelName ext (fieldType field)
    /\ In (PField related) (properties remote)
    /\ ef_relatedFieldName descriptor = Some (field_name related)
    /\ ef_relatedFieldDisplayName descriptor
       = Some (formatDisplayName ext (field_name related))
    /\ ef_relatedFieldAllowMultipleSelection descriptor = Some (orFalse (array related))
    /\ In target entities
    /\ e_name target = model_name remote
    /\ ef_properties descriptor = LookupProps (e_id target) (orFalse (array field)).
Proof.
  intros H Hentity Hd Hlookup.
  destruct (conversion_emitted ext cuid schema entities entity descriptor H Hentity Hd)
    as [model [field [Hm [Hf [Hn [_ [_ [_ [Hcommon Hpayload]]]]]]]]].
  unfold payloadFits in Hpayload. rewrite Hlookup in Hpayload.
  destruct Hpayload
    as [remote [related [id [Hr [Hcanon [Hrel [Hname [Hdisplay [Hmulti [Hprops Howner]]]]]]]]]].
  destruct (ownersOf_In entities _ _ Howner) as [target [Ht [Htn Hti]]].
  exists model, field, remote, related, target. subst id.
  repeat split; auto.
  exact (f_equal ef_name Hcommon).
Qed.

Lemma conversion_lookup_is_paired_witness :
  exists model field remote related target,
    In (BModel model) (list_ Sample.shopSchema)
    /\ In (PField field) (properties model)
    /\ model_name model = e_name Shop.orderEntity
    /\ ef_name Shop.customerDescriptor = field_name field
    /\ In (BModel remote) (list_ Sample.shopSchema)
    /\ formatModelName Sample.plain (model_name remote)
       = formatModelName Sample.plain (fieldType field)
    /\ In (PField related) (properties remote)
    /\ ef_relatedFieldName Shop.customerDescriptor = Some (field_name related)
    /\ ef_relatedFieldDisplayName Shop.customerDescriptor
       = Some (formatDisplayName Sample.plain (field_name related))
    /\ ef_relatedFieldAllowMultipleSelection Shop.customerDescriptor
       = Some (orFalse (array related))
    /\ In target Shop.entities
    /\ e_name target = model_name remote
    /\ ef_properties Shop.customerDescriptor
       = LookupProps (e_id target) (orFalse (array field)).
Proof.
  apply (conversion_lookup_is_paired Sample.plain Sample.tokens Sample.shopSchema
           Shop.entities Shop.orderEntity Shop.customerDescriptor).
  - exact shop_run.
  - right. left. reflexivity.
  - right. left. reflexivity.
  - reflexivity.
Defined.

(** Only Lookup descriptors are paired.  In a conversion that succeeds, a
    descriptor has related-field members exactly when its dataType is
    Lookup. *)
Theorem conversion_only_lookups_are_paired (ext : Externals) (cuid : nat -> string)
  (schema : Schema) (entities : list Entity) (entity : Entity)
  (descriptor : EntityField) :
  snd (convertPreparedSchemaForImportObjects ext cuid schema) = Ok entities ->
  In entity entities ->
  In descriptor (e_fields entity) ->
  (ef_dataType descriptor = Lookup
   /\ ef_relatedFieldName descriptor <> None
   /\ ef_relatedFieldDisplayName descriptor <> None
   /\ ef_relatedFieldAllowMultipleSelection descriptor <> None)
  \/ (ef_dataType descriptor <> Lookup
      /\ ef_relatedFieldName descriptor = None
      /\ ef_relatedFieldDisplayName descriptor = None
      /\ ef_relatedFieldAllowMultipleSelection descriptor = None).
Proof.
  intros H Hentity Hd.
  destruct (conversion_emitted ext cuid schema entities entity descriptor H Hentity Hd)
    as [model [field [_ [_ [_ [_ [_ [_ [_ Hpayload]]]]]]]]].
  unfold payloadFits, unpaired, lookupPairing in Hpayload.
  destruct (ef_dataType descriptor);
    try (right; split; [discriminate | tauto]).
  left. destruct Hpayload as [remote [related [id [_ [_ [_ [-> [-> [-> _]]]]]]]]].
  repeat split; discriminate.
Qed.

Lemma conversion_only_lookups_are_paired_witness :
  (ef_dataType Sample.noteDescriptor = Lookup
   /\ ef_relatedFieldName Sample.noteDescriptor <> None
   /\ ef_relatedFieldDisplayName Sample.noteDescriptor <> None
   /\ ef_relatedFieldAllowMultipleSelection Sample.noteDescriptor <> None)
  \/ (ef_dataType Sample.noteDescriptor <> Lookup
      /\ ef_relatedFieldName Sample.noteDescriptor = None
      /\ ef_relatedFieldDisplayName Sample.noteDescriptor = None
      /\ ef_relatedFieldAllowMultipleSelection Sample.noteDescriptor = None).
Proof.
  apply (conversion_only_lookups_are_paired Sample.plain Sample.tokens
           Sample.memoSchema [Sample.memoEntity] Sample.memoEntity
           Sample.noteDescriptor).
  - exact memo_run.
  - left. reflexivity.
  - right. left. reflexivity.
Defined.

Lemma classification_OptionSet_declared (ext : Externals) (schema : Schema)
  (field : Field) :
  resolveFieldDataType ext schema field = Ok (Some OptionSet) ->
  declaresEnum schema (fieldType field).
Proof.
  decide_classification ext schema field; scalar_cases; intros; try discriminate.
  assumption.
Qed.

Lemma classification_Id_carries (ext : Externals) (schema : Schema) (field : Field) :
  resolveFieldDataType ext schema field = Ok (Some Id) ->
  carries ID_ATTRIBUTE_NAME field.
Proof.
  decide_classification ext schema field; scalar_cases; intros; try discriminate.
  assumption.
Qed.

(** OptionSet descriptors carry one option for each entry of a declared
    Enumeration.  In a conversion that succeeds, the source field of an
    OptionSet descriptor names a declared Enumeration, and the descriptor's
    options are made, in source order, of the entries of the block of a
    declared Enumeration whose canonical name is that of the field's type:
    label and value are the name of an enumerator, the name of a block
    attribute, and undefined for a comment or a line break. *)
Theorem conversion_option_set_options (ext : Externals) (cuid : nat -> string)
  (schema : Schema) (entities : list Entity) (entity : Entity)
  (descriptor : EntityField) :
  snd (convertPreparedSchemaForImportObjects ext cuid schema) = Ok entities ->
  In entity entities ->
  In descriptor (e_fields entity) ->
  ef_dataType descriptor = OptionSet ->
  exists model field e,
    In (BModel model) (list_ schema)
    /\ In (PField field) (properties model)
    /\ model_name model = e_name entity
    /\ ef_name descriptor = field_name field
    /\ declaresEnum schema (fieldType field)
    /\ In (BEnum e) (list_ schema)
    /\ formatModelName ext (enum_name e) = formatModelName ext (fieldType field)
    /\ ef_properties descriptor
       = OptionSetProps
           (map (fun entry =>
                   match entry with
                   | EEnumerator enumerator =>
                       mkOption (Some (enumerator_name enumerator))
                                (Some (enumerator_name enumerator))
                   | EAttribute attribute =>
                       mkOption (Some (attr_name attribute))
                                (Some (attr_name attribute))
                   | EComment _ => mkOption None None
                   | EBreak => mkOption None None
                   end)
                (enumerators e)).
Proof.
  intros H Hentity Hd Hoption.
  destruct (conversion_emitted ext cuid schema entities entity descriptor H Hentity Hd)
    as [model [field [Hm [Hf [Hn [_ [_ [Hclass [Hcommon Hpayload]]]]]]]]].
  unfold payloadFits in Hpayload. rewrite Hoption in Hpayload, Hclass.
  destruct Hpayload as [[e [He [Hcanon Hprops]]] _].
  exists model, field, e. repeat split; auto.
  - exact (f_equal ef_name Hcommon).
  - exact (classification_OptionSet_declared ext schema field Hclass).
Qed.

Lemma task_run :
  snd (convertPreparedSchemaForImportObjects Sample.plain Sample.tokens Sample.taskSchema)
  = Ok [Tasks.taskEntity].
Proof. reflexivity. Qed.

Lemma roles_run :
  snd (convertPreparedSchemaForImportObjects Sample.plain Sample.tokens Roles.schema)
  = Ok [Roles.accountEntity].
Proof. reflexivity. Qed.

(** At [role Role] of [Account]: five options for the two enumerators, the
    comment, the line break and the block attribute of [Role]. *)
Lemma conversion_option_set_options_witness :
  exists model field e,
    In (BModel model) (list_ Roles.schema)
    /\ In (PField field) (properties model)
    /\ model_name model = e_name Roles.accountEntity
    /\ ef_name Roles.roleDescriptor = field_name field
    /\ declaresEnum Roles.schema (fieldType field)
    /\ In (BEnum e) (list_ Roles.schema)
    /\ formatModelName Sample.plain (enum_name e)
       = formatModelName Sample.plain (fieldType field)
    /\ ef_properties Roles.roleDescriptor
       = OptionSetProps
           (map (fun entry =>
                   match entry with
                   | EEnumerator enumerator =>
                       mkOption (Some (enumerator_name enumerator))
                                (Some (enumerator_name enumerator))
                   | EAttribute attribute =>
                       mkOption (Some (attr_name attribute))
                                (Some (attr_name attribute))
                   | EComment _ => mkOption None None
                   | EBreak => mkOption None None
                   end)
                (enumerators e)).
Proof.
  apply (conversion_option_set_options Sample.plain Sample.tokens Roles.schema
           [Roles.accountEntity] Roles.accountEntity Roles.roleDescriptor).
  - exact roles_run.
  - left. reflexivity.
  - right. left. reflexivity.
  - reflexivity.
Defined.

(** Id descriptors.  In a conversion that succeeds, the source field of an Id
    descriptor carries the primary-key attribute, and the descriptor's idType
    comes from the field's type tag when the field has no default-value
    attribute, and otherwise from the name of the function the attribute's
    first argument calls, or from [cuid] when that argument calls none; with a
    default-value attribute that has no argument list the properties stay
    empty. *)
Theorem conversion_id_payload (ext : Externals) (cuid : nat -> string)
  (schema : Schema) (entities : list Entity) (entity : Entity)
  (descriptor : EntityField) :
  snd (convertPreparedSchemaForImportObjects ext cuid schema) = Ok entities ->
  In entity entities ->
  In descriptor (e_fields entity) ->
  ef_dataType descriptor = Id ->
  exists model field,
    In (BModel model) (list_ schema)
    /\ In (PField field) (properties model)
    /\ model_name model = e_name entity
    /\ ef_name descriptor = field_name field
    /\ carries ID_ATTRIBUTE_NAME field
    /\ ((findAttribute "default" field = None
         /\ ef_properties descriptor
            = IdProps (idTypePropertyMapByFieldType ext (fieldType field)))
        \/ (exists attr,
              findAttribute "default" field = Some attr
              /\ ((attr_args attr = None /\ ef_properties descriptor = NoProperties)
                  \/ (exists arg rest name,
                        attr_args attr = Some (arg :: rest)
                        /\ (funcName (arg_value arg) = Some name
                            /\ name <> EmptyString
                            \/ (funcName (arg_value arg) = None
                                \/ funcName (arg_value arg) = Some EmptyString)
                               /\ name = "cuid")
                        /\ ef_properties descriptor
                           = IdProps (idTypePropertyMap ext name))))).
Proof.
  intros H Hentity Hd Hid.
  destruct (conversion_emitted ext cuid schema entities entity descriptor H Hentity Hd)
    as [model [field [Hm [Hf [Hn [_ [_ [Hclass [Hcommon Hpayload]]]]]]]]].
  unfold payloadFits in Hpayload. rewrite Hid in Hpayload, Hclass.
  destruct Hpayload as [Hpayload _].
  exists model, field. repeat split; auto.
  - exact (f_equal ef_name Hcommon).
  - exact (classification_Id_carries ext schema field Hclass).
Qed.

Lemma conversion_id_payload_witness :
  exists model field,
    In (BModel model) (list_ Sample.memoSchema)
    /\ In (PField field) (properties model)
    /\ model_name model = e_name Sample.memoEntity
    /\ ef_name Sample.idDescriptor = field_name field
    /\ carries ID_ATTRIBUTE_NAME field
    /\ ((findAttribute "default" field = None
         /\ ef_properties Sample.idDescriptor
            = IdProps (idTypePropertyMapByFieldType Sample.plain (fieldType field)))
        \/ (exists attr,
              findAttribute "default" field = Some attr
              /\ ((attr_args attr = None
                   /\ ef_properties Sample.idDescriptor = NoProperties)
                  \/ (exists arg rest name,
                        attr_args attr = Some (arg :: rest)
                        /\ (funcName (arg_value arg) = Some name
                            /\ name <> EmptyString
                            \/ (funcName (arg_value arg) = None
                                \/ funcName (arg_value arg) = Some EmptyString)
                               /\ name = "cuid")
                        /\ ef_properties Sample.idDescriptor
                           = IdProps (idTypePropertyMap Sample.plain name))))).
Proof.
  apply (conversion_id_payload Sample.plain Sample.tokens Sample.memoSchema
           [Sample.memoEntity] Sample.memoEntity Sample.idDescriptor).
  - exact memo_run.
  - left. reflexivity.
  - left. reflexivity.
  - reflexivity.
Defined.



(* ------------------------------------------------------------------ *)
(** ** One descriptor for each field the walk does not skip *)

(** How the body of the inner loop can end well: the field was skipped and the
    entities are unchanged, or it was not and one descriptor was pushed. *)
Lemma convertField_outcome (ext : Externals) (schema : Schema) (model : Model)
  (field : Field) (es es' : list Entity) :
  snd (convertField ext schema model field es) = Ok es' ->
  (walked ext schema (model, field) = false /\ es' = es)
  \/ (walked ext schema (model, field) = true
      /\ exists descriptor,
           es' = pushField (model_name model) descriptor es
           /\ findEntity (model_name model) es <> None
           /\ ef_name descriptor = field_name field
           /\ resolveFieldDataType ext schema field
              = Ok (Some (ef_dataType descriptor))).
Proof.
  intros H. rewrite convertField_convertClassified in H.
  unfold convertClassified in H. unfold walked. simpl.
  apply bind_ok_inv in H. destruct H as [isFk [HisFk H]]. rewrite HisFk.
  destruct isFk; [simpl in H; inversion H; now left|].
  apply bind_ok_inv in H. destruct H as [isNotAnnotated [Hnot H]].
  simpl in Hnot. rewrite Hnot.
  destruct isNotAnnotated; [simpl in H; inversion H; now left|].
  apply bind_ok_inv in H. destruct H as [dataType [Hclass H]]. simpl in Hclass.
  destruct dataType as [category|].
  - apply converterFor_pushes in H.
    destruct H as [descriptor [-> [Hentity [Hcategory [Hcommon _]]]]].
    right. split; [reflexivity|]. exists descriptor.
    repeat split; auto.
    + exact (f_equal ef_name Hcommon).
    + now rewrite Hcategory.
  - exfalso.
    destruct (resolveFieldDataType_cases ext schema field) as [[d Hd]|[Hd _]];
      rewrite Hd in Hclass; discriminate.
Qed.

Lemma pushField_descriptors (name : string) (descriptor : EntityField)
  (es : list Entity) :
  findEntity name es <> None ->
  List.length (allDescriptors (pushField name descriptor es))
  = S (List.length (allDescriptors es)).
Proof.
  unfold allDescriptors, findEntity.
  induction es as [|e rest IH]; simpl; [congruence|].
  destruct (e_name e =? name); simpl; intros H.
  - rewrite !length_app. simpl. lia.
  - rewrite !length_app, (IH H). lia.
Qed.

Lemma forEachM_counts {A B} (measure : A -> nat) (weight : B -> nat)
  (body : A -> B -> M A) (items : list B) :
  (forall acc x acc', In x items -> snd (body acc x) = Ok acc' ->
                      measure acc' = measure acc + weight x) ->
  forall acc r, snd (forEachM body items acc) = Ok r ->
                measure r = measure acc + list_sum (map weight items).
Proof.
  induction items as [|x rest IH]; simpl; intros Hbody acc r Hrun.
  - inversion Hrun. lia.
  - apply bind_ok_inv in Hrun. destruct Hrun as [acc' [Hstep Hrest]].
    rewrite (IH (fun a y a' Hy => Hbody a y a' (or_intror Hy)) acc' r Hrest).
    rewrite (Hbody acc x acc' (or_introl eq_refl) Hstep). lia.
Qed.

Lemma length_filter_sum {A} (p : A -> bool) (l : list A) :
  List.length (filter p l) = list_sum (map (fun x => if p x then 1 else 0) l).
Proof.
  induction l as [|a rest IH]; simpl; [reflexivity|].
  destruct (p a); simpl; now rewrite IH.
Qed.

Lemma length_filter_flat_map {A B} (p : B -> bool) (f : A -> list B) (l : list A) :
  List.length (filter p (flat_map f l))
  = list_sum (map (fun x => List.length (filter p (f x))) l).
Proof.
  induction l as [|a rest IH]; simpl; [reflexivity|].
  now rewrite filter_app, length_app, IH.
Qed.

Lemma prepareEntities_no_descriptors (ext : Externals) (cuid : nat -> string)
  (n : nat) (modelList : list Model) :
  allDescriptors (prepareEntities ext cuid n modelList) = [].
Proof.
  unfold allDescriptors. revert n.
  induction modelList as [|m rest IH]; simpl; intros n; [reflexivity|]. apply IH.
Qed.

(** Exactly one descriptor per unskipped field.  A conversion that succeeds
    returns, over all its entities, as many descriptors as the schema has
    fields for which neither [isFkFieldOfARelation] nor
    [isNotAnnotatedRelationField] answers true: no field is converted twice by
    the twelve checks, and none is dropped. *)
Theorem conversion_descriptor_count (ext : Externals) (cuid : nat -> string)
  (schema : Schema) (entities : list Entity) :
  snd (convertPreparedSchemaForImportObjects ext cuid schema) = Ok entities ->
  List.length (flat_map e_fields entities)
  = List.length (filter (walked ext schema) (allModelFields schema)).
Proof.
  unfold convertPreparedSchemaForImportObjects. intros H.
  change (flat_map e_fields entities) with (allDescriptors entities).
  pose proof (forEachM_counts
                (fun es => List.length (allDescriptors es))
                (fun model => List.length
                   (filter (walked ext schema)
                      (map (pair model) (fieldsOf (properties model)))))
                (convertModel ext schema) (modelsOf (list_ schema))) as Hcount.
  rewrite (Hcount) with (r := entities)
                        (acc := prepareEntities ext cuid 0 (modelsOf (list_ schema)));
    [| |exact H].
  - rewrite prepareEntities_no_descriptors. simpl.
    unfold allModelFields. symmetry. apply length_filter_flat_map.
  - intros acc model acc' _ Hmodel. unfold convertModel in Hmodel.
    rewrite (forEachM_counts
               (fun es => List.length (allDescriptors es))
               (fun field => if walked ext schema (model, field) then 1 else 0)
               (fun es field => convertField ext schema model field es)
               (fieldsOf (properties model))) with (acc := acc) (r := acc');
      [| |exact Hmodel].
    + f_equal. rewrite length_filter_sum, map_map. reflexivity.
    + intros es field es' _ Hfield.
      destruct (convertField_outcome ext schema model field es es' Hfield)
        as [[-> ->]|[-> [descriptor [-> [Hentity _]]]]].
      * lia.
      * rewrite (pushField_descriptors _ _ _ Hentity). lia.
Qed.

Lemma conversion_descriptor_count_witness :
  List.length (flat_map e_fields Shop.entities)
  = List.length (filter (walked Sample.plain Sample.shopSchema)
                   (allModelFields Sample.shopSchema)).
Proof.
  apply (conversion_descriptor_count Sample.plain Sample.tokens Sample.shopSchema).
  exact shop_run.
Defined.

(* ------------------------------------------------------------------ *)
(** ** No unskipped field is dropped *)

Lemma pushField_keeps (name : string) (descriptor : EntityField) (es : list Entity)
  (entity : Entity) (d : EntityField) :
  In entity es -> In d (e_fields entity) ->
  exists entity', In entity' (pushField name descriptor es)
                  /\ e_name entity' = e_name entity
                  /\ In d (e_fields entity').
Proof.
  induction es as [|e rest IH]; simpl; [contradiction|].
  intros [->|Hin] Hd.
  - destruct (e_name entity =? name).
    + exists (pushTo entity descriptor). simpl.
      repeat split; auto. apply in_or_app. now left.
    + exists entity. simpl. auto.
  - destruct (e_name e =? name).
    + exists entity. simpl. auto.
    + destruct (IH Hin Hd) as [entity' [H1 [H2 H3]]].
      exists entity'. simpl. auto.
Qed.

Lemma pushField_adds (name : string) (descriptor : EntityField) (es : list Entity) :
  findEntity name es <> None ->
  exists entity', In entity' (pushField name descriptor es)
                  /\ e_name entity' = name
                  /\ In descriptor (e_fields entity').
Proof.
  unfold findEntity.
  induction es as [|e rest IH]; simpl; [congruence|].
  destruct (e_name e =? name) eqn:E; intros H.
  - exists (pushTo e descriptor). simpl. repeat split; auto.
    + now apply String.eqb_eq.
    + apply in_or_app. right. now left.
  - destruct (IH H) as [entity' [H1 [H2 H3]]]. exists entity'. simpl. auto.
Qed.

Lemma convertField_keeps (ext : Externals) (schema : Schema) (model model' : Model)
  (field field' : Field) (es es' : list Entity) :
  hasDescriptor ext schema model field es ->
  snd (convertField ext schema model' field' es) = Ok es' ->
  hasDescriptor ext schema model field es'.
Proof.
  intros Hhas Hrun.
  destruct (convertField_outcome ext schema model' field' es es' Hrun)
    as [[_ ->]|[_ [descriptor [-> _]]]]; [assumption|].
  destruct Hhas as [entity [d [Hin [Hname [Hd [Hfield Hclass]]]]]].
  destruct (pushField_keeps (model_name model') descriptor es entity d Hin Hd)
    as [entity' [H1 [H2 H3]]].
  exists entity', d. repeat split; auto. congruence.
Qed.

Lemma convertField_adds (ext : Externals) (schema : Schema) (model : Model)
  (field : Field) (es es' : list Entity) :
  walked ext schema (model, field) = true ->
  snd (convertField ext schema model field es) = Ok es' ->
  hasDescriptor ext schema model field es'.
Proof.
  intros Hwalked Hrun.
  destruct (convertField_outcome ext schema model field es es' Hrun)
    as [[Hskip _]|[_ [descriptor [-> [Hentity [Hname Hclass]]]]]]; [congruence|].
  destruct (pushField_adds (model_name model) descriptor es Hentity)
    as [entity' [H1 [H2 H3]]].
  exists entity', descriptor. repeat split; auto.
Qed.

(** What a loop establishes for each of its items, when later rounds keep
    what earlier rounds established. *)
Lemma forEachM_establishes {A B} (P : B -> A -> Prop) (body : A -> B -> M A)
  (items : list B) :
  (forall acc x acc', In x items -> snd (body acc x) = Ok acc' -> P x acc') ->
  (forall y acc x acc', In x items -> P y acc -> snd (body acc x) = Ok acc' ->
                        P y acc') ->
  forall acc r, snd (forEachM body items acc) = Ok r ->
                forall x, In x items -> P x r.
Proof.
  induction items as [|x rest IH]; simpl; intros Hadds Hkeeps acc r Hrun y Hy;
    [contradiction|].
  apply bind_ok_inv in Hrun. destruct Hrun as [acc' [Hstep Hrest]].
  destruct Hy as [<-|Hy].
  - apply (forEachM_invariant (P x) body rest
             (fun a z a' Hz => Hkeeps x a z a' (or_intror Hz)) acc' r);
      [|assumption].
    exact (Hadds acc x acc' (or_introl eq_refl) Hstep).
  - exact (IH (fun a z a' Hz => Hadds a z a' (or_intror Hz))
              (fun w a z a' Hz => Hkeeps w a z a' (or_intror Hz)) acc' r Hrest y Hy).
Qed.

(** No unskipped field is dropped.  In a conversion that succeeds, every field
    of every model for which neither [isFkFieldOfARelation] nor
    [isNotAnnotatedRelationField] answers true has a descriptor: some returned
    entity is named after the model and holds a descriptor named after the
    field whose dataType is the field's classification. *)
Theorem conversion_covers_unskipped_fields (ext : Externals) (cuid : nat -> string)
  (schema : Schema) (entities : list Entity) (model : Model) (field : Field) :
  snd (convertPreparedSchemaForImportObjects ext cuid schema) = Ok entities ->
  In (BModel model) (list_ schema) ->
  In (PField field) (properties model) ->
  walked ext schema (model, field) = true ->
  hasDescriptor ext schema model field entities.
Proof.
  unfold convertPreparedSchemaForImportObjects.
  intros Hrun Hmodel Hfield Hwalked.
  apply In_modelsOf in Hmodel. apply In_fieldsOf in Hfield.
  pose (covered := fun (m : Model) (es : list Entity) =>
                     forall f, In f (fieldsOf (properties m)) ->
                               walked ext schema (m, f) = true ->
                               hasDescriptor ext schema m f es).
  assert (Hkeeps : forall m acc m' acc',
             covered m acc -> snd (convertModel ext schema acc m') = Ok acc' ->
             covered m acc').
  { intros m acc m' acc' Hcov Hm' f Hf Hw. unfold convertModel in Hm'.
    apply (forEachM_invariant (hasDescriptor ext schema m f)
             (fun es field' => convertField ext schema m' field' es)
             (fieldsOf (properties m'))
             (fun a z a' _ Hhas Hz => convertField_keeps ext schema m m' f z a a' Hhas Hz)
             acc acc'); [|assumption].
    now apply Hcov. }
  apply (forEachM_establishes covered (convertModel ext schema)
           (modelsOf (list_ schema))) with (x := model) in Hrun; auto.
  - intros acc m acc' _ Hm f Hf Hw. unfold convertModel in Hm.
    apply (forEachM_establishes
             (fun f es => walked ext schema (m, f) = true ->
                          hasDescriptor ext schema m f es)
             (fun es field' => convertField ext schema m field' es)
             (fieldsOf (properties m))) with (x := f) in Hm; auto.
    + intros a z a' _ Hz Hwz. exact (convertField_adds ext schema m z a a' Hwz Hz).
    + intros y a z a' _ Hy Hz Hwy.
      exact (convertField_keeps ext schema m m y z a a' (Hy Hwy) Hz).
  - intros y acc m acc' _ Hy Hm. exact (Hkeeps y acc m acc' Hy Hm).
Qed.

Lemma conversion_covers_unskipped_fields_witness :
  hasDescriptor Sample.plain Sample.shopSchema Sample.Customer Sample.name
    Shop.entities.
Proof.
  apply (conversion_covers_unskipped_fields Sample.plain Sample.tokens
           Sample.shopSchema Shop.entities Sample.Customer Sample.name).
  - exact shop_run.
  - left. reflexivity.
  - right. left. reflexivity.
  - reflexivity.
Defined.

(* ------------------------------------------------------------------ *)
(** ** Validations section *)

Lemma pushAll_orNull {A} (errors found : list A) :
  pushAll errors (orNull found) = errors ++ found.
Proof. destruct found; simpl; [now rewrite app_nil_r | reflexivity]. Qed.

Lemma reported_orNull (messages : list ErrorMessage) :
  reported (Ok (orNull messages)) = messages.
Proof. destruct messages; reflexivity. Qed.

Lemma orNull_None {A} (errors : list A) : orNull errors = None <-> errors = [].
Proof. destruct errors; simpl; split; congruence. Qed.

Lemma validateFieldOf_messages (ext : Externals) (isCamel : string -> bool)
  (model : Model) (errors : list ErrorMessage) (field : Field) :
  validateFieldOf ext isCamel model errors field
  = errors ++ fieldMessages ext isCamel (model, field).
Proof.
  unfold validateFieldOf, validateFKFieldName, validateModelNamesReservedWords,
    validateFieldNamesReservedWords, fieldMessages, reservedWord.
  rewrite !pushAll_orNull, <- !app_assoc. simpl.
  destruct (isCamel (field_name field)); reflexivity.
Qed.

Lemma validateModel_messages (ext : Externals) (isCamel : string -> bool)
  (model : Model) (errors : list ErrorMessage) :
  validateModel ext isCamel errors model
  = errors ++ flat_map (fieldMessages ext isCamel)
                (map (pair model) (fieldsOf (properties model))).
Proof.
  unfold validateModel. revert errors.
  induction (fieldsOf (properties model)) as [|f rest IH]; simpl; intros errors.
  - now rewrite app_nil_r.
  - rewrite IH, validateFieldOf_messages, <- app_assoc. reflexivity.
Qed.

(** The messages of a parsed schema, in the order of the walk. *)
Lemma validateSchemaProcessing_messages (ext : Externals) (isCamel : string -> bool)
  (schema : string) (schemaObject : Schema) :
  getSchema ext schema = Ok schemaObject ->
  validateSchemaProcessing ext isCamel schema
  = Ok (orNull ((match modelsOf (list_ schemaObject) with
                 | [] => [noModelsMessage]
                 | _ => []
                 end)
                ++ flat_map (fieldMessages ext isCamel) (allModelFields schemaObject))).
Proof.
  intros Hparsed. unfold validateSchemaProcessing, allModelFields.
  rewrite Hparsed. simpl. do 2 f_equal.
  assert (Hfold : forall models errors,
             fold_left (validateModel ext isCamel) models errors
             = errors ++ flat_map (fieldMessages ext isCamel)
                           (flat_map (fun model =>
                                        map (pair model) (fieldsOf (properties model)))
                                     models)).
  { induction models as [|m rest IH]; simpl; intros errors.
    - now rewrite app_nil_r.
    - rewrite IH, validateModel_messages, flat_map_app, <- app_assoc. reflexivity. }
  rewrite Hfold. f_equal. destruct (modelsOf (list_ schemaObject)); reflexivity.
Qed.

Lemma In_allModelFields (schema : Schema) (model : Model) (field : Field) :
  In (model, field) (allModelFields schema)
  <-> In (BModel model) (list_ schema) /\ In (PField field) (properties model).
Proof.
  unfold allModelFields. rewrite in_flat_map. split.
  - intros [m [Hm Hf]]. apply in_map_iff in Hf. destruct Hf as [f [Heq Hf]].
    inversion Heq; subst. now rewrite <- In_modelsOf, <- In_fieldsOf.
  - intros [Hm Hf]. exists model. rewrite In_modelsOf. split; [assumption|].
    apply in_map. now apply In_fieldsOf.
Qed.

Lemma flat_map_nil {A B} (f : A -> list B) (l : list A) :
  flat_map f l = [] <-> forall x, In x l -> f x = [].
Proof.
  induction l as [|a rest IH]; simpl.
  - split; [contradiction | reflexivity].
  - split.
    + intros H. apply app_eq_nil in H. destruct H as [Ha Hrest].
      intros x [<-|Hx]; [assumption | now apply IH].
    + intros H. rewrite (H a (or_introl eq_refl)). simpl. apply IH. auto.
Qed.

Lemma fieldMessages_nil (ext : Externals) (isCamel : string -> bool)
  (model : Model) (field : Field) :
  fieldMessages ext isCamel (model, field) = []
  <-> isCamel (field_name field) = true
      /\ reservedWord ext (model_name model) = false
      /\ reservedWord ext (field_name field) = false.
Proof.
  unfold fieldMessages. simpl.
  destruct (isCamel (field_name field)), (reservedWord ext (model_name model)),
    (reservedWord ext (field_name field)); simpl; split;
    try discriminate; try tauto; intros [? [? ?]]; discriminate.
Qed.

(** When the validation rules accept.  validateSchemaProcessing returns null
    exactly when the parser returns a schema that has at least one model and
    in which every field of every model -- a foreign-key column or not --
    has a name that isCamelCaseWithIdSuffix accepts and that is no reserved
    word, in a model whose name is no reserved word. *)
Theorem validateSchemaProcessing_null (ext : Externals) (isCamel : string -> bool)
  (schema : string) :
  validateSchemaProcessing ext isCamel schema = Ok None
  <-> exists schemaObject,
        getSchema ext schema = Ok schemaObject
        /\ modelsOf (list_ schemaObject) <> []
        /\ forall model field,
             In (BModel model) (list_ schemaObject) ->
             In (PField field) (properties model) ->
             isCamel (field_name field) = true
             /\ reservedWord ext (model_name model) = false
             /\ reservedWord ext (field_name field) = false.
Proof.
  split.
  - intros H. destruct (getSchema ext schema) as [schemaObject|e] eqn:Hparsed.
    + rewrite (validateSchemaProcessing_messages ext isCamel schema schemaObject Hparsed)
        in H.
      inversion H as [Hnull]. apply orNull_None in Hnull.
      apply app_eq_nil in Hnull. destruct Hnull as [Hmodels Hfields].
      exists schemaObject. split; [reflexivity|]. split.
      * destruct (modelsOf (list_ schemaObject)); [discriminate | discriminate].
      * intros model field Hm Hf.
        apply (fieldMessages_nil ext isCamel model field).
        apply (proj1 (flat_map_nil _ _) Hfields).
        now apply In_allModelFields.
    + unfold validateSchemaProcessing in H. rewrite Hparsed in H. discriminate.
  - intros [schemaObject [Hparsed [Hmodels Hall]]].
    rewrite (validateSchemaProcessing_messages ext isCamel schema schemaObject Hparsed).
    f_equal. apply orNull_None.
    destruct (modelsOf (list_ schemaObject)) as [|m rest] eqn:E; [congruence|].
    simpl. apply flat_map_nil. intros [model field] Hin.
    apply In_allModelFields in Hin. destruct Hin as [Hm Hf].
    apply fieldMessages_nil. now apply Hall.
Qed.

Lemma In_fieldMessages (ext : Externals) (isCamel : string -> bool)
  (entry : Model * Field) (message : ErrorMessage) :
  In message (fieldMessages ext isCamel entry) <->
  (isCamel (field_name (snd entry)) = false
   /\ message = invalidFKFieldNameMessage (model_name (fst entry))
                  (field_name (snd entry)))
  \/ (reservedWord ext (model_name (fst entry)) = true
      /\ message = reservedModelNameMessage (model_name (fst entry)))
  \/ (reservedWord ext (field_name (snd entry)) = true
      /\ message = reservedFieldNameMessage (field_name (snd entry))).
Proof.
  unfold fieldMessages.
  destruct (isCamel (field_name (snd entry))),
    (reservedWord ext (model_name (fst entry))),
    (reservedWord ext (field_name (snd entry))); simpl;
    intuition (try discriminate; auto).
Qed.

(** The missing-model message.  It is reported exactly when the parsed schema
    has no model, and it is then the only message: a message list that holds
    it holds nothing else. *)
Theorem validateSchemaProcessing_no_models (ext : Externals) (isCamel : string -> bool)
  (schema : string) :
  (validateSchemaProcessing ext isCamel schema = Ok (Some [noModelsMessage])
   <-> exists schemaObject,
         getSchema ext schema = Ok schemaObject
         /\ modelsOf (list_ schemaObject) = [])
  /\ (In noModelsMessage (reported (validateSchemaProcessing ext isCamel schema))
      <-> validateSchemaProcessing ext isCamel schema = Ok (Some [noModelsMessage])).
Proof.
  destruct (getSchema ext schema) as [schemaObject|e] eqn:Hparsed.
  - rewrite (validateSchemaProcessing_messages ext isCamel schema schemaObject Hparsed).
    rewrite reported_orNull. unfold allModelFields.
    destruct (modelsOf (list_ schemaObject)) as [|m rest] eqn:E; simpl.
    + split; split; auto.
      intros _. exists schemaObject. auto.
    + assert (Hnot : ~ In noModelsMessage
                       (flat_map (fieldMessages ext isCamel)
                          (map (pair m) (fieldsOf (properties m))
                           ++ flat_map (fun model =>
                                map (pair model) (fieldsOf (properties model))) rest))).
      { intros Hin. apply in_flat_map in Hin. destruct Hin as [entry [_ Hin]].
        apply In_fieldMessages in Hin.
        destruct Hin as [[_ H]|[[_ H]|[_ H]]]; discriminate. }
      split; split.
      * intros H. exfalso. apply Hnot. inversion H as [Hsome].
        destruct (flat_map _ _) as [|x l] in *; [discriminate|].
        simpl in Hsome. inversion Hsome. now left.
      * intros [schemaObject' [Heq Hnil]]. inversion Heq; subst. congruence.
      * intros H. contradiction.
      * intros H. exfalso. apply Hnot. inversion H as [Hsome].
        destruct (flat_map _ _) as [|x l] in *; [discriminate|].
        simpl in Hsome. inversion Hsome. now left.
  - unfold validateSchemaProcessing. rewrite Hparsed. simpl.
    split; split; try discriminate; try contradiction.
    intros [schemaObject [H _]]. discriminate.
Qed.

Lemma string_app_length (a b : string) :
  String.length (a ++ b) = String.length a + String.length b.
Proof. induction a as [|c a IH]; simpl; [reflexivity | now rewrite IH]. Qed.

Lemma string_app_assoc (a b c : string) : ((a ++ b) ++ c = a ++ (b ++ c))%string.
Proof. induction a as [|x a IH]; simpl; [reflexivity | now rewrite IH]. Qed.

Lemma string_app_inv_head (a x y : string) : (a ++ x = a ++ y -> x = y)%string.
Proof. induction a as [|c a IH]; simpl; intros H; [assumption|]. inversion H. auto. Qed.

Lemma string_app_inj (a b x y : string) :
  String.length a = String.length b -> (a ++ x = b ++ y)%string -> a = b.
Proof.
  revert b. induction a as [|c a IH]; intros [|d b]; simpl; intros Hlen H;
    try discriminate; [reflexivity|].
  inversion H; subst. f_equal. apply IH; [now inversion Hlen | assumption].
Qed.

(** The warning of a model determines the model's name. *)
Lemma reservedModelNameMessage_inj (name name' : string) :
  reservedModelNameMessage name = reservedModelNameMessage name' -> name = name'.
Proof.
  unfold reservedModelNameMessage. intros H. inversion H as [Hdetails].
  assert (Hlen : String.length name = String.length name').
  { apply (f_equal String.length) in Hdetails.
    rewrite !string_app_length in Hdetails. simpl in Hdetails.
    rewrite !string_app_length in Hdetails. simpl in Hdetails. lia. }
  rewrite !string_app_assoc in Hdetails.
  exact (string_app_inj _ _ _ _ Hlen Hdetails).
Qed.

(** The reserved-word warning of a model.  The warning that names a model is
    reported exactly when the name is a reserved word and some model of that
    name has at least one field: the check runs once per field, inside the
    loop over the fields, so a model without fields is never checked. *)
Theorem validateSchemaProcessing_reserved_model (ext : Externals)
  (isCamel : string -> bool) (schema name : string) :
  In (reservedModelNameMessage name)
     (reported (validateSchemaProcessing ext isCamel schema))
  <-> exists schemaObject model,
        getSchema ext schema = Ok schemaObject
        /\ reservedWord ext name = true
        /\ In (BModel model) (list_ schemaObject)
        /\ model_name model = name
        /\ fieldsOf (properties model) <> [].
Proof.
  destruct (getSchema ext schema) as [schemaObject|e] eqn:Hparsed.
  - rewrite (validateSchemaProcessing_messages ext isCamel schema schemaObject Hparsed).
    rewrite reported_orNull, in_app_iff, in_flat_map. split.
    + intros [Hin|[[model field] [Hentry Hin]]].
      * destruct (modelsOf (list_ schemaObject)); [|contradiction].
        destruct Hin as [H|[]]. discriminate.
      * apply In_fieldMessages in Hin. simpl in Hin.
        apply In_allModelFields in Hentry. destruct Hentry as [Hm Hf].
        destruct Hin as [[_ H]|[[Hreserved H]|[_ H]]]; [discriminate| |discriminate].
        apply reservedModelNameMessage_inj in H. subst name.
        exists schemaObject, model. repeat split; auto.
        apply In_fieldsOf in Hf. intros Hnil. rewrite Hnil in Hf. contradiction.
    + intros [schemaObject' [model [Heq [Hreserved [Hm [Hname Hfields]]]]]].
      inversion Heq; subst schemaObject'. right.
      destruct (fieldsOf (properties model)) as [|field rest] eqn:E; [congruence|].
      exists (model, field). split.
      * apply In_allModelFields. split; [assumption|].
        apply In_fieldsOf. rewrite E. now left.
      * apply In_fieldMessages. simpl. right. left. subst name. auto.
  - unfold validateSchemaProcessing. rewrite Hparsed. simpl. split; [contradiction|].
    intros [schemaObject [model [H _]]]. discriminate.
Qed.

(** When validation reports an Error.  Some message of kind Error is reported
    exactly when the parsed schema has no model, or some field of some model
    has a name that isCamelCaseWithIdSuffix rejects -- whether or not the
    field is the foreign-key column of a relation.  Reserved words only ever
    give Warnings. *)
Theorem validateSchemaProcessing_error_level (ext : Externals)
  (isCamel : string -> bool) (schema : string) :
  (exists message,
      In message (reported (validateSchemaProcessing ext isCamel schema))
      /\ em_level message = ErrorLevel.Error)
  <-> exists schemaObject,
        getSchema ext schema = Ok schemaObject
        /\ (modelsOf (list_ schemaObject) = []
            \/ exists model field,
                 In (BModel model) (list_ schemaObject)
                 /\ In (PField field) (properties model)
                 /\ isCamel (field_name field) = false).
Proof.
  destruct (getSchema ext schema) as [schemaObject|e] eqn:Hparsed.
  - rewrite (validateSchemaProcessing_messages ext isCamel schema schemaObject Hparsed).
    rewrite reported_orNull. split.
    + intros [message [Hin Hlevel]]. exists schemaObject. split; [reflexivity|].
      apply in_app_or in Hin. destruct Hin as [Hin|Hin].
      * left. destruct (modelsOf (list_ schemaObject)); [reflexivity | contradiction].
      * right. apply in_flat_map in Hin. destruct Hin as [[model field] [Hentry Hin]].
        apply In_allModelFields in Hentry. destruct Hentry as [Hm Hf].
        apply In_fieldMessages in Hin. simpl in Hin.
        destruct Hin as [[Hcamel _]|[[_ ->]|[_ ->]]]; [|discriminate|discriminate].
        exists model, field. auto.
    + intros [schemaObject' [Heq Hcases]]. inversion Heq; subst schemaObject'.
      destruct Hcases as [Hnone|[model [field [Hm [Hf Hcamel]]]]].
      * exists noModelsMessage. rewrite Hnone. simpl. auto.
      * exists (invalidFKFieldNameMessage (model_name model) (field_name field)).
        split; [|reflexivity]. apply in_or_app. right. apply in_flat_map.
        exists (model, field). split; [now apply In_allModelFields|].
        apply In_fieldMessages. left. auto.
  - unfold validateSchemaProcessing. rewrite Hparsed. simpl. split.
    + intros [message [[] _]].
    + intros [schemaObject [H _]]. discriminate.
Qed.

(* ------------------------------------------------------------------ *)
(** ** validateSchemaUpload *)

(** The first character of the replaced text is a line feed or the first
    character of the text. *)
Lemma replaceEscapedNewlines_head (c : ascii) (rest : string) :
  exists after,
    (replaceEscapedNewlines (String c rest) = String newline after
     /\ exists d rest', rest = String d rest'
                        /\ Ascii.eqb c backslash && Ascii.eqb d "n"%char = true)
    \/ replaceEscapedNewlines (String c rest) = String c after.
Proof.
  destruct rest as [|d rest']; simpl.
  - exists EmptyString. now right.
  - destruct (Ascii.eqb c backslash && Ascii.eqb d "n"%char) eqn:E.
    + exists (replaceEscapedNewlines rest'). left. split; [reflexivity|].
      exists d, rest'. auto.
    + exists (replaceEscapedNewlines (String d rest')). now right.
Qed.

Lemma replaceEscapedNewlines_clean_upto (n : nat) (file : string) :
  String.length file <= n ->
  containsEscapedNewline (replaceEscapedNewlines file) = false.
Proof.
  revert file. induction n as [|n IH]; intros [|c rest]; simpl; intros Hlen;
    try reflexivity; [lia|].
  destruct rest as [|d after]; [reflexivity|].
  destruct (Ascii.eqb c backslash && Ascii.eqb d "n"%char) eqn:E.
  - assert (Hafter : containsEscapedNewline (replaceEscapedNewlines after) = false).
    { apply IH. simpl in Hlen. lia. }
    simpl. destruct (replaceEscapedNewlines after); [reflexivity|].
    rewrite Hafter. reflexivity.
  - assert (Hrest : containsEscapedNewline (replaceEscapedNewlines (String d after))
                    = false).
    { apply IH. simpl in Hlen. simpl. lia. }
    destruct (replaceEscapedNewlines_head d after) as [tail [[Heq _]|Heq]];
      rewrite Heq in *; simpl.
    + change (containsEscapedNewline (String newline tail)) with
        (containsEscapedNewline (String newline tail)) in Hrest.
      simpl in Hrest. rewrite Hrest.
      replace (Ascii.eqb newline "n"%char) with false by reflexivity.
      now rewrite andb_false_r.
    + simpl in Hrest. rewrite Hrest, E. reflexivity.
Qed.

Lemma replaceEscapedNewlines_pair (c d : ascii) (after : string) :
  replaceEscapedNewlines (String c (String d after))
  = if Ascii.eqb c backslash && Ascii.eqb d "n"%char
    then String newline (replaceEscapedNewlines after)
    else String c (replaceEscapedNewlines (String d after)).
Proof. reflexivity. Qed.

Lemma containsEscapedNewline_pair (c d : ascii) (after : string) :
  containsEscapedNewline (String c (String d after))
  = (Ascii.eqb c backslash && Ascii.eqb d "n"%char)
    || containsEscapedNewline (String d after).
Proof. reflexivity. Qed.

Lemma replaceEscapedNewlines_fixed_upto (n : nat) (file : string) :
  String.length file <= n ->
  (replaceEscapedNewlines file = file <-> containsEscapedNewline file = false).
Proof.
  revert file. induction n as [|n IH]; intros [|c rest]; intros Hlen;
    try (simpl; tauto); [simpl in Hlen; lia|].
  destruct rest as [|d after]; [simpl; tauto|].
  rewrite replaceEscapedNewlines_pair, containsEscapedNewline_pair.
  destruct (Ascii.eqb c backslash && Ascii.eqb d "n"%char) eqn:E.
  - split; [|discriminate]. intros H. inversion H as [[Hc Hrest]].
    apply andb_true_iff in E. destruct E as [E _].
    apply Ascii.eqb_eq in E. subst c. discriminate.
  - rewrite orb_false_l, <- (IH (String d after)) by (simpl in *; lia). split.
    + intros H. injection H as H. exact H.
    + intros H. now rewrite H.
Qed.

(** What the validity checker is shown, and what the caller learns.  The text
    handed to [validate] holds no backslash followed by n, and is the uploaded
    text itself exactly when that holds none; the upload succeeds, logging
    "Valid schema", exactly when [validate] returns on that text; and whatever
    [validate] throws, the caller gets the one error "Invalid schema". *)
Theorem validateSchemaUpload_outcome (validate : string -> result unit)
  (file : string) :
  containsEscapedNewline (replaceEscapedNewlines file) = false
  /\ (replaceEscapedNewlines file = file <-> containsEscapedNewline file = false)
  /\ ((validate (replaceEscapedNewlines file) = Ok tt
       /\ validateSchemaUpload validate file = ([LogInfo "Valid schema" []], Ok tt))
      \/ ((exists e, validate (replaceEscapedNewlines file) = Throw e)
          /\ validateSchemaUpload validate file
             = ([LogError "Invalid schema"], Throw (Error "Invalid schema")))).
Proof.
  split; [exact (replaceEscapedNewlines_clean_upto _ file (le_n _))|].
  split; [exact (replaceEscapedNewlines_fixed_upto _ file (le_n _))|].
  unfold validateSchemaUpload.
  destruct (validate (replaceEscapedNewlines file)) as [[]|e].
  - left. split; reflexivity.
  - right. split; [now exists e | reflexivity].
Qed.

(* ------------------------------------------------------------------ *)
(** ** What the four passes of processSchema leave alone *)

Lemma sameNames_refl (s : Schema) : sameNames s s.
Proof. split; [reflexivity | auto]. Qed.

Lemma sameNames_trans (s1 s2 s3 : Schema) :
  sameNames s1 s2 -> sameNames s2 s3 -> sameNames s1 s3.
Proof.
  unfold sameNames, sameShape. intros [H1 N1] [H2 N2]. split; [congruence | auto].
Qed.

Lemma sameShape_trans (s1 s2 s3 : Schema) :
  sameShape s1 s2 -> sameShape s2 s3 -> sameShape s1 s3.
Proof. unfold sameShape. congruence. Qed.

Lemma updateAt_skeleton (f : Model -> Model) (i : nat) (blocks : list Block) :
  map skeleton (updateAt i (onModel f) blocks) = map skeleton blocks.
Proof.
  revert i. induction blocks as [|b rest IH]; intros [|i]; simpl; try reflexivity.
  - now destruct b.
  - now rewrite IH.
Qed.

Lemma nth_error_updateAt {A} (g : A -> A) (k i : nat) (l : list A) :
  nth_error (updateAt k g l) i
  = if Nat.eqb i k then option_map g (nth_error l i) else nth_error l i.
Proof.
  revert k i. induction l as [|x rest IH]; intros [|k] [|i]; simpl; try reflexivity.
  - now destruct (Nat.eqb i k).
  - apply IH.
Qed.

Lemma editModel_sameShape (k : nat) (f : Model -> Model) (s : Schema) :
  sameShape s (editModel k f s).
Proof. unfold sameShape, shape, editModel. simpl. apply updateAt_skeleton. Qed.

Lemma editModel_sameNames (k : nat) (f : Model -> Model) (s : Schema) :
  (forall m, model_name (f m) = model_name m) -> sameNames s (editModel k f s).
Proof.
  intros Hname. split; [apply editModel_sameShape|].
  intros i name [m [Hat Hm]]. unfold namedAt, modelAt, editModel in *. simpl.
  rewrite nth_error_updateAt.
  destruct (nth_error (list_ s) i) as [[m'| |]|]; try discriminate.
  inversion Hat; subst m'.
  destruct (Nat.eqb i k); simpl.
  - exists (f m). split; [reflexivity|]. now rewrite Hname.
  - exists m. auto.
Qed.

Lemma lastIndexFrom_found {A} (p : A -> bool) (l : list A) (i j : nat) (x : A) :
  nth_error l i = Some x -> p x = true -> lastIndexFrom p l j <> None.
Proof.
  revert i j. induction l as [|y rest IH]; intros [|i] j; simpl; try discriminate.
  - intros H Hp. inversion H; subst y. rewrite Hp.
    destruct (lastIndexFrom p rest (S j)); discriminate.
  - intros H Hp. pose proof (IH i (S j) H Hp) as Hfound.
    destruct (lastIndexFrom p rest (S j)); [discriminate | congruence].
Qed.

(** [builder.model(name)] creates nothing when some block is a model of that
    name. *)
Lemma model_found (name : string) (b : Builder) (i : nat) :
  namedAt (b_schema b) i name ->
  b_schema (BuilderOps.model name b) = b_schema b.
Proof.
  intros [m [Hat Hname]]. unfold BuilderOps.model, modelAt in *.
  destruct (nth_error (list_ (b_schema b)) i) as [[m'| |]|] eqn:E; try discriminate.
  inversion Hat; subst m'.
  pose proof (lastIndexFrom_found (isModelNamed name) (list_ (b_schema b)) i 0
                (BModel m) E) as Hfound.
  simpl in Hfound. rewrite Hname, String.eqb_refl in Hfound.
  destruct (lastIndexFrom (isModelNamed name) (list_ (b_schema b)) 0);
    [reflexivity | now exfalso; apply Hfound].
Qed.

Lemma field_sameNames (name : string) (b : Builder) :
  sameNames (b_schema b) (b_schema (BuilderOps.field name b)).
Proof.
  unfold BuilderOps.field.
  destruct (b_subject b) as [|i|i j]; try apply sameNames_refl.
  destruct (modelAt (b_schema b) i) as [m|]; [|apply sameNames_refl].
  destruct (lastIndexFrom (isFieldNamed name) (properties m) 0); simpl;
    [apply sameNames_refl|].
  now apply editModel_sameNames.
Qed.

Lemma attribute_sameNames (name : string) (args : list Value) (b : Builder) :
  sameNames (b_schema b) (b_schema (BuilderOps.attribute name args b)).
Proof.
  unfold BuilderOps.attribute, editField.
  destruct (b_subject b) as [|i|i j]; simpl; try apply sameNames_refl.
  now apply editModel_sameNames.
Qed.

Lemma blockAttribute_sameNames (name arg : string) (b : Builder) :
  sameNames (b_schema b) (b_schema (BuilderOps.blockAttribute name arg b)).
Proof.
  unfold BuilderOps.blockAttribute.
  destruct (b_subject b) as [|i|i j]; simpl; try apply sameNames_refl;
    now apply editModel_sameNames.
Qed.

Lemma thenField_sameNames (callback : Field -> Field) (b : Builder) :
  sameNames (b_schema b) (b_schema (BuilderOps.thenField callback b)).
Proof.
  unfold BuilderOps.thenField, editField.
  destruct (b_subject b) as [|i|i j]; simpl; try apply sameNames_refl.
  now apply editModel_sameNames.
Qed.

Lemma thenModel_sameShape (callback : Model -> Model) (b : Builder) :
  sameShape (b_schema b) (b_schema (BuilderOps.thenModel callback b)).
Proof.
  unfold BuilderOps.thenModel.
  destruct (b_subject b) as [|i|i j]; simpl; try reflexivity.
  apply editModel_sameShape.
Qed.

(** [builder.model(m).field(f)] on a model that is there. *)
Lemma select_field_sameNames (b : Builder) (i : nat) (modelName fieldName : string) :
  namedAt (b_schema b) i modelName ->
  sameNames (b_schema b)
    (b_schema (BuilderOps.field fieldName (BuilderOps.model modelName b))).
Proof.
  intros Hnamed.
  pose proof (field_sameNames fieldName (BuilderOps.model modelName b)) as H.
  now rewrite (model_found modelName b i Hnamed) in H.
Qed.

(** The two builder chains of a field rename:
    [builder.model(m).field(f).attribute(...)] and then
    [builder.model(m).field(f).then(...)]. *)
Lemma rename_chain_sameNames (b : Builder) (i : nat) (modelName fieldName : string)
  (attr : string) (args : list Value) (callback : Field -> Field) :
  namedAt (b_schema b) i modelName ->
  sameNames (b_schema b)
    (b_schema
       (BuilderOps.thenField callback
          (BuilderOps.field fieldName
             (BuilderOps.model modelName
                (BuilderOps.attribute attr args
                   (BuilderOps.field fieldName (BuilderOps.model modelName b))))))).
Proof.
  intros Hnamed.
  assert (H1 : sameNames (b_schema b)
                 (b_schema (BuilderOps.attribute attr args
                              (BuilderOps.field fieldName
                                 (BuilderOps.model modelName b))))).
  { eapply sameNames_trans; [exact (select_field_sameNames b i _ fieldName Hnamed)|].
    apply attribute_sameNames. }
  eapply sameNames_trans; [exact H1|].
  eapply sameNames_trans;
    [exact (select_field_sameNames _ i _ fieldName (proj2 H1 i modelName Hnamed))|].
  apply thenField_sameNames.
Qed.

Lemma then_chain_sameNames (b : Builder) (i : nat) (modelName fieldName : string)
  (callback : Field -> Field) :
  namedAt (b_schema b) i modelName ->
  sameNames (b_schema b)
    (b_schema
       (BuilderOps.thenField callback
          (BuilderOps.field fieldName (BuilderOps.model modelName b)))).
Proof.
  intros Hnamed.
  eapply sameNames_trans; [exact (select_field_sameNames b i _ fieldName Hnamed)|].
  apply thenField_sameNames.
Qed.

Lemma modelAt_namedAt (s : Schema) (i : nat) (m : Model) :
  modelAt s i = Some m -> namedAt s i (model_name m).
Proof. intros H. exists m. auto. Qed.

Lemma fold_left_invariant {A B} (I : A -> Prop) (f : A -> B -> A) (l : list B) :
  (forall a x, I a -> I (f a x)) -> forall a, I a -> I (fold_left f l a).
Proof. intros Hf. induction l as [|x rest IH]; simpl; auto. Qed.

Lemma renameModel_sameShape (ext : Externals) (b : Builder) (i : nat) :
  sameShape (b_schema b) (b_schema (renameModel ext b i)).
Proof.
  unfold renameModel.
  destruct (modelAt (b_schema b) i) as [m|] eqn:Hat; [|reflexivity].
  destruct (isInvalidModelName ext (model_name m)); [|reflexivity].
  pose proof (modelAt_namedAt _ _ _ Hat) as Hnamed.
  assert (H1 : sameNames (b_schema b)
                 (b_schema (BuilderOps.blockAttribute "map" (model_name m)
                              (BuilderOps.model (model_name m) b)))).
  { pose proof (blockAttribute_sameNames "map" (model_name m)
                  (BuilderOps.model (model_name m) b)) as H.
    now rewrite (model_found _ b i Hnamed) in H. }
  eapply sameShape_trans; [exact (proj1 H1)|].
  eapply sameShape_trans; [|apply thenModel_sameShape].
  unfold sameShape.
  now rewrite (model_found _ _ i (proj2 H1 i _ Hnamed)).
Qed.

Lemma handleModelNamesRenaming_sameShape (ext : Externals) (b b' : Builder) :
  snd (handleModelNamesRenaming ext b) = Ok b' ->
  sameShape (b_schema b) (b_schema b').
Proof.
  unfold handleModelNamesRenaming, ret. simpl. intros H. inversion H.
  apply (fold_left_invariant (fun acc => sameShape (b_schema b) (b_schema acc))).
  - intros a x Ha. eapply sameShape_trans; [exact Ha | apply renameModel_sameShape].
  - reflexivity.
Qed.

Lemma renameField_sameNames (ext : Externals) (i j : nat) (b b' : Builder) :
  snd (renameField ext i b j) = Ok b' -> sameNames (b_schema b) (b_schema b').
Proof.
  unfold renameField.
  destruct (modelAt (b_schema b) i) as [m|] eqn:Hat;
    [|intros H; inversion H; apply sameNames_refl].
  destruct (fieldAt (b_schema b) i j) as [f|];
    [|intros H; inversion H; apply sameNames_refl].
  intros H. apply bind_ok_inv in H. destruct H as [isFk [_ H]].
  apply bind_ok_inv in H. destruct H as [isEnum [_ H]].
  destruct (isInvalidFieldName ext (field_name f) && negb isEnum && negb isFk);
    inversion H; [|apply sameNames_refl].
  apply (rename_chain_sameNames b i). now apply modelAt_namedAt.
Qed.

Lemma handleFieldNamesRenaming_sameNames (ext : Externals) (b b' : Builder) :
  snd (handleFieldNamesRenaming ext b) = Ok b' ->
  sameNames (b_schema b) (b_schema b').
Proof.
  unfold handleFieldNamesRenaming.
  apply (forEachM_invariant (fun acc => sameNames (b_schema b) (b_schema acc)));
    [|apply sameNames_refl].
  intros acc i acc' _ Hacc Hstep. eapply sameNames_trans; [exact Hacc|].
  unfold renameFieldsOfModel in Hstep.
  destruct (modelAt (b_schema acc) i) as [m|];
    [|inversion Hstep; apply sameNames_refl].
  revert Hstep.
  apply (forEachM_invariant (fun a => sameNames (b_schema acc) (b_schema a)));
    [|apply sameNames_refl].
  intros a j a' _ Ha Hj. eapply sameNames_trans; [exact Ha|].
  exact (renameField_sameNames ext i j a a' Hj).
Qed.

Lemma renameFieldType_sameNames (ext : Externals) (i j : nat) (b b' : Builder) :
  snd (renameFieldType ext i b j) = Ok b' -> sameNames (b_schema b) (b_schema b').
Proof.
  unfold renameFieldType.
  destruct (modelAt (b_schema b) i) as [m|] eqn:Hat;
    [|intros H; inversion H; apply sameNames_refl].
  destruct (fieldAt (b_schema b) i j) as [f|];
    [|intros H; inversion H; apply sameNames_refl].
  intros H. apply bind_ok_inv in H. destruct H as [isEnum [_ H]].
  apply bind_ok_inv in H. destruct H as [isScalar [_ H]].
  destruct (negb isEnum && negb isScalar); inversion H; [|apply sameNames_refl].
  apply (then_chain_sameNames b i). now apply modelAt_namedAt.
Qed.

Lemma handleFieldTypesRenaming_sameNames (ext : Externals) (b b' : Builder) :
  snd (handleFieldTypesRenaming ext b) = Ok b' ->
  sameNames (b_schema b) (b_schema b').
Proof.
  unfold handleFieldTypesRenaming.
  apply (forEachM_invariant (fun acc => sameNames (b_schema b) (b_schema acc)));
    [|apply sameNames_refl].
  intros acc i acc' _ Hacc Hstep. eapply sameNames_trans; [exact Hacc|].
  unfold renameFieldTypesOfModel in Hstep.
  destruct (modelAt (b_schema acc) i) as [m|];
    [|inversion Hstep; apply sameNames_refl].
  revert Hstep.
  apply (forEachM_invariant (fun a => sameNames (b_schema acc) (b_schema a)));
    [|apply sameNames_refl].
  intros a j a' _ Ha Hj. eapply sameNames_trans; [exact Ha|].
  exact (renameFieldType_sameNames ext i j a a' Hj).
Qed.

Lemma normalizeIdField_sameNames (i : nat) (b : Builder) (j : nat) :
  sameNames (b_schema b) (b_schema (normalizeIdField i b j)).
Proof.
  unfold normalizeIdField.
  destruct (modelAt (b_schema b) i) as [m|] eqn:Hat; [|apply sameNames_refl].
  destruct (fieldAt (b_schema b) i j) as [f|]; [|apply sameNames_refl].
  pose proof (modelAt_namedAt _ _ _ Hat) as Hnamed.
  destruct (negb (hasAttribute ID_ATTRIBUTE_NAME f) && (field_name f =? ID_FIELD_NAME));
    [exact (rename_chain_sameNames b i _ _ _ _ _ Hnamed)|].
  destruct (hasAttribute ID_ATTRIBUTE_NAME f && negb (field_name f =? ID_FIELD_NAME));
    [exact (rename_chain_sameNames b i _ _ _ _ _ Hnamed)|].
  apply sameNames_refl.
Qed.

Lemma handleIdField_sameNames (b b' : Builder) :
  snd (handleIdField b) = Ok b' -> sameNames (b_schema b) (b_schema b').
Proof.
  unfold handleIdField, ret. simpl. intros H. inversion H.
  apply (fold_left_invariant (fun acc => sameNames (b_schema b) (b_schema acc)));
    [|apply sameNames_refl].
  intros a i Ha. eapply sameNames_trans; [exact Ha|].
  unfold normalizeIdFieldsOfModel.
  destruct (modelAt (b_schema a) i) as [m|]; [|apply sameNames_refl].
  apply (fold_left_invariant (fun acc => sameNames (b_schema a) (b_schema acc)));
    [|apply sameNames_refl].
  intros a' j Ha'. eapply sameNames_trans; [exact Ha'|].
  apply normalizeIdField_sameNames.
Qed.

Lemma enumsOf_skeleton (blocks : list Block) :
  enumsOf (map skeleton blocks) = enumsOf blocks.
Proof.
  induction blocks as [|b rest IH]; simpl; [reflexivity|].
  destruct b; simpl; now rewrite ?IH.
Qed.

Lemma modelsOf_skeleton_length (blocks : list Block) :
  List.length (modelsOf (map skeleton blocks)) = List.length (modelsOf blocks).
Proof.
  induction blocks as [|b rest IH]; simpl; [reflexivity|].
  destruct b; simpl; now rewrite ?IH.
Qed.

Lemma processSchema_frame (ext : Externals) (schema : string)
  (prepared : Schema) :
  snd (processSchema ext (operations ext) schema) = Ok prepared ->
  exists parsed,
    getSchema ext schema = Ok parsed
    /\ map skeleton (list_ prepared) = map skeleton (list_ parsed)
    /\ enumsOf (list_ prepared) = enumsOf (list_ parsed)
    /\ List.length (modelsOf (list_ prepared)) = List.length (modelsOf (list_ parsed)).
Proof.
  unfold processSchema. intros H.
  apply bind_ok_inv in H. destruct H as [parsed [Hparsed H]]. simpl in Hparsed.
  apply bind_ok_inv in H. destruct H as [builder [Hpasses H]].
  inversion H; subst prepared. clear H.
  exists parsed. split; [assumption|].
  assert (Hshape : sameShape parsed (b_schema builder)).
  { revert Hpasses.
    apply (forEachM_invariant
             (fun acc => sameShape (b_schema (mkBuilder parsed NoSubject))
                           (b_schema acc))); [|reflexivity].
    intros acc operation acc' Hin Hacc Hstep.
    eapply sameShape_trans; [exact Hacc|].
    destruct Hin as [<-|[<-|[<-|[<-|[]]]]].
    - now apply handleModelNamesRenaming_sameShape in Hstep.
    - exact (proj1 (handleFieldNamesRenaming_sameNames ext acc acc' Hstep)).
    - exact (proj1 (handleFieldTypesRenaming_sameNames ext acc acc' Hstep)).
    - exact (proj1 (handleIdField_sameNames acc acc' Hstep)). }
  unfold sameShape, shape in Hshape.
  split; [assumption|]. split.
  - now rewrite <- (enumsOf_skeleton (list_ (b_schema builder))), Hshape,
      enumsOf_skeleton.
  - now rewrite <- (modelsOf_skeleton_length (list_ (b_schema builder))), Hshape,
      modelsOf_skeleton_length.
Qed.

(** What normalization leaves alone.  When processSchema returns, the prepared
    schema has the blocks of the parsed one at the same positions -- a model
    where there was a model, and every other block unchanged: no pass adds or
    removes a block, the enumerations are those of the parsed schema, and
    there are as many models as before. *)
Theorem processSchema_keeps_blocks (ext : Externals) (schema : string)
  (prepared : Schema) :
  snd (processSchema ext (operations ext) schema) = Ok prepared ->
  exists parsed,
    getSchema ext schema = Ok parsed
    /\ map skeleton (list_ prepared) = map skeleton (list_ parsed)
    /\ enumsOf (list_ prepared) = enumsOf (list_ parsed)
    /\ List.length (modelsOf (list_ prepared)) = List.length (modelsOf (list_ parsed)).
Proof. exact (processSchema_frame ext schema prepared). Qed.

Lemma token_processed :
  snd (processSchema (parsing Sample.tokenSchema)
         (operations (parsing Sample.tokenSchema)) "model Token")
  = Ok Sample.tokenSchemaAfter.
Proof. reflexivity. Qed.

Lemma processSchema_keeps_blocks_witness :
  exists parsed,
    getSchema (parsing Sample.tokenSchema) "model Token" = Ok parsed
    /\ map skeleton (list_ Sample.tokenSchemaAfter) = map skeleton (list_ parsed)
    /\ enumsOf (list_ Sample.tokenSchemaAfter) = enumsOf (list_ parsed)
    /\ List.length (modelsOf (list_ Sample.tokenSchemaAfter))
       = List.length (modelsOf (list_ parsed)).
Proof.
  apply (processSchema_keeps_blocks (parsing Sample.tokenSchema) "model Token"
           Sample.tokenSchemaAfter).
  exact token_processed.
Defined.

(* ------------------------------------------------------------------ *)
(** ** The first pass on every model *)

Lemma lastIndexFrom_none {A} (p : A -> bool) (l : list A) (k : nat) :
  (forall x, In x l -> p x = false) -> lastIndexFrom p l k = None.
Proof.
  revert k. induction l as [|x rest IH]; simpl; intros k H; [reflexivity|].
  rewrite IH by auto. now rewrite (H x (or_introl eq_refl)).
Qed.

Lemma lastIndexFrom_last {A} (p : A -> bool) (done rest : list A) (y : A) (k : nat) :
  (forall x, In x rest -> p x = false) -> p y = true ->
  lastIndexFrom p (done ++ y :: rest) k = Some (k + List.length done).
Proof.
  revert k. induction done as [|d done IH]; simpl; intros k Hrest Hy.
  - rewrite (lastIndexFrom_none p rest (S k) Hrest), Hy. f_equal. lia.
  - rewrite (IH (S k) Hrest Hy). f_equal. lia.
Qed.

Lemma updateAt_middle {A} (g : A -> A) (done rest : list A) (y : A) :
  updateAt (List.length done) g (done ++ y :: rest) = done ++ g y :: rest.
Proof. induction done as [|d done IH]; simpl; [reflexivity | now rewrite IH]. Qed.

Lemma nth_error_middle {A} (done rest : list A) (y : A) :
  nth_error (done ++ y :: rest) (List.length done) = Some y.
Proof. induction done as [|d done IH]; simpl; [reflexivity | exact IH]. Qed.

Lemma model_selects_last (name : string) (done rest : list Block) (m : Model)
  (subject : Subject) :
  model_name m = name ->
  ~ In name (map model_name (modelsOf rest)) ->
  BuilderOps.model name (mkBuilder (mkSchema (done ++ BModel m :: rest)) subject)
  = mkBuilder (mkSchema (done ++ BModel m :: rest)) (ModelSubject (List.length done)).
Proof.
  intros Hname Hlater. unfold BuilderOps.model. simpl.
  rewrite (lastIndexFrom_last (isModelNamed name) done rest (BModel m) 0).
  - reflexivity.
  - intros [m'| |] Hin; simpl; try reflexivity.
    apply String.eqb_neq. intros Heq. apply Hlater.
    apply in_map_iff. exists m'. split; [assumption|]. now apply In_modelsOf.
  - simpl. rewrite Hname. apply String.eqb_refl.
Qed.





(* ------------------------------------------------------------------ *)
(** ** The last pass on every field *)

Lemma field_selects_last (name : string) (doneB restB : list Block)
  (doneP restP : list Property) (modelName : string) (f : Field) :
  field_name f = name ->
  ~ In name (map field_name (fieldsOf restP)) ->
  BuilderOps.field name
    (mkBuilder
       (mkSchema (doneB ++ BModel (mkModel modelName (doneP ++ PField f :: restP))
                        :: restB))
       (ModelSubject (List.length doneB)))
  = mkBuilder
      (mkSchema (doneB ++ BModel (mkModel modelName (doneP ++ PField f :: restP))
                       :: restB))
      (FieldSubject (List.length doneB) (List.length doneP)).
Proof.
  intros Hname Hlater. unfold BuilderOps.field, modelAt.
  cbn [b_schema list_ b_subject]. rewrite nth_error_middle. cbn [properties].
  rewrite (lastIndexFrom_last (isFieldNamed name) doneP restP (PField f) 0).
  - reflexivity.
  - intros [f'| |] Hin; simpl; try reflexivity.
    apply String.eqb_neq. intros Heq. apply Hlater.
    apply in_map_iff. exists f'. split; [assumption|]. now apply In_fieldsOf.
  - simpl. rewrite Hname. apply String.eqb_refl.
Qed.

Lemma editField_middle (g : Field -> Field) (doneB restB : list Block)
  (doneP restP : list Property) (modelName : string) (f : Field) :
  editField (List.length doneB) (List.length doneP) g
    (mkSchema (doneB ++ BModel (mkModel modelName (doneP ++ PField f :: restP))
                     :: restB))
  = mkSchema (doneB ++ BModel (mkModel modelName (doneP ++ PField (g f) :: restP))
                    :: restB).
Proof.
  unfold editField, editModel. cbn [list_]. rewrite updateAt_middle.
  cbn [onModel]. unfold setProperties. cbn [properties model_name].
  now rewrite updateAt_middle.
Qed.

Lemma setAttribute_name (name : string) (args : list Value) (f : Field) :
  field_name (BuilderOps.setAttribute name args f) = field_name f.
Proof.
  unfold BuilderOps.setAttribute.
  destruct (lastIndexFrom _ _ 0); reflexivity.
Qed.

Lemma rename_chain_at (doneB restB : list Block) (doneP restP : list Property)
  (modelName : string) (f : Field) (subject : Subject) (args : list Value)
  (newName : string) :
  ~ In modelName (map model_name (modelsOf restB)) ->
  ~ In (field_name f) (map field_name (fieldsOf restP)) ->
  BuilderOps.thenField (fun field => setFieldName newName field)
    (BuilderOps.field (field_name f)
       (BuilderOps.model modelName
          (BuilderOps.attribute "map" args
             (BuilderOps.field (field_name f)
                (BuilderOps.model modelName
                   (mkBuilder
                      (mkSchema
                         (doneB ++ BModel (mkModel modelName (doneP ++ PField f :: restP))
                                :: restB))
                      subject))))))
  = mkBuilder
      (mkSchema
         (doneB ++ BModel (mkModel modelName
                             (doneP ++ PField (setFieldName newName
                                                 (BuilderOps.setAttribute "map" args f))
                                    :: restP))
                :: restB))
      (FieldSubject (List.length doneB) (List.length doneP)).
Proof.
  intros HlaterB HlaterP.
  rewrite (model_selects_last modelName doneB restB
             (mkModel modelName (doneP ++ PField f :: restP)) subject eq_refl HlaterB).
  rewrite (field_selects_last (field_name f) doneB restB doneP restP modelName f
             eq_refl HlaterP).
  unfold BuilderOps.attribute. cbn [b_subject b_schema].
  rewrite editField_middle.
  erewrite model_selects_last; [|reflexivity|exact HlaterB].
  rewrite (field_selects_last (field_name f) doneB restB doneP restP modelName
             (BuilderOps.setAttribute "map" args f) (setAttribute_name _ _ _) HlaterP).
  unfold BuilderOps.thenField. cbn [b_subject b_schema].
  now rewrite editField_middle.
Qed.

Lemma normalizeIdField_at (doneB restB : list Block) (doneP restP : list Property)
  (modelName : string) (f : Field) (subject : Subject) :
  ~ In modelName (map model_name (modelsOf restB)) ->
  ~ In (field_name f) (map field_name (fieldsOf restP)) ->
  exists subject',
    normalizeIdField (List.length doneB)
      (mkBuilder
         (mkSchema
            (doneB ++ BModel (mkModel modelName (doneP ++ PField f :: restP)) :: restB))
         subject)
      (List.length doneP)
    = mkBuilder
        (mkSchema
           (doneB ++ BModel (mkModel modelName
                               (doneP ++ PField (normalizedIdField modelName f) :: restP))
                  :: restB))
        subject'.
Proof.
  intros HlaterB HlaterP. unfold normalizeIdField, normalizedIdField, fieldAt, modelAt.
  cbn [b_schema list_]. rewrite nth_error_middle. cbn [properties model_name].
  rewrite nth_error_middle.
  destruct (negb (hasAttribute ID_ATTRIBUTE_NAME f) && (field_name f =? ID_FIELD_NAME)).
  - rewrite (rename_chain_at doneB restB doneP restP modelName f subject _ _
               HlaterB HlaterP).
    eexists. reflexivity.
  - destruct (hasAttribute ID_ATTRIBUTE_NAME f && negb (field_name f =? ID_FIELD_NAME)).
    + rewrite (rename_chain_at doneB restB doneP restP modelName f subject _ _
                 HlaterB HlaterP).
      eexists. reflexivity.
    + now exists subject.
Qed.

Lemma normalizeIdFields_from (doneB restB : list Block) (modelName : string)
  (restP doneP : list Property) (subject : Subject) :
  ~ In modelName (map model_name (modelsOf restB)) ->
  NoDup (map field_name (fieldsOf restP)) ->
  exists subject',
    fold_left (normalizeIdField (List.length doneB))
      (positionsFrom isField restP (List.length doneP))
      (mkBuilder
         (mkSchema (doneB ++ BModel (mkModel modelName (doneP ++ restP)) :: restB))
         subject)
    = mkBuilder
        (mkSchema
           (doneB ++ BModel (mkModel modelName
                               (doneP ++ map (onField (normalizedIdField modelName)) restP))
                  :: restB))
        subject'.
Proof.
  intros HlaterB. revert doneP subject.
  induction restP as [|p restP IH]; simpl; intros doneP subject Hnodup.
  - now exists subject.
  - assert (Hshift : forall x : Property, doneP ++ x :: restP = (doneP ++ [x]) ++ restP)
      by (intros x; now rewrite <- app_assoc).
    assert (Hlen : forall x : Property,
               S (List.length doneP) = List.length (doneP ++ [x]))
      by (intros x; rewrite length_app; simpl; lia).
    destruct p as [f| |]; simpl in *.
    + inversion Hnodup as [|name names Hlater Hrest]; subst.
      destruct (normalizeIdField_at doneB restB doneP restP modelName f subject
                  HlaterB Hlater) as [subject1 Hstep].
      rewrite Hstep.
      rewrite (Hshift (PField (normalizedIdField modelName f))),
        (Hlen (PField (normalizedIdField modelName f))).
      destruct (IH (doneP ++ [PField (normalizedIdField modelName f)]) subject1 Hrest)
        as [subject' Heq].
      rewrite Heq. exists subject'. now rewrite <- app_assoc.
    + rewrite (Hshift (PAttribute a)), (Hlen (PAttribute a)).
      destruct (IH (doneP ++ [PAttribute a]) subject Hnodup) as [subject' Heq].
      rewrite Heq. exists subject'. now rewrite <- app_assoc.
    + rewrite (Hshift POther), (Hlen POther).
      destruct (IH (doneP ++ [POther]) subject Hnodup) as [subject' Heq].
      rewrite Heq. exists subject'. now rewrite <- app_assoc.
Qed.

Lemma normalizeIdFieldsOfModel_last (doneB restB : list Block) (m : Model)
  (subject : Subject) :
  ~ In (model_name m) (map model_name (modelsOf restB)) ->
  NoDup (map field_name (fieldsOf (properties m))) ->
  exists subject',
    normalizeIdFieldsOfModel (mkBuilder (mkSchema (doneB ++ BModel m :: restB)) subject)
      (List.length doneB)
    = mkBuilder (mkSchema (doneB ++ BModel (normalizedIdModel m) :: restB)) subject'.
Proof.
  intros HlaterB Hfields. unfold normalizeIdFieldsOfModel, modelAt.
  cbn [b_schema list_]. rewrite nth_error_middle.
  destruct m as [modelName props]. cbn [model_name properties] in *.
  exact (normalizeIdFields_from doneB restB modelName props [] subject HlaterB Hfields).
Qed.

Lemma normalizeIdModels_from (rest done : list Block) (subject : Subject) :
  NoDup (map model_name (modelsOf rest)) ->
  (forall m, In (BModel m) rest -> NoDup (map field_name (fieldsOf (properties m)))) ->
  exists subject',
    fold_left normalizeIdFieldsOfModel (positionsFrom isModel rest (List.length done))
      (mkBuilder (mkSchema (done ++ rest)) subject)
    = mkBuilder (mkSchema (done ++ map (onModel normalizedIdModel) rest)) subject'.
Proof.
  revert done subject.
  induction rest as [|b rest IH]; simpl; intros done subject Hnodup Hfields.
  - now exists subject.
  - assert (Hshift : forall x : Block, done ++ x :: rest = (done ++ [x]) ++ rest)
      by (intros x; now rewrite <- app_assoc).
    assert (Hlen : forall x : Block, S (List.length done) = List.length (done ++ [x]))
      by (intros x; rewrite length_app; simpl; lia).
    assert (Hfields' : forall m, In (BModel m) rest ->
                                 NoDup (map field_name (fieldsOf (properties m))))
      by (intros m Hm; apply Hfields; now right).
    destruct b as [m| |]; simpl in *.
    + inversion Hnodup as [|name names Hlater Hrest]; subst.
      destruct (normalizeIdFieldsOfModel_last done rest m subject Hlater
                  (Hfields m (or_introl eq_refl))) as [subject1 Hstep].
      rewrite Hstep.
      rewrite (Hshift (BModel (normalizedIdModel m))),
        (Hlen (BModel (normalizedIdModel m))).
      destruct (IH (done ++ [BModel (normalizedIdModel m)]) subject1 Hrest Hfields')
        as [subject' Heq].
      rewrite Heq. exists subject'. now rewrite <- app_assoc.
    + rewrite (Hshift (BEnum e)), (Hlen (BEnum e)).
      destruct (IH (done ++ [BEnum e]) subject Hnodup Hfields') as [subject' Heq].
      rewrite Heq. exists subject'. now rewrite <- app_assoc.
    + rewrite (Hshift BOther), (Hlen BOther).
      destruct (IH (done ++ [BOther]) subject Hnodup Hfields') as [subject' Heq].
      rewrite Heq. exists subject'. now rewrite <- app_assoc.
Qed.

(** The last pass, field by field.  On a schema whose models have distinct
    names and whose models each have fields of distinct names, handleIdField
    logs nothing, throws nothing and changes each field on its own: a field
    named [id] without the id attribute is renamed <model name>Id and mapped to
    that new name, a field with the id attribute and another name is renamed
    [id] and mapped to the name it had, and every other field, property and
    block stays as it is. *)
Theorem handleIdField_each_field (builder : Builder) :
  NoDup (map model_name (modelsOf (list_ (b_schema builder)))) ->
  (forall m, In (BModel m) (list_ (b_schema builder)) ->
             NoDup (map field_name (fieldsOf (properties m)))) ->
  exists normalized,
    handleIdField builder = ([], Ok normalized)
    /\ list_ (b_schema normalized)
       = map (onModel normalizedIdModel) (list_ (b_schema builder)).
Proof.
  intros Hnodup Hfields. unfold handleIdField, ret.
  destruct builder as [[blocks] subject]. simpl in *.
  destruct (normalizeIdModels_from blocks [] subject Hnodup Hfields) as [subject' Heq].
  simpl in Heq. rewrite Heq. eexists. split; reflexivity.
Qed.

Lemma handleIdField_each_field_witness :
  exists normalized,
    handleIdField (mkBuilder Sample.tokenSchema NoSubject) = ([], Ok normalized)
    /\ list_ (b_schema normalized)
       = map (onModel normalizedIdModel)
           (list_ (b_schema (mkBuilder Sample.tokenSchema NoSubject))).
Proof.
  apply (handleIdField_each_field (mkBuilder Sample.tokenSchema NoSubject)).
  - simpl. repeat constructor; simpl; intuition discriminate.
  - simpl. intros m [H|[]]. inversion H; subst m. simpl.
    repeat constructor; simpl; intuition discriminate.
Defined.

(* ------------------------------------------------------------------ *)
(** ** The whole conversion *)

Lemma memo_converted :
  snd (convertPrismaSchemaForImportObjects (parsing Sample.memoSchema) Sample.tokens
         "model Memo")
  = Ok [Sample.memoEntity].
Proof. reflexivity. Qed.

(** One entity per model of the uploaded schema.  When the whole conversion
    (normalization, then the walk) succeeds, the parser has returned a schema,
    and the entities returned are as many as that schema has models, the i-th
    with the i-th token of the identifier generator as its id: normalization
    renames models but neither adds nor drops one, and the walk neither. *)
Theorem convertPrismaSchemaForImportObjects_one_entity_per_model (ext : Externals)
  (cuid : nat -> string) (schema : string) (entities : list Entity) :
  snd (convertPrismaSchemaForImportObjects ext cuid schema) = Ok entities ->
  exists parsed,
    getSchema ext schema = Ok parsed
    /\ List.length entities = List.length (modelsOf (list_ parsed))
    /\ map e_id entities = map cuid (seq 0 (List.length (modelsOf (list_ parsed)))).
Proof.
  unfold convertPrismaSchemaForImportObjects. intros H.
  apply bind_ok_inv in H. destruct H as [prepared [Hprepared Hwalk]].
  destruct (processSchema_frame ext schema prepared Hprepared)
    as [parsed [Hparsed [_ [_ Hmodels]]]].
  exists parsed. split; [assumption|].
  destruct (convertPreparedSchemaForImportObjects_walkInvariant ext cuid prepared
              entities Hwalk) as [Hheader _].
  destruct (prepareEntities_names ext cuid 0 (modelsOf (list_ prepared)))
    as [Hnames [Hids _]].
  rewrite <- Hmodels. split.
  - rewrite <- (length_map withoutFields entities), Hheader.
    rewrite <- (length_map e_name (prepareEntities ext cuid 0 _)), Hnames.
    apply length_map.
  - rewrite <- Hheader, map_map in Hids. exact Hids.
Qed.

Lemma convertPrismaSchemaForImportObjects_one_entity_per_model_witness :
  exists parsed,
    getSchema (parsing Sample.memoSchema) "model Memo" = Ok parsed
    /\ List.length [Sample.memoEntity] = List.length (modelsOf (list_ parsed))
    /\ map e_id [Sample.memoEntity]
       = map Sample.tokens (seq 0 (List.length (modelsOf (list_ parsed)))).
Proof.
  apply (convertPrismaSchemaForImportObjects_one_entity_per_model
           (parsing Sample.memoSchema) Sample.tokens "model Memo" [Sample.memoEntity]).
  exact memo_converted.
Defined.
